(** * Version derivation and tag reconciliation of [update.py]

    A shallow embedding of the versioning core of [update.py]
    ([parse_tags], [get_tags], [git_describe], [get_src], [version_tuple],
    [version_join] and the module loop of [main]) together with the part of
    [packaging.version] the script calls ([parse], [Version], its ordering
    key and [__str__]).

    Python [str] values are modelled as [string]: sequences of code points
    below 256.  Python [int] values are unbounded, so they are [N]. *)

From Stdlib Require Import Bool List Arith NArith Ascii String Lia.
From Stdlib Require Import Sorted Permutation.
From Stdlib Require Import DecimalString DecimalN DecimalFacts.
Import ListNotations.

Open Scope string_scope.
Open Scope N_scope.

(** ** Python string primitives *)

Module Py.

Definition LF : ascii := ascii_of_nat 10.
Definition CR : ascii := ascii_of_nat 13.

Definition code (c : ascii) : N := N_of_ascii c.

(** [str.isspace] on one code point (also the class [\s] of [re] on [str]
    patterns). *)
Definition isspace (c : ascii) : bool :=
  let n := code c in
  ((9 <=? n) && (n <=? 13)) || ((28 <=? n) && (n <=? 32))
  || (n =? 133) || (n =? 160).

(** The class [[0-9]]. *)
Definition isdigit (c : ascii) : bool :=
  let n := code c in (48 <=? n) && (n <=? 57).

Definition isupper (c : ascii) : bool :=
  let n := code c in (65 <=? n) && (n <=? 90).

Definition islower (c : ascii) : bool :=
  let n := code c in (97 <=? n) && (n <=? 122).

(** [str.lower] on one ASCII code point. *)
Definition lower_char (c : ascii) : ascii :=
  if isupper c then ascii_of_N (code c + 32) else c.

Fixpoint lower (s : string) : string :=
  match s with
  | EmptyString => EmptyString
  | String c r => String (lower_char c) (lower r)
  end.

(** [s[::-1]] *)
Fixpoint reverse (s : string) : string :=
  match s with
  | EmptyString => EmptyString
  | String c r => reverse r ++ String c EmptyString
  end.

(** [s.lstrip()], [s.rstrip()] and [s.strip()] without argument. *)
Fixpoint lstrip (s : string) : string :=
  match s with
  | EmptyString => EmptyString
  | String c r => if isspace c then lstrip r else s
  end.

Definition rstrip (s : string) : string := reverse (lstrip (reverse s)).

Definition strip (s : string) : string := rstrip (lstrip s).

(** [s.startswith(p)] *)
Definition startswith (s p : string) : bool := String.prefix p s.

(** [s[1:]] *)
Definition drop1 (s : string) : string :=
  match s with
  | EmptyString => EmptyString
  | String _ r => r
  end.

(** [s[:n]] for [n >= 0] *)
Fixpoint take (n : nat) (s : string) : string :=
  match n, s with
  | S k, String c r => String c (take k r)
  | _, _ => EmptyString
  end.

(** [s.find(p)]: [None] stands for the result [-1]. *)
Fixpoint find (s p : string) : option nat :=
  if String.prefix p s then Some O
  else match s with
       | EmptyString => None
       | String _ r => option_map S (find r p)
       end.

(** The line boundaries of [str.splitlines] below code point 256. *)
Definition is_linebreak (c : ascii) : bool :=
  let n := code c in
  ((10 <=? n) && (n <=? 13)) || ((28 <=? n) && (n <=? 30)) || (n =? 133).

(** [s.splitlines()]: [acc] is the line read so far; a carriage return
    followed by a line feed is one boundary; no empty last line. *)
Fixpoint splitlines_from (acc s : string) : list string :=
  match s with
  | EmptyString => match acc with EmptyString => [] | _ => [acc] end
  | String c r =>
      if is_linebreak c then
        acc :: (if Ascii.eqb c CR then
                  match r with
                  | String c2 r2 =>
                      if Ascii.eqb c2 LF then splitlines_from EmptyString r2
                      else splitlines_from EmptyString r
                  | EmptyString => splitlines_from EmptyString r
                  end
                else splitlines_from EmptyString r)
      else splitlines_from (acc ++ String c EmptyString) r
  end.

Definition splitlines (s : string) : list string :=
  splitlines_from EmptyString s.

(** [sep.join(l)] *)
Fixpoint join (sep : string) (l : list string) : string :=
  match l with
  | [] => EmptyString
  | [x] => x
  | x :: r => x ++ sep ++ join sep r
  end.

(** [s.split(sep, 1)] for a one-character separator: at most one cut, at
    the first occurrence. *)
Fixpoint split1 (sep : ascii) (s : string) : list string :=
  match s with
  | EmptyString => [EmptyString]
  | String c r =>
      if Ascii.eqb c sep then [EmptyString; r]
      else match split1 sep r with
           | x :: l => String c x :: l
           | [] => [String c EmptyString]
           end
  end.

(** [s.split(sep)] for a one-character separator. *)
Fixpoint split (sep : ascii) (s : string) : list string :=
  match s with
  | EmptyString => [EmptyString]
  | String c r =>
      if Ascii.eqb c sep then EmptyString :: split sep r
      else match split sep r with
           | x :: l => String c x :: l
           | [] => [String c EmptyString]
           end
  end.

(** [s.rsplit(sep, 2)] for a one-character separator: at most two cuts,
    counted from the right. *)
Definition rsplit2 (sep : ascii) (s : string) : list string :=
  match split1 sep (reverse s) with
  | [h] => [reverse h]
  | [h; r] =>
      match split1 sep r with
      | [c] => [reverse c; reverse h]
      | [c; t] => [reverse t; reverse c; reverse h]
      | _ => []
      end
  | _ => []
  end.

(** The strings of [l] one after the other. *)
Fixpoint cat (l : list string) : string :=
  match l with
  | [] => EmptyString
  | x :: r => x ++ cat r
  end.

(** A line feed, and lines each closed by one: the text of the doctests
    and of the output of [git]. *)
Definition nl : string := String LF EmptyString.

Definition unlines (l : list string) : string :=
  cat (map (fun t => t ++ nl) l).

(** [str(n)] and [int(s)] for a non-negative integer in decimal. *)
Definition str (n : N) : string := NilZero.string_of_uint (N.to_uint n).

Definition int (s : string) : N :=
  match NilZero.uint_of_string s with
  | Some u => N.of_uint u
  | None => 0
  end.

(** [a < b] on [str]: code point by code point, a proper prefix first. *)
Fixpoint str_ltb (a b : string) : bool :=
  match a, b with
  | EmptyString, EmptyString => false
  | EmptyString, String _ _ => true
  | String _ _, EmptyString => false
  | String x a', String y b' =>
      if code x <? code y then true
      else if code y <? code x then false
      else str_ltb a' b'
  end.

End Py.

(** ** Backtracking matchers

    [re] matches by backtracking: at each choice it takes the first
    alternative and returns to the next one when the rest of the pattern
    fails.  A matcher lists, in that order of preference, every way in which
    a pattern can match a prefix of the subject with the text that is left;
    the match that [re] reports is the first way for which the whole pattern
    succeeds. *)

Module Re.

Definition matcher (A : Type) : Type := string -> list (A * string).

Definition ret {A} (a : A) : matcher A := fun s => [(a, s)].

Definition bind {A B} (m : matcher A) (k : A -> matcher B) : matcher B :=
  fun s => flat_map (fun '(a, r) => k a r) (m s).

Definition fmap {A B} (f : A -> B) (m : matcher A) : matcher B :=
  fun s => map (fun '(a, r) => (f a, r)) (m s).

(** [x|y] *)
Definition alt {A} (m1 m2 : matcher A) : matcher A :=
  fun s => (m1 s ++ m2 s)%list.

Definition fail {A} : matcher A := fun _ => [].

(** [(?:x)?], greedy *)
Definition opt {A} (m : matcher A) : matcher (option A) :=
  alt (fmap Some m) (ret None).

(** One code point of a class. *)
Definition class (p : ascii -> bool) : matcher ascii :=
  fun s => match s with
           | String c r => if p c then [(c, r)] else []
           | EmptyString => []
           end.

(** [[...]*], greedy: the longest run first, then each shorter one. *)
Fixpoint star_class (p : ascii -> bool) (s : string) : list (string * string) :=
  match s with
  | String c r =>
      if p c
      then (map (fun '(m, r') => (String c m, r')) (star_class p r)
              ++ [(EmptyString, s)])%list
      else [(EmptyString, s)]
  | EmptyString => [(EmptyString, EmptyString)]
  end.

(** [[...]+], greedy *)
Definition plus_class (p : ascii -> bool) : matcher string :=
  fun s => match s with
           | String c r =>
               if p c
               then map (fun '(m, r') => (String c m, r')) (star_class p r)
               else []
           | EmptyString => []
           end.

(** A literal word under [re.IGNORECASE]; the word is given in lower
    case and the text matched is returned. *)
Fixpoint lit (w : string) : matcher string :=
  fun s =>
    match w with
    | EmptyString => [(EmptyString, s)]
    | String x w' =>
        match s with
        | String c r =>
            if Ascii.eqb (Py.lower_char c) x
            then map (fun '(m, r') => (String c m, r')) (lit w' r)
            else []
        | EmptyString => []
        end
    end.

(** [(?:x)*], greedy, for a group [x] that consumes at least one code
    point: [fuel] bounds the number of rounds. *)
Fixpoint star {A} (fuel : nat) (m : matcher A) : matcher (list A) :=
  match fuel with
  | O => ret []
  | S k => alt (bind m (fun a => fmap (cons a) (star k m))) (ret [])
  end.

(** [$] without [re.MULTILINE]: the end of the subject, or just before a
    line feed that ends it. *)
Definition at_end (s : string) : bool :=
  match s with
  | EmptyString => true
  | String c EmptyString => Ascii.eqb c Py.LF
  | _ => false
  end.

(** The first way of matching the whole pattern, as [re.search] on a
    pattern closed by [$] reports it. *)
Definition first_match {A} (m : matcher A) (s : string) : option A :=
  match filter (fun '(_, r) => at_end r) (m s) with
  | (a, _) :: _ => Some a
  | [] => None
  end.

End Re.

Declare Scope re_scope.
Delimit Scope re_scope with re.
Notation "x <- m ;; k" := (Re.bind m (fun x => k))
  (at level 61, m at next level, right associativity) : re_scope.
Notation "m1 ;;; k" := (Re.bind m1 (fun _ => k))
  (at level 61, right associativity) : re_scope.

(** ** [packaging.version]

    The release of the library that still has [LegacyVersion], which
    [parse_tags] tests for: [parse] returns a [Version] when the pattern
    of PEP 440 matches and a [LegacyVersion] otherwise. *)

Module Packaging.

Import Re.
Local Open Scope re_scope.

(** The named groups of [VERSION_PATTERN] that [Version.__init__] reads. *)
Record groups : Type := mkGroups {
  g_epoch : option string;
  g_release : string;
  g_pre_l : option string;
  g_pre_n : option string;
  g_post_n1 : option string;
  g_post_l : option string;
  g_post_n2 : option string;
  g_dev_l : option string;
  g_dev_n : option string;
  g_local : option string
}.

Definition is_sep (c : ascii) : bool :=
  Ascii.eqb c "-" || Ascii.eqb c "_" || Ascii.eqb c ".".

Definition is_alnum (c : ascii) : bool :=
  Py.islower c || Py.isupper c || Py.isdigit c.

(** [[0-9]+] *)
Definition digits : matcher string := plus_class Py.isdigit.

(** [[-_\.]?] *)
Definition sep : matcher (option ascii) := opt (class is_sep).

(** [(?:(?P<epoch>[0-9]+)!)?] *)
Definition p_epoch : matcher (option string) :=
  opt (d <- digits ;; lit "!" ;;; ret d).

Definition dotted (d : string) (l : list string) : string :=
  d ++ Py.cat (map (fun x => "." ++ x) l).

(** The group [release]: [[0-9]+] followed by any number of [\.[0-9]+]. *)
Definition p_release : matcher string :=
  fun s =>
    (d <- digits ;;
     l <- star (String.length s) (lit "." ;;; digits) ;;
     ret (dotted d l)) s.

(** [(?P<pre_l>(a|b|c|rc|alpha|beta|pre|preview))] *)
Definition p_pre_l : matcher string :=
  alt (lit "a") (alt (lit "b") (alt (lit "c") (alt (lit "rc")
    (alt (lit "alpha") (alt (lit "beta") (alt (lit "pre") (lit "preview"))))))).

(** [(?P<pre>[-_\.]?(?P<pre_l>...)[-_\.]?(?P<pre_n>[0-9]+)?)?] *)
Definition p_pre : matcher (option (string * option string)) :=
  opt (sep ;;; l <- p_pre_l ;; sep ;;; n <- opt digits ;; ret (l, n)).

(** [(?P<post_l>post|rev|r)] *)
Definition p_post_l : matcher string :=
  alt (lit "post") (alt (lit "rev") (lit "r")).

(** [(?P<post>(?:-(?P<post_n1>[0-9]+))
             |(?:[-_\.]?(?P<post_l>post|rev|r)[-_\.]?(?P<post_n2>[0-9]+)?))?]:
    the groups [post_n1], [post_l] and [post_n2]. *)
Definition p_post
  : matcher (option (option string * option string * option string)) :=
  opt (alt (lit "-" ;;; n <- digits ;; ret (Some n, None, None))
           (sep ;;; l <- p_post_l ;; sep ;;; n <- opt digits ;;
            ret (None, Some l, n))).

(** [(?P<dev>[-_\.]?(?P<dev_l>dev)[-_\.]?(?P<dev_n>[0-9]+)?)?] *)
Definition p_dev : matcher (option (string * option string)) :=
  opt (sep ;;; l <- lit "dev" ;; sep ;;; n <- opt digits ;; ret (l, n)).

Definition sep_joined (d : string) (l : list (ascii * string)) : string :=
  d ++ Py.cat (map (fun '(c, x) => String c x) l).

(** The optional [\+] and group [local]: [[a-z0-9]+] followed by any
    number of [[-_\.][a-z0-9]+]. *)
Definition p_local : matcher (option string) :=
  fun s =>
    opt (lit "+" ;;;
         d <- plus_class is_alnum ;;
         l <- star (String.length s)
                (c <- class is_sep ;; x <- plus_class is_alnum ;; ret (c, x)) ;;
         ret (sep_joined d l)) s.

(** [VERSION_PATTERN] between [^\s*] and [\s*$], compiled with
    [re.VERBOSE | re.IGNORECASE]: white space, [v?], epoch, release, pre,
    post, dev, local, white space. *)
Definition version_pattern : matcher groups :=
  star_class Py.isspace ;;;
  opt (lit "v") ;;;
  e <- p_epoch ;;
  r <- p_release ;;
  pre <- p_pre ;;
  post <- p_post ;;
  dev <- p_dev ;;
  loc <- p_local ;;
  star_class Py.isspace ;;;
  ret {| g_epoch := e;
         g_release := r;
         g_pre_l := option_map fst pre;
         g_pre_n := match pre with Some (_, n) => n | None => None end;
         g_post_n1 := match post with Some (n1, _, _) => n1 | None => None end;
         g_post_l := match post with Some (_, l, _) => l | None => None end;
         g_post_n2 := match post with Some (_, _, n2) => n2 | None => None end;
         g_dev_l := option_map fst dev;
         g_dev_n := match dev with Some (_, n) => n | None => None end;
         g_local := loc |}.

(** [Version._regex.search] *)
Definition regex_search (s : string) : option groups :=
  first_match version_pattern s.

(** [_parse_letter_version] *)
Definition parse_letter_version (letter number : option string)
  : option (string * N) :=
  match letter with
  | Some l =>
      let n := match number with Some d => Py.int d | None => 0 end in
      let l := Py.lower l in
      let l := if String.eqb l "alpha" then "a"
               else if String.eqb l "beta" then "b"
               else if String.eqb l "c" || String.eqb l "pre"
                       || String.eqb l "preview" then "rc"
               else if String.eqb l "rev" || String.eqb l "r" then "post"
               else l in
      Some (l, n)
  | None =>
      match number with
      | Some d => Some ("post", Py.int d)
      | None => None
      end
  end.

(** [_local_version_separators.split]: cut at every [.], [_] or [-]. *)
Fixpoint split_local (s : string) : list string :=
  match s with
  | EmptyString => [EmptyString]
  | String c r =>
      if is_sep c then EmptyString :: split_local r
      else match split_local r with
           | x :: l => String c x :: l
           | [] => [String c EmptyString]
           end
  end.

Fixpoint all_digits (s : string) : bool :=
  match s with
  | EmptyString => true
  | String c r => Py.isdigit c && all_digits r
  end.

(** [_parse_local_version]: a part of digits becomes an [int], any other
    part is lowered. *)
Definition parse_local_version (loc : option string)
  : option (list (N + string)) :=
  option_map
    (fun l => map (fun part => if all_digits part then inl (Py.int part)
                               else inr (Py.lower part))
                  (split_local l))
    loc.

(** [_Version], the named tuple a [Version] holds. *)
Record Version : Type := mkVersion {
  v_epoch : N;
  v_release : list N;
  v_pre : option (string * N);
  v_post : option (string * N);
  v_dev : option (string * N);
  v_local : option (list (N + string))
}.

(** [Version.__init__]: [None] stands for raising [InvalidVersion]. *)
Definition Version_of_string (s : string) : option Version :=
  match regex_search s with
  | None => None
  | Some g =>
      Some {| v_epoch := match g_epoch g with Some e => Py.int e | None => 0 end;
              v_release := map Py.int (Py.split "." (g_release g));
              v_pre := parse_letter_version (g_pre_l g) (g_pre_n g);
              v_post := parse_letter_version (g_post_l g)
                          (match g_post_n1 g with
                           | Some n => Some n
                           | None => g_post_n2 g
                           end);
              v_dev := parse_letter_version (g_dev_l g) (g_dev_n g);
              v_local := parse_local_version (g_local g) |}
  end.

(** The properties [release], [post] and [dev]. *)
Definition release (v : Version) : list N := v_release v.
Definition post (v : Version) : option N := option_map snd (v_post v).
Definition dev (v : Version) : option N := option_map snd (v_dev v).

(** The property [local]. *)
Definition local (v : Version) : option string :=
  option_map
    (fun l => Py.join "."
                (map (fun x => match x with inl n => Py.str n | inr s => s end) l))
    (v_local v).

(** [Version.__str__] *)
Definition to_str (v : Version) : string :=
  (if v_epoch v =? 0 then "" else Py.str (v_epoch v) ++ "!")
  ++ Py.join "." (map Py.str (release v))
  ++ match v_pre v with Some (l, n) => l ++ Py.str n | None => "" end
  ++ match post v with Some n => ".post" ++ Py.str n | None => "" end
  ++ match dev v with Some n => ".dev" ++ Py.str n | None => "" end
  ++ match local v with Some l => "+" ++ l | None => "" end.

(** *** Ordering

    Python's rich comparisons, as far as sorting needs them: [==] and [<]. *)
Class PyOrd (A : Type) : Type := {
  py_eq : A -> A -> bool;
  py_lt : A -> A -> bool
}.

#[export] Instance PyOrd_int : PyOrd N :=
  {| py_eq := N.eqb; py_lt := N.ltb |}.

#[export] Instance PyOrd_str : PyOrd string :=
  {| py_eq := String.eqb; py_lt := Py.str_ltb |}.

(** Tuples compare at the first position where the items are not [==];
    without such a position the shorter one is the smaller. *)
Fixpoint tuple_eq {A} `{PyOrd A} (a b : list A) : bool :=
  match a, b with
  | [], [] => true
  | x :: a', y :: b' => py_eq x y && tuple_eq a' b'
  | _, _ => false
  end.

Fixpoint tuple_lt {A} `{PyOrd A} (a b : list A) : bool :=
  match a, b with
  | [], [] => false
  | [], _ :: _ => true
  | _ :: _, [] => false
  | x :: a', y :: b' => if py_eq x y then tuple_lt a' b' else py_lt x y
  end.

#[export] Instance PyOrd_tuple {A} `{PyOrd A} : PyOrd (list A) :=
  {| py_eq := tuple_eq; py_lt := tuple_lt |}.

(** A tuple of two items whose types differ; tuples of more items are
    nested to the left, which compares them in the same way. *)
#[export] Instance PyOrd_pair {A B} `{PyOrd A} `{PyOrd B} : PyOrd (A * B) :=
  {| py_eq := fun a b => py_eq (fst a) (fst b) && py_eq (snd a) (snd b);
     py_lt := fun a b => if py_eq (fst a) (fst b)
                         then if py_eq (snd a) (snd b) then false
                              else py_lt (snd a) (snd b)
                         else py_lt (fst a) (fst b) |}.

(** A value or one of [Infinity] and [NegativeInfinity] of
    [packaging._structures]: [Infinity.__lt__] answers [False] and
    [NegativeInfinity.__lt__] answers [True] whatever the other side is; a
    tuple on the left of one of them leaves the answer to the reflected
    [__gt__] of the right side. *)
Inductive ext (A : Type) : Type :=
| NegativeInfinity
| Fin (a : A)
| Infinity.
Arguments NegativeInfinity {A}.
Arguments Fin {A} a.
Arguments Infinity {A}.

#[export] Instance PyOrd_ext {A} `{PyOrd A} : PyOrd (ext A) :=
  {| py_eq := fun a b => match a, b with
                         | NegativeInfinity, NegativeInfinity => true
                         | Infinity, Infinity => true
                         | Fin x, Fin y => py_eq x y
                         | _, _ => false
                         end;
     py_lt := fun a b => match a, b with
                         | NegativeInfinity, _ => true
                         | Infinity, _ => false
                         | Fin _, NegativeInfinity => false
                         | Fin _, Infinity => true
                         | Fin x, Fin y => py_lt x y
                         end |}.

(** [itertools.dropwhile(lambda x: x == 0, ...)] *)
Fixpoint dropwhile_zero (l : list N) : list N :=
  match l with
  | [] => []
  | x :: r => if x =? 0 then dropwhile_zero r else l
  end.

Definition CmpKey : Type :=
  N * list N * ext (string * N) * ext (string * N) * ext (string * N)
  * ext (list (ext N * string)).

(** [_cmpkey] *)
Definition cmpkey (v : Version) : CmpKey :=
  let _release := rev (dropwhile_zero (rev (v_release v))) in
  let _pre :=
    match v_pre v, v_post v, v_dev v with
    | None, None, Some _ => NegativeInfinity
    | None, _, _ => Infinity
    | Some p, _, _ => Fin p
    end in
  let _post :=
    match v_post v with None => NegativeInfinity | Some p => Fin p end in
  let _dev :=
    match v_dev v with None => Infinity | Some p => Fin p end in
  let _local :=
    match v_local v with
    | None => NegativeInfinity
    | Some l =>
        Fin (map (fun i => match i with
                           | inl n => (Fin n, "")
                           | inr s => (NegativeInfinity, s)
                           end) l)
    end in
  (v_epoch v, _release, _pre, _post, _dev, _local).

(** [Version.__eq__] and [Version.__lt__] compare the keys. *)
#[export] Instance PyOrd_Version : PyOrd Version :=
  {| py_eq := fun a b => py_eq (cmpkey a) (cmpkey b);
     py_lt := fun a b => py_lt (cmpkey a) (cmpkey b) |}.

(** What [parse] returns. *)
Inductive parsed : Type :=
| IsVersion (v : Version)
| IsLegacy (s : string).

(** [packaging.version.parse] *)
Definition parse (s : string) : parsed :=
  match Version_of_string s with
  | Some v => IsVersion v
  | None => IsLegacy s
  end.

End Packaging.

(** ** Exceptions

    A call either returns a value or raises. *)

Inductive exn : Type :=
| InvalidVersion
| IndexError
| ValueError
| AssertionError
| UnboundLocalError
| CalledProcessError
| GithubException
| KeyError.

Inductive result (A : Type) : Type :=
| Ok (a : A)
| Raise (e : exn).
Arguments Ok {A} a.
Arguments Raise {A} e.

Definition is_ok {A} (r : result A) : bool :=
  match r with Ok _ => true | Raise _ => false end.

(** ** The tags of a repository: [parse_tags] *)

Import Packaging.

(** [list.sort()] is stable and only asks [<]: every item is put behind
    the items before it that are not greater. *)
Fixpoint insort {A} `{PyOrd A} (x : A) (l : list A) : list A :=
  match l with
  | [] => [x]
  | y :: r => if py_lt x y then x :: l else y :: insort x r
  end.

Definition sort {A} `{PyOrd A} (l : list A) : list A :=
  fold_left (fun acc x => insort x acc) l [].

(** The text handed to [version.parse] for the line [t]: note that the
    leading [v] is cut from [t], not from the stripped line. *)
Definition tag_text (t : string) : string :=
  let nt := Py.strip t in
  let nt := if Py.startswith nt "v" then Py.drop1 t else nt in
  match Py.find nt "-g" with
  | Some dashg => Py.take dashg nt
  | None => nt
  end.

(** An ignored tag: the line and the [LegacyVersion] (here its text) it
    parsed to, or [None] after [InvalidVersion]. *)
Definition ignored_tag : Type := string * option string.

(** The loop of [parse_tags] over the lines of [d]. *)
Fixpoint parse_lines (lines : list string)
  (tags : list (Version * string)) (itags : list ignored_tag)
  : list (Version * string) * list ignored_tag :=
  match lines with
  | [] => (tags, itags)
  | t :: rest =>
      match parse (tag_text t) with
      | IsLegacy v => parse_lines rest tags (itags ++ [(t, Some v)])%list
      | IsVersion v => parse_lines rest (tags ++ [(v, t)])%list itags
      end
  end.

(** [parse_tags(d, ignored=True)] *)
Definition parse_tags_ignored (d : string)
  : list (Version * string) * list ignored_tag :=
  let '(tags, itags) := parse_lines (Py.splitlines d) [] [] in
  (sort tags, itags).

(** [parse_tags(d)] *)
Definition parse_tags (d : string) : list (Version * string) :=
  fst (parse_tags_ignored d).

(** ** [version_tuple] and [version_join] *)

(** [version_tuple]: an item is an [int] or [None]. *)
Definition version_tuple (vdesc : Version) : list (option N) :=
  (map Some (release vdesc) ++ [post vdesc])%list.

(** [while len(x) < len(y): x.append(0)] *)
Definition pad_to (x y : list (option N)) : list (option N) :=
  (x ++ repeat (Some 0) (List.length y - List.length x))%list.

(** The loop over [zip(vta, vtb)] that fills [vo]. *)
Fixpoint join_sums (vta vtb : list (option N)) : list string :=
  match vta, vtb with
  | a :: ra, b :: rb =>
      match a, b with
      | None, None => join_sums ra rb
      | _, _ =>
          let a := match a with Some n => n | None => 0 end in
          let b := match b with Some n => n | None => 0 end in
          Py.str (a + b) :: join_sums ra rb
      end
  | _, _ => []
  end.

(** The text that [version_join] hands to [version.Version]; [vo[0]]
    raises when [vo] is empty. *)
Definition version_join_text (vdesc_a vdesc_b : Version) : result string :=
  let vta := rev (version_tuple vdesc_a) in
  let vtb := rev (version_tuple vdesc_b) in
  let vta := pad_to vta vtb in
  let vtb := pad_to vtb vta in
  if negb (Nat.eqb (List.length vta) (List.length vtb)) then Raise AssertionError
  else
    match join_sums vta vtb with
    | [] => Raise IndexError
    | vo0 :: vo1 => Ok (Py.join "." (rev vo1) ++ ".post" ++ vo0)
    end.

Definition version_join (vdesc_a vdesc_b : Version) : result Version :=
  match version_join_text vdesc_a vdesc_b with
  | Raise e => Raise e
  | Ok s =>
      match Version_of_string s with
      | Some v => Ok v
      | None => Raise InvalidVersion
      end
  end.

(** ** The version-control collaborator

    What [update.py] asks of [git] through [subprocess], on a mirror that
    has been cloned or fetched: the tags with the objects they name, the
    commits that [git log] walks, the answers of [git rev-parse] for the
    other refs and of [git describe], which depends on the tags present,
    the object that [git tag -a] makes for a name, a message and a target,
    and whether [git tag --delete] succeeds on an argument that it reads as
    an option.
    Every call is recorded; a command that exits with a failure makes
    [check_call] and [check_output] raise [CalledProcessError]. *)

Module Git.

Record repo : Type := mkRepo {
  r_tags : list (string * string);
  r_log : list (string * string);
  r_refs : string -> option string;
  r_describe : list string -> string -> option string;
  r_show : string -> string;
  r_tag_object : string -> string -> string -> string;
  r_option : string -> bool
}.

Inductive call : Type :=
| TagList
| RevParse (ref : string)
| LogReverse
| TagAnnotate (name message target : string)
| TagDelete (name : string)
| Describe (ref : string)
| LogOne (hash : string).

Record state : Type := mkState {
  st_repo : repo;
  st_calls : list call
}.

(** A computation that calls [git]: it may raise, and the state it
    leaves holds the calls made up to there. *)
Definition M (A : Type) : Type := state -> result A * state.

Definition ret {A} (a : A) : M A := fun s => (Ok a, s).

Definition raise {A} (e : exn) : M A := fun s => (Raise e, s).

Definition bind {A B} (m : M A) (k : A -> M B) : M B :=
  fun s => match m s with
           | (Ok a, s') => k a s'
           | (Raise e, s') => (Raise e, s')
           end.

Definition record (c : call) : M unit :=
  fun s => (Ok tt, {| st_repo := st_repo s;
                      st_calls := (st_calls s ++ [c])%list |}).

Definition get_repo : M repo := fun s => (Ok (st_repo s), s).

Definition with_tags (r : repo) (tags : list (string * string)) : repo :=
  {| r_tags := tags;
     r_log := r_log r;
     r_refs := r_refs r;
     r_describe := r_describe r;
     r_show := r_show r;
     r_tag_object := r_tag_object r;
     r_option := r_option r |}.

Definition set_tags (tags : list (string * string)) : M unit :=
  fun s => (Ok tt, {| st_repo := with_tags (st_repo s) tags;
                      st_calls := st_calls s |}).

Definition nl : string := Py.nl.

Definition tag_names (r : repo) : list string := map fst (r_tags r).

Definition has_tag (r : repo) (name : string) : bool :=
  existsb (String.eqb name) (tag_names r).

Definition lookup_tag (r : repo) (name : string) : option string :=
  option_map snd (List.find (fun p => String.eqb name (fst p)) (r_tags r)).

(** The lines that [git log --reverse --pretty=%H %s] prints: hash, blank,
    subject, for the oldest commit first. *)
Definition log_lines (r : repo) : list string :=
  map (fun c => fst c ++ " " ++ snd c ++ nl) (r_log r).

End Git.

Declare Scope git_scope.
Delimit Scope git_scope with git.
Notation "x <- m ;; k" := (Git.bind m (fun x => k))
  (at level 61, m at next level, right associativity) : git_scope.
Notation "m1 ;;; k" := (Git.bind m1 (fun _ => k))
  (at level 61, right associativity) : git_scope.

Module GitCalls.

Import Git.
Local Open Scope git_scope.

(** [git tag --list]: one name on each line. *)
Definition tag_list : M string :=
  record TagList ;;;
  r <- get_repo ;;
  ret (Py.unlines (tag_names r)).

(** [git rev-parse ref]: a tag first, then any other ref. *)
Definition rev_parse (ref : string) : M string :=
  record (RevParse ref) ;;;
  r <- get_repo ;;
  match lookup_tag r ref with
  | Some h => ret (h ++ nl)
  | None =>
      match r_refs r ref with
      | Some h => ret (h ++ nl)
      | None => raise CalledProcessError
      end
  end.

(** [git log --reverse --pretty=%H %s] read through a pipe: the lines of
    the oldest commit first; a failure leaves no line and does not raise. *)
Definition log_reverse : M (list string) :=
  record LogReverse ;;;
  r <- get_repo ;;
  ret (log_lines r).

(** [git tag -a -m message name target]: the name then stands for the
    tag object, which is what [git rev-parse name] prints. *)
Definition tag_annotate (name message target : string) : M unit :=
  record (TagAnnotate name message target) ;;;
  r <- get_repo ;;
  if has_tag r name then raise CalledProcessError
  else set_tags
         (r_tags r ++ [(name, r_tag_object r name message target)])%list.

(** An argument that [git] reads as an option and not as a name: a dash
    and at least one more code point. *)
Definition option_like (arg : string) : bool :=
  match arg with
  | String "-" (String _ _) => true
  | _ => false
  end.

(** [git tag --delete name]: a name that is read as an option deletes no
    tag, and [git] fails on it or not. *)
Definition tag_delete (name : string) : M unit :=
  record (TagDelete name) ;;;
  r <- get_repo ;;
  if option_like name then
    if r_option r name then ret tt else raise CalledProcessError
  else if has_tag r name
  then set_tags (filter (fun p => negb (String.eqb name (fst p))) (r_tags r))
  else raise CalledProcessError.

(** [git describe --long --tags ref --match v* --match *.* --exclude *-r*] *)
Definition describe (ref : string) : M string :=
  record (Describe ref) ;;;
  r <- get_repo ;;
  match r_describe r (tag_names r) ref with
  | Some d => ret (d ++ nl)
  | None => raise CalledProcessError
  end.

(** [git log -1 hash] *)
Definition log_one (hash : string) : M string :=
  record (LogOne hash) ;;;
  r <- get_repo ;;
  ret (r_show r hash).

End GitCalls.

(** ** Reading the tags and the description: [get_hash], [get_tags],
    [git_describe] and [get_src] *)

Import Git.
Local Open Scope git_scope.

Definition lift {A} (r : result A) : M A :=
  match r with Ok a => ret a | Raise e => raise e end.

(** [get_hash] *)
Definition get_hash (ref : string) : M string :=
  out <- GitCalls.rev_parse ref ;;
  ret (Py.strip out).

(** An [OrderedDict] from tag to version and hash: a key that is set
    again keeps its place. *)
Definition TagSet : Type := list (string * (Version * string)).

Fixpoint od_set (tags : TagSet) (t : string) (x : Version * string) : TagSet :=
  match tags with
  | [] => [(t, x)]
  | (k, y) :: r => if String.eqb k t then (k, x) :: r
                   else (k, y) :: od_set r t x
  end.

Definition od_in (t : string) (tags : TagSet) : bool :=
  existsb (fun p => String.eqb (fst p) t) tags.

(** The loop of [get_tags] over the parsed tags. *)
Fixpoint get_tags_loop (pt : list (Version * string)) (tags : TagSet)
  : M TagSet :=
  match pt with
  | [] => ret tags
  | (v, t) :: rest =>
      h <- get_hash t ;;
      get_tags_loop rest (od_set tags t (v, h))
  end.

(** [get_tags] *)
Definition get_tags : M (TagSet * list ignored_tag) :=
  d <- GitCalls.tag_list ;;
  let '(pt, ignored) := parse_tags_ignored d in
  tags <- get_tags_loop pt [] ;;
  ret (tags, ignored).

(** [git_describe]: the description and what it parses to. *)
Definition git_describe (ref : string) : M (string * parsed) :=
  out <- GitCalls.describe ref ;;
  let d := Py.strip out in
  let o := if Py.startswith d "v" then Py.drop1 d else d in
  match Py.rsplit2 "-" o with
  | [t; c; h] => ret (d, parse (t ++ "-" ++ c))
  | _ => raise ValueError
  end.

(** The loop of [get_src] over the lines of the log: [l] is what the
    variable of that name holds when the loop is left, [None] when it was
    never bound. *)
Fixpoint first_log_line (lines : list string) (l : option string)
  : option string :=
  match lines with
  | [] => l
  | x :: rest =>
      let l := Py.strip x in
      match l with
      | EmptyString => first_log_line rest (Some l)
      | _ => Some l
      end
  end.

Definition dummy_message : string :=
  "Dummy version on first commit so git-describe works".

(** [first_hash, desc = l.split(" ", 1)] after the loop over the lines:
    [l] is unbound when there was no line, and the unpacking fails unless
    the cut gives two pieces. *)
Definition first_hash_of (lines : list string) : result string :=
  match first_log_line lines None with
  | None => Raise UnboundLocalError
  | Some l =>
      match Py.split1 " " l with
      | [first_hash; desc] => Ok first_hash
      | _ => Raise ValueError
      end
  end.

(** The branch of [get_src] that adds the default tag. *)
Definition add_default_tag : M (TagSet * list ignored_tag) :=
  lines <- GitCalls.log_reverse ;;
  first_hash <- lift (first_hash_of lines) ;;
  GitCalls.tag_annotate "v0.0" dummy_message first_hash ;;;
  get_tags.

(** The loop of [get_src] that deletes the ignored tags. *)
Fixpoint delete_ignored (ignored : list ignored_tag) : M unit :=
  match ignored with
  | [] => ret tt
  | (t, v) :: rest => GitCalls.tag_delete t ;;; delete_ignored rest
  end.

(** The first part of [get_src], up to the deletion of the ignored tags:
    the tags and the ignored tags that it prints. *)
Definition reconcile_tags : M (TagSet * list ignored_tag) :=
  ti <- get_tags ;;
  ti <- (if negb (od_in "v0.0" (fst ti)) then add_default_tag else ret ti) ;;
  delete_ignored (snd ti) ;;;
  ret ti.

(** What [get_src] stores in [module_data]. *)
Record src_data : Type := mkSrcData {
  data_git_describe : string;
  data_git_hash : string;
  data_version_tuple : list (option N);
  data_version : string;
  git_msg : string
}.

(** [version_tuple] on what [parse] returned: the assertion fails on a
    [LegacyVersion]. *)
Definition version_tuple_checked (vdesc : parsed) : result (list (option N)) :=
  match vdesc with
  | IsVersion v => Ok (version_tuple v)
  | IsLegacy _ => Raise AssertionError
  end.

(** [str(vdesc)] *)
Definition parsed_str (vdesc : parsed) : string :=
  match vdesc with
  | IsVersion v => to_str v
  | IsLegacy s => s
  end.

(** [get_src], on the mirror that has been cloned or fetched, for the
    branch of the module. *)
Definition get_src (branch : string)
  : M (TagSet * list ignored_tag * src_data) :=
  ti <- reconcile_tags ;;
  git_hash <- get_hash branch ;;
  msg <- GitCalls.log_one git_hash ;;
  dv <- git_describe branch ;;
  vt <- lift (version_tuple_checked (snd dv)) ;;
  ret (ti, {| data_git_describe := fst dv;
              data_git_hash := git_hash;
              data_version_tuple := vt;
              data_version := parsed_str (snd dv);
              git_msg := msg |}).

(** ** The module loop of [main] *)

(** One section of [modules.ini] with what the collaborators outside the
    versioning core answer for it: the mirror of its source when it has the
    key [src], the hand-provided description and hash otherwise, the
    outcomes of [github_repo], [download], [update] and [push], and the
    texts of the keys [type] and [contents] when the section has them. *)
Record module_cfg : Type := mkModule {
  m_name : string;
  m_branch : string;
  m_src : option repo;
  m_git_describe : option string;
  m_git_hash : option string;
  m_github_repo : result bool;
  m_download : result unit;
  m_update : result unit;
  m_push : result unit;
  m_type : option string;
  m_contents : option string
}.

(** What [main] prints and does, module by module. *)
Inductive event : Type :=
| StartModule (name : string)
| GitCalls (name : string) (calls : list call)
| Resolved (name version : string) (version_tuple : list (option N))
| NoGithubRepo (name : string)
| Updated (name : string)
| EndModule (name : string)
| Pushed (name : string).

(** A step of [main]: the events so far and a value or an exception. *)
Definition Main (A : Type) : Type := list event * result A.

Definition mret {A} (a : A) : Main A := ([], Ok a).

Definition mbind {A B} (m : Main A) (k : A -> Main B) : Main B :=
  match m with
  | (ev, Ok a) => let '(ev', r) := k a in ((ev ++ ev')%list, r)
  | (ev, Raise e) => (ev, Raise e)
  end.

Definition emit (e : event) : Main unit := ([e], Ok tt).

Definition mlift {A} (r : result A) : Main A := ([], r).

Definition assert (b : bool) : Main unit :=
  if b then mret tt else mlift (Raise AssertionError).

Declare Scope main_scope.
Delimit Scope main_scope with main.
Notation "x <- m ;; k" := (mbind m (fun x => k))
  (at level 61, m at next level, right associativity) : main_scope.
Notation "m1 ;;; k" := (mbind m1 (fun _ => k))
  (at level 61, right associativity) : main_scope.

Local Close Scope git_scope.
Local Open Scope main_scope.

(** The data version of a module: through [get_src] when the section
    has [src], from the hand-provided description otherwise. *)
Definition data_version_of (m : module_cfg) : Main string :=
  match m_src m with
  | Some r =>
      let '(res, st) := get_src (m_branch m) (mkState r []) in
      emit (GitCalls (m_name m) (st_calls st)) ;;;
      d <- mlift res ;;
      mret (data_version (snd d))
  | None =>
      assert (match m_git_describe m with Some _ => true | None => false end) ;;;
      assert (match m_git_hash m with Some _ => true | None => false end) ;;;
      let versions :=
        parse_tags (match m_git_describe m with Some d => d | None => "" end) in
      assert (Nat.eqb (List.length versions) 1) ;;;
      match versions with
      | (vdesc, t) :: _ => mret (to_str vdesc)
      | [] => mlift (Raise IndexError)
      end
  end.

(** [m[key]] for a key that the section has or lacks. *)
Definition section_key (value : option string) : result string :=
  match value with
  | Some v => Ok v
  | None => Raise KeyError
  end.

(** The body of the first loop of [main] for one module.  The
    assignments to the section come first: they read [type] for the name of
    the repository and [contents] for the directory of the data, and raise
    [KeyError] without them. *)
Definition process_module (tool_version_vdesc : Version) (m : module_cfg)
  : Main unit :=
  emit (StartModule (m_name m)) ;;;
  mlift (section_key (m_type m)) ;;;
  mlift (section_key (m_type m)) ;;;
  mlift (section_key (m_contents m)) ;;;
  dv <- data_version_of m ;;
  data <- mlift (match Version_of_string dv with
                 | Some v => Ok v
                 | None => Raise InvalidVersion
                 end) ;;
  module_version <- mlift (version_join tool_version_vdesc data) ;;
  emit (Resolved (m_name m) (to_str module_version)
          (version_tuple module_version)) ;;;
  found <- mlift (m_github_repo m) ;;
  if negb found then emit (NoGithubRepo (m_name m))
  else
    mlift (m_download m) ;;;
    mlift (m_update m) ;;;
    emit (Updated (m_name m)) ;;;
    emit (EndModule (m_name m)).

(** [if argv and module not in argv: continue] *)
Definition selected (argv : list string) (m : module_cfg) : bool :=
  match argv with
  | [] => true
  | _ => existsb (String.eqb (m_name m)) argv
  end.

(** The first loop of [main]. *)
Fixpoint update_modules (tool_version_vdesc : Version) (argv : list string)
  (modules : list module_cfg) : Main unit :=
  match modules with
  | [] => mret tt
  | m :: rest =>
      (if selected argv m then process_module tool_version_vdesc m
       else mret tt) ;;;
      update_modules tool_version_vdesc argv rest
  end.

(** The second loop of [main], under [--push]. *)
Fixpoint push_modules (argv : list string) (modules : list module_cfg)
  : Main unit :=
  match modules with
  | [] => mret tt
  | m :: rest =>
      (if selected argv m then
         emit (StartModule (m_name m)) ;;;
         mlift (m_github_repo m) ;;;
         mlift (m_push m) ;;;
         emit (Pushed (m_name m)) ;;;
         emit (EndModule (m_name m))
       else mret tt) ;;;
      push_modules argv rest
  end.

(** [list.remove(x)]: the first occurrence goes. *)
Fixpoint list_remove (x : string) (l : list string) : list string :=
  match l with
  | [] => []
  | y :: r => if String.eqb y x then r else y :: list_remove x r
  end.

(** [argv] after [if should_push: argv.remove("--push")]. *)
Definition without_push (argv : list string) : list string :=
  if existsb (String.eqb "--push") argv then list_remove "--push" argv
  else argv.

(** [main]: [tool] is the repository of the tool itself, [token] says
    whether [GH_TOKEN] is set, [modules] are the sections of [modules.ini]
    in the order of the file. *)
Definition main (argv : list string) (tool : repo) (token : bool)
  (modules : list module_cfg) : Main N :=
  let should_push := existsb (String.eqb "--push") argv in
  let argv := without_push argv in
  let '(described, _) := git_describe "HEAD" (mkState tool []) in
  d <- mlift described ;;
  mlift (version_tuple_checked (snd d)) ;;;
  match snd d with
  | IsLegacy _ => mlift (Raise AssertionError)
  | IsVersion tool_version_vdesc =>
      update_modules tool_version_vdesc argv modules ;;;
      (if should_push then
         assert token ;;;
         push_modules argv modules
       else mret tt) ;;;
      mret 0
  end.

(** ** The hosting service and the licences: [github_repo_config],
    [github_repo] and [get_license] *)

Module Host.

(** The exceptions of this part of the script. *)
Inductive error : Type :=
| KeyError (key : string)
| UnknownObjectException
| OtherGithubException
| URLError
| AssertionFailed
| UnboundLocal (name : string)
| NotABoolean (text : string)
| CalledProcess
| OSError.

Inductive outcome (A : Type) : Type :=
| Returns (a : A)
| Raises (e : error).
Arguments Returns {A} a.
Arguments Raises {A} e.

(** A section of [modules.ini]: its keys with their texts. *)
Definition module_data : Type := list (string * string).

(** [key in module_data] and [module_data[key]] *)
Fixpoint lookup (md : module_data) (key : string) : option string :=
  match md with
  | [] => None
  | (k, v) :: rest => if String.eqb k key then Some v else lookup rest key
  end.

Definition getitem (md : module_data) (key : string) : outcome string :=
  match lookup md key with
  | Some v => Returns v
  | None => Raises (KeyError key)
  end.

(** The dictionary that [github_repo_config] builds. *)
Record repo_config : Type := mkConfig {
  has_issues : bool;
  has_wiki : bool;
  has_downloads : bool;
  has_projects : bool;
  description : string;
  homepage : option string
}.

(** [github_repo_config]: [str.format] raises [KeyError] at the first
    field of the text that the section lacks. *)
Definition github_repo_config (md : module_data) : outcome repo_config :=
  match getitem md "contents" with
  | Raises e => Raises e
  | Returns contents =>
  match getitem md "name" with
  | Raises e => Raises e
  | Returns name =>
  match getitem md "type" with
  | Raises e => Raises e
  | Returns type =>
      let text := Py.nl ++ "Python module containing " ++ contents
                  ++ " files for " ++ name ++ " " ++ type
                  ++ " (for use with LiteX)." ++ Py.nl in
      let homepage := match lookup md "src" with
                      | Some src => Some src
                      | None => None
                      end in
      let homepage := match lookup md "gen_src" with
                      | Some gen_src => Some gen_src
                      | None => homepage
                      end in
      Returns {| has_issues := false;
                 has_wiki := false;
                 has_downloads := false;
                 has_projects := false;
                 description := Py.strip text;
                 homepage := homepage |}
  end end end.

(** What the hosting service answers: the repository, the exception
    [UnknownObjectException], or another exception. *)
Inductive answer : Type :=
| Found
| Unknown
| Failed.

(** The client [g]: whether it was made with a token, and what
    [g.get_repo] and [repo.edit] answer for a slug. *)
Record github : Type := mkGithub {
  g_token : bool;
  g_get_repo : string -> answer;
  g_edit : string -> repo_config -> answer
}.

Inductive request : Type :=
| GetRepo (slug : string)
| Edit (slug : string) (config : repo_config).

(** How a round of a loop ends: with [return], with an exception, or at
    the end of its body, from where the test of the loop is made again. *)
Inductive round (A : Type) : Type :=
| Return (a : A)
| Raised (e : error)
| Next.
Arguments Return {A} a.
Arguments Raised {A} e.
Arguments Next {A}.

(** The body of the loop of [github_repo], after [attempts += 1]. *)
Definition github_repo_attempt (g : github) (md : module_data)
  : list request * round bool :=
  match getitem md "repo" with
  | Raises e => ([], Raised e)
  | Returns repo =>
      let slug := "litex-hub/" ++ repo in
      match g_get_repo g slug with
      | Unknown => ([GetRepo slug], Return true)
      | Failed => ([GetRepo slug], Raised OtherGithubException)
      | Found =>
          if g_token g then
            match github_repo_config md with
            | Raises e => ([GetRepo slug], Raised e)
            | Returns config =>
                match g_edit g slug config with
                | Found => ([GetRepo slug; Edit slug config], Return true)
                | Unknown => ([GetRepo slug; Edit slug config], Return true)
                | Failed => ([GetRepo slug; Edit slug config],
                             Raised OtherGithubException)
                end
            end
          else ([GetRepo slug], Return true)
      end
  end.

(** [while attempts < max_attempts] from [attempts = 0], by the rounds
    that are left: a round that comes to the end of the body is followed by
    the next one, and [None] is what the function returns when the test
    fails. *)
Fixpoint github_repo_upto (max_attempts : nat) (g : github)
  (md : module_data) : list request * outcome (option bool) :=
  match max_attempts with
  | O => ([], Returns None)
  | S rest =>
      match github_repo_attempt g md with
      | (reqs, Return b) => (reqs, Returns (Some b))
      | (reqs, Raised e) => (reqs, Raises e)
      | (reqs, Next) =>
          let (reqs', r) := github_repo_upto rest g md in
          ((reqs ++ reqs')%list, r)
      end
  end.

Definition MAX_ATTEMPTS : nat := 3.

Definition github_repo (g : github) (md : module_data)
  : list request * outcome (option bool) :=
  github_repo_upto MAX_ATTEMPTS g md.

(** [not x] for what [github_repo] returns. *)
Definition falsy (x : option bool) : bool :=
  match x with
  | Some true => false
  | _ => true
  end.

(** The web: [urlopen(url)] raises or gives a response with a reason
    and a body, here the text that the body decodes to. *)
Definition web : Type := string -> option (string * string).

Definition license_url (spdx : string) : string :=
  "https://raw.githubusercontent.com/spdx/license-list-data/master/text/"
  ++ spdx ++ ".txt".

(** [dict[key] = value] *)
Fixpoint setitem (d : list (string * string)) (key value : string)
  : list (string * string) :=
  match d with
  | [] => [(key, value)]
  | (k, v) :: rest => if String.eqb k key then (k, value) :: rest
                      else (k, v) :: setitem rest key value
  end.

(** [get_license] on the cache [_license_data]: the URLs it opened, the
    cache it leaves, and the text or the exception. *)
Definition get_license (w : web) (cache : list (string * string))
  (md : module_data)
  : list string * list (string * string) * outcome string :=
  match getitem md "license_spdx" with
  | Raises e => ([], cache, Raises e)
  | Returns spdx =>
      match lookup cache spdx with
      | Some text => ([], cache, Returns text)
      | None =>
          let url := license_url spdx in
          match w url with
          | None => ([url], cache, Raises URLError)
          | Some (reason, body) =>
              if String.eqb reason "OK" then
                let cache := setitem cache spdx body in
                ([url], cache, getitem cache spdx)
              else ([url], cache, Raises AssertionFailed)
          end
      end
  end.

End Host.

(** ** Paths

    [os_path_split_all] with the two functions of [posixpath] it calls,
    on [str] paths. *)

Module Posixpath.

Definition sep : ascii := "/"%char.

(** [s[n:]] for [n >= 0] *)
Fixpoint skip (n : nat) (s : string) : string :=
  match n, s with
  | S k, String _ r => skip k r
  | _, _ => s
  end.

(** [s.rfind(sep)]: [None] stands for the result [-1]. *)
Fixpoint rfind (s : string) : option nat :=
  match s with
  | EmptyString => None
  | String c r =>
      match rfind r with
      | Some k => Some (S k)
      | None => if Ascii.eqb c sep then Some O else None
      end
  end.

(** [s == sep*len(s)] *)
Fixpoint all_sep (s : string) : bool :=
  match s with
  | EmptyString => true
  | String c r => Ascii.eqb c sep && all_sep r
  end.

(** [s.rstrip(sep)] *)
Fixpoint rstrip_sep (s : string) : string :=
  match s with
  | EmptyString => EmptyString
  | String c r =>
      match rstrip_sep r with
      | EmptyString => if Ascii.eqb c sep then EmptyString
                       else String c EmptyString
      | r' => String c r'
      end
  end.

(** [posixpath.split]: the head, without the slashes at its end unless it
    is made of slashes, and the tail after the last slash. *)
Definition split (p : string) : string * string :=
  let i := match rfind p with Some k => S k | None => O end in
  let head := Py.take i p in
  let tail := skip i p in
  let head := if negb (String.eqb head "") && negb (all_sep head)
              then rstrip_sep head else head in
  (head, tail).

(** The number [initial_slashes] of [posixpath.normpath]: two slashes at
    the start are kept, three or more count as one. *)
Definition initial_slashes (path : string) : nat :=
  if Py.startswith path "/" then
    if Py.startswith path "//" && negb (Py.startswith path "///")
    then 2 else 1
  else 0.

(** [new_comps[-1] == dotdot], false on the empty list. *)
Definition last_is_dotdot (new_comps : list string) : bool :=
  match new_comps with
  | [] => false
  | _ => String.eqb (last new_comps "") ".."
  end.

Definition is_nil {A : Type} (l : list A) : bool :=
  match l with [] => true | _ => false end.

(** One round of the loop of [normpath] over the components. *)
Definition norm_step (initial : nat) (new_comps : list string)
  (comp : string) : list string :=
  if String.eqb comp "" || String.eqb comp "." then new_comps
  else if negb (String.eqb comp "..")
          || (Nat.eqb initial 0 && is_nil new_comps)
          || last_is_dotdot new_comps
       then (new_comps ++ [comp])%list
       else removelast new_comps.

(** The components that [normpath] keeps. *)
Definition norm_comps (path : string) : list string :=
  fold_left (norm_step (initial_slashes path)) (Py.split sep path) [].

Fixpoint slashes (n : nat) : string :=
  match n with
  | O => EmptyString
  | S k => String sep (slashes k)
  end.

(** [posixpath.normpath] *)
Definition normpath (path : string) : string :=
  if String.eqb path "" then "."
  else
    let p := Py.join "/" (norm_comps path) in
    let p := match initial_slashes path with
             | O => p
             | n => slashes n ++ p
             end in
    if String.eqb p "" then "." else p.

End Posixpath.

(** The loop of [os_path_split_all], with [fuel] rounds at most: [None]
    when the loop has not ended by then. *)
Fixpoint split_all_loop (fuel : nat) (a : string) (bits : list string)
  : option (list string) :=
  if String.eqb a "" || String.eqb a "/" then Some bits
  else match fuel with
       | O => None
       | S k => let (a', b) := Posixpath.split a in
                split_all_loop k a' (b :: bits)
       end.

Definition os_path_split_all (fuel : nat) (x : string)
  : option (list string) :=
  split_all_loop fuel (Posixpath.normpath x) [].

(** ** The data of a module

    The block of [update] under [# Run the git subtree command], over the
    system it runs on: the file system and the processes it starts. *)

Module Update.

Import Host.

(** [s.endswith(p)] *)
Definition endswith (s p : string) : bool :=
  String.prefix (Py.reverse p) (Py.reverse s).

(** [os.path.join(a, b)] of [posixpath] *)
Definition path_join (a b : string) : string :=
  if Py.startswith b "/" then b
  else if String.eqb a "" || endswith a "/" then a ++ b
  else a ++ "/" ++ b.

(** [module_data.getboolean(key)] of [configparser]: [None] for a key
    that the section lacks, [ValueError] for a text that is not one of the
    eight words, in any case of letters. *)
Definition getboolean (md : module_data) (key : string)
  : outcome (option bool) :=
  match lookup md key with
  | None => Returns None
  | Some v =>
      let l := Py.lower v in
      if existsb (String.eqb l) ["1"; "yes"; "true"; "on"]
      then Returns (Some true)
      else if existsb (String.eqb l) ["0"; "no"; "false"; "off"]
      then Returns (Some false)
      else Raises (NotABoolean v)
  end.

Definition truthy (x : option bool) : bool :=
  match x with
  | Some true => true
  | _ => false
  end.

(** [s.replace(old, new)] for [old] not empty: [n] code points of an
    occurrence are still to be skipped. *)
Fixpoint replace_from (old new : string) (n : nat) (s : string) : string :=
  match s with
  | EmptyString => EmptyString
  | String c r =>
      match n with
      | S k => replace_from old new k r
      | O => if String.prefix old s
             then new ++ replace_from old new (String.length old - 1) r
             else String c (replace_from old new O r)
      end
  end.

Definition replace (s old new : string) : string :=
  replace_from old new O s.

Definition dq : string := String (ascii_of_nat 34) EmptyString.

Definition tool_line (tool_version : string) : string :=
  "Updated using " ++ tool_version
  ++ " from https://github.com/litex-hub/litex-data-auto" ++ Py.nl.

(** [s.split()] without argument: the words between runs of white
    space; [acc] is the word read so far. *)
Fixpoint words_from (acc s : string) : list string :=
  match s with
  | EmptyString => match acc with EmptyString => [] | _ => [acc] end
  | String c r =>
      if Py.isspace c then
        match acc with
        | EmptyString => words_from EmptyString r
        | _ => acc :: words_from EmptyString r
        end
      else words_from (acc ++ String c EmptyString) r
  end.

Definition words (s : string) : list string := words_from EmptyString s.

(** The quoted line of the loop over [git_msg]. *)
Definition quote_line (l : string) : string :=
  if String.eqb l "" then ">" else "> " ++ l.

(** The text that [update] writes to the file of the commit message, and
    the section with [git_rmsg] set when there is a [git_msg]: the first
    text is written only then. *)
Definition commit_message (md : module_data)
  : module_data * outcome string :=
  let '(md, head) :=
    match lookup md "git_msg" with
    | None => (md, Returns EmptyString)
    | Some git_msg =>
        let git_msg_out :=
          Py.join Py.nl (map quote_line (Py.split Py.LF git_msg)) in
        let md := setitem md "git_rmsg" git_msg_out in
        (md,
         match getitem md "repo" with
         | Raises e => Raises e
         | Returns repo =>
         match getitem md "version" with
         | Raises e => Raises e
         | Returns version =>
         match getitem md "data_git_describe" with
         | Raises e => Raises e
         | Returns data_git_describe =>
         match getitem md "data_git_hash" with
         | Raises e => Raises e
         | Returns data_git_hash =>
         match getitem md "src" with
         | Raises e => Raises e
         | Returns src =>
         match getitem md "git_rmsg" with
         | Raises e => Raises e
         | Returns git_rmsg =>
             Returns ("Updating " ++ repo ++ " to " ++ version ++ Py.nl
                      ++ Py.nl
                      ++ "Updated data to " ++ data_git_describe
                      ++ " based on " ++ data_git_hash ++ " from " ++ src
                      ++ "." ++ Py.nl
                      ++ git_rmsg ++ Py.nl)
         end end end end end end)
    end in
  match head with
  | Raises e => (md, Raises e)
  | Returns head =>
      match getitem md "tool_version" with
      | Raises e => (md, Raises e)
      | Returns tool_version =>
          (md, Returns (head ++ Py.nl ++ tool_line tool_version))
      end
  end.

(** What the block does to the system, in order. *)
Inductive proc : Type :=
| CheckCall (argv : list string) (cwd : string)
| CheckOutput (argv : list string) (cwd : string)
| Commit (message : string) (cwd : string)
| WriteFile (path text : string).

Section System.

(** The states of the system. *)
Variable W : Type.

(** [os.path.exists]; [open(path).read()], [None] for
    [FileNotFoundError]; [open(path, "w").write(text)],
    [subprocess.check_call] and [subprocess.check_output] with whether
    they succeeded; a temporary file with the message and
    [git commit -F] on it. *)
Record system : Type := mkSystem {
  sys_exists : W -> string -> bool;
  sys_read : W -> string -> option string;
  sys_write : W -> string -> string -> W * bool;
  sys_check_call : W -> list string -> string -> W * bool;
  sys_check_output : W -> list string -> string -> W * option string;
  sys_commit : W -> string -> string -> W * bool
}.

Variable sys : system.

Definition M (A : Type) : Type := W * list proc -> (W * list proc) * outcome A.

Definition ret {A : Type} (a : A) : M A := fun st => (st, Returns a).

Definition raise {A : Type} (e : error) : M A := fun st => (st, Raises e).

Definition bind {A B : Type} (m : M A) (k : A -> M B) : M B :=
  fun st => match m st with
            | (st', Returns a) => k a st'
            | (st', Raises e) => (st', Raises e)
            end.

Definition lift {A : Type} (x : outcome A) : M A := fun st => (st, x).

Definition path_exists (path : string) : M bool :=
  fun st => (st, Returns (sys_exists sys (fst st) path)).

Definition read (path : string) : M (option string) :=
  fun st => (st, Returns (sys_read sys (fst st) path)).

Definition write (path text : string) : M unit :=
  fun '(w, tr) =>
    let (w', ok) := sys_write sys w path text in
    ((w', tr ++ [WriteFile path text])%list,
     if ok then Returns tt else Raises OSError).

Definition check_call (argv : list string) (cwd : string) : M unit :=
  fun '(w, tr) =>
    let (w', ok) := sys_check_call sys w argv cwd in
    ((w', tr ++ [CheckCall argv cwd])%list,
     if ok then Returns tt else Raises CalledProcess).

Definition check_output (argv : list string) (cwd : string) : M string :=
  fun '(w, tr) =>
    let (w', out) := sys_check_output sys w argv cwd in
    ((w', tr ++ [CheckOutput argv cwd])%list,
     match out with Some o => Returns o | None => Raises CalledProcess end).

Definition commit (message cwd : string) : M unit :=
  fun '(w, tr) =>
    let (w', ok) := sys_commit sys w message cwd in
    ((w', tr ++ [Commit message cwd])%list,
     if ok then Returns tt else Raises CalledProcess).

Declare Scope sys_scope.
Local Notation "x <- m ;; k" := (bind m (fun x => k))
  (at level 61, m at next level, right associativity) : sys_scope.
Local Notation "m1 ;;; k" := (bind m1 (fun _ => k))
  (at level 61, right associativity) : sys_scope.
Local Open Scope sys_scope.

(** The branch for a submodule.  The words of [cmd.split()] are those of
    the one text that [cmd] is bound to; without the directory of the data
    only [submodule_cmd] is bound, and [print(cmd)] raises. *)
Definition bump_submodule (repo_dir data_dir : string) (md : module_data)
  : M unit :=
  found <- path_exists data_dir ;;
  cmd <- (if found : bool
          then ret ["git"; "submodule"; "update"; "--remote"; "--merge"]
          else (lift (getitem md "src") ;;;
                lift (getitem md "dir") ;;;
                raise (UnboundLocal "cmd"))) ;;
  check_call cmd repo_dir ;;;
  tocommit <- check_output ["git"; "status"; "--porcelain"] repo_dir ;;
  if String.eqb tocommit "" then ret tt
  else
    check_call ["git"; "add"; "."] repo_dir ;;;
    dir <- lift (getitem md "dir") ;;
    data_git_hash <- lift (getitem md "data_git_hash") ;;
    tool_version <- lift (getitem md "tool_version") ;;
    commit ("Bump " ++ dir ++ " submodule to " ++ data_git_hash ++ Py.nl
            ++ Py.nl ++ tool_line tool_version) repo_dir.

(** The branch for a subtree, with the file [.gitmodules] of the data
    taken over into the one of the repository. *)
Definition pull_subtree (repo_dir data_dir : string) (md : module_data)
  : M unit :=
  dir <- lift (getitem md "dir") ;;
  found <- path_exists (path_join repo_dir dir) ;;
  let subtree_cmd := if found : bool then "pull" else "add" in
  dir <- lift (getitem md "dir") ;;
  src_local <- lift (getitem md "src_local") ;;
  data_git_hash <- lift (getitem md "data_git_hash") ;;
  check_call ["git"; "subtree"; subtree_cmd; "-P"; dir; src_local;
              data_git_hash] repo_dir ;;;
  let gitmodules := path_join data_dir ".gitmodules" in
  found <- path_exists gitmodules ;;
  if found : bool then
    text <- read gitmodules ;;
    match text with
    | None => raise OSError
    | Some gm_data =>
        dir <- lift (getitem md "dir") ;;
        let gm_data := replace gm_data ("[submodule " ++ dq)
                         ("[submodule " ++ dq ++ dir ++ "/") in
        dir <- lift (getitem md "dir") ;;
        let gm_data := replace gm_data "path = " ("path = " ++ dir ++ "/") in
        let repo_gm := path_join repo_dir ".gitmodules" in
        text <- read repo_gm ;;
        let repo_gm_data := match text with Some t => t | None => "" end in
        if String.eqb gm_data repo_gm_data then ret tt
        else
          write repo_gm gm_data ;;;
          check_call ["git"; "add"; ".gitmodules"] repo_dir ;;;
          tool_version <- lift (getitem md "tool_version") ;;
          commit ("Updating .gitmodules file." ++ Py.nl ++ Py.nl
                  ++ tool_line tool_version) repo_dir
    end
  else ret tt.

(** The block, for the [repo_dir] that [update] has computed. *)
Definition update_data (repo_dir : string) (md : module_data) : M unit :=
  match lookup md "src" with
  | None => ret tt
  | Some _ =>
      dir <- lift (getitem md "dir") ;;
      let data_dir := path_join repo_dir dir in
      submodule <- lift (getboolean md "submodule") ;;
      if truthy submodule then bump_submodule repo_dir data_dir md
      else pull_subtree repo_dir data_dir md
  end.

(** [download]: the directory [.] stands for a call without [cwd], which
    runs in the directory of the script. *)
Definition download (md : module_data) : M unit :=
  repo <- lift (getitem md "repo") ;;
  let out_path := path_join "repos" repo in
  found <- path_exists out_path ;;
  if negb found then
    submodule <- lift (getboolean md "submodule") ;;
    let clone_cmd := if truthy submodule then "git clone --recursive "
                     else "git clone " in
    repo_url <- lift (getitem md "repo_url") ;;
    let cmd := clone_cmd ++ repo_url ++ " " ++ out_path in
    check_call (words cmd) "."
  else
    let dotgit := path_join out_path ".git" in
    found <- path_exists dotgit ;;
    if found : bool then
      check_call ["git"; "fetch"] out_path ;;;
      check_call ["git"; "reset"; "--hard"; "origin/master"] out_path
    else raise AssertionFailed.

End System.

Arguments download {W}.
Arguments sys_exists {W}.
Arguments sys_read {W}.
Arguments sys_write {W}.
Arguments sys_check_call {W}.
Arguments sys_check_output {W}.
Arguments sys_commit {W}.
Arguments update_data {W}.
Arguments bump_submodule {W}.
Arguments pull_subtree {W}.

End Update.

(** ** The keys that [main] sets

    The assignments to the section [m] of a module in the loop of [main],
    before the source is read. *)

(** [repr] of a tuple of integers and [None]. *)
Definition repr_item (x : option N) : string :=
  match x with
  | Some n => Py.str n
  | None => "None"
  end.

Definition repr_tuple (t : list (option N)) : string :=
  match t with
  | [x] => "(" ++ repr_item x ++ ",)"
  | _ => "(" ++ Py.join ", " (map repr_item t) ++ ")"
  end.

Definition module_keys (GIT_MODE tool_version : string)
  (tool_version_tuple : list (option N)) (module : string)
  (m : Host.module_data) : Host.outcome Host.module_data :=
  match Host.getitem m "type" with
  | Host.Raises e => Host.Raises e
  | Host.Returns t =>
  let repo_name := "pythondata-" ++ t ++ "-" ++ module in
  let m := Host.setitem m "tool_version" tool_version in
  let m := Host.setitem m "tool_version_tuple"
             (repr_tuple tool_version_tuple) in
  let m := Host.setitem m "name" module in
  let m := Host.setitem m "repo" repo_name in
  let m := Host.setitem m "repo_url"
             (GIT_MODE ++ "://github.com/litex-hub/" ++ repo_name ++ ".git") in
  let m := Host.setitem m "repo_https"
             ("https://github.com/litex-hub/" ++ repo_name ++ ".git") in
  match Host.getitem m "type" with
  | Host.Raises e => Host.Raises e
  | Host.Returns t =>
  let m := Host.setitem m "py" ("pythondata_" ++ t ++ "_" ++ module) in
  match Host.getitem m "py" with
  | Host.Raises e => Host.Raises e
  | Host.Returns py =>
  match Host.getitem m "contents" with
  | Host.Raises e => Host.Raises e
  | Host.Returns contents =>
      Host.Returns (Host.setitem m "dir" (Update.path_join py contents))
  end end end end.

(** ** Vocabulary of the statements *)

(** The text of the doctests of [parse_tags] and [version_tuple]. *)
Definition doctest_tags : string :=
  Py.unlines ["v0.0"; "v0.0.0"; "v0.0.0-rc1"; "v1.0.1-265-g5f0c7a7";
              "v0.0-7004-g1cf70ea2"].

(** A tag name as [git tag --list] prints it: on one line. *)
Fixpoint one_line (t : string) : bool :=
  match t with
  | EmptyString => true
  | String c r => negb (Py.is_linebreak c) && one_line r
  end.

(** The entries that [parse_tags] keeps and those it ignores, in the
    order of the lines. *)
Definition valid_of (lines : list string) : list (Version * string) :=
  flat_map (fun t => match parse (tag_text t) with
                     | IsVersion v => [(v, t)]
                     | IsLegacy _ => []
                     end) lines.

Definition ignored_of (lines : list string) : list ignored_tag :=
  flat_map (fun t => match parse (tag_text t) with
                     | IsVersion _ => []
                     | IsLegacy v => [(t, Some v)]
                     end) lines.

(** What [get_hash] returns for a tag of the repository. *)
Definition tag_hash (r : repo) (t : string) : string :=
  match lookup_tag r t with
  | Some h => Py.strip (h ++ Py.nl)
  | None => ""
  end.

(** The [TagSet] and the calls of [get_tags] on the repository [r]. *)
Definition tagset_of (r : repo) : TagSet :=
  fold_left (fun acc p => od_set acc (snd p) (fst p, tag_hash r (snd p)))
            (sort (valid_of (tag_names r))) [].

Definition get_tags_calls (r : repo) : list call :=
  TagList :: map (fun p => RevParse (snd p)) (sort (valid_of (tag_names r))).

(** How often [git tag --delete t] and [git tag -a ... v0.0 ...] are
    among the calls. *)
Definition is_delete (t : string) (c : call) : bool :=
  match c with TagDelete n => String.eqb n t | _ => false end.

Definition is_annotate (c : call) : bool :=
  match c with TagAnnotate _ _ _ => true | _ => false end.

Definition count (p : call -> bool) (calls : list call) : nat :=
  List.length (filter p calls).

(** The tag store after [git tag --delete] of each of [ts]. *)
Definition delete_all (ts : list string) (tags : list (string * string))
  : list (string * string) :=
  fold_left (fun T t => filter (fun p => negb (String.eqb t (fst p))) T)
            ts tags.

(** Tag names that [get_src] can list and delete one by one: no name
    twice, each on one line, none that [git] reads as an option. *)
Definition wf_tags (r : repo) : Prop :=
  NoDup (tag_names r) /\ Forall (fun t => one_line t = true) (tag_names r)
  /\ Forall (fun t => GitCalls.option_like t = false) (tag_names r).

(** The repository after [git tag -a ... v0.0 h]. *)
Definition with_default_tag (r : repo) (h : string) : repo :=
  with_tags r (r_tags r ++ [("v0.0", r_tag_object r "v0.0" dummy_message h)]).

(** A text of white space only, and a text without white space. *)
Fixpoint blank (s : string) : bool :=
  match s with
  | EmptyString => true
  | String c r => Py.isspace c && blank r
  end.

Fixpoint solid (s : string) : bool :=
  match s with
  | EmptyString => true
  | String c r => negb (Py.isspace c) && solid r
  end.

(** A text with no digit at its head. *)
Definition stops (r : string) : Prop :=
  forall c r', r = String c r' -> Py.isdigit c = false.

(** The numbers that the loop of [version_join] adds up, before [str]. *)
Fixpoint sums (vta vtb : list (option N)) : list N :=
  match vta, vtb with
  | a :: ra, b :: rb =>
      match a, b with
      | None, None => sums ra rb
      | _, _ =>
          (match a with Some n => n | None => 0 end
           + match b with Some n => n | None => 0 end) :: sums ra rb
      end
  | _, _ => []
  end.

(** The two reversed and padded tuples of [version_join]. *)
Definition padded (a b : Version) : list (option N) :=
  pad_to (rev (version_tuple a)) (rev (version_tuple b)).

(** Neither version has a post count. *)
Definition no_post (a b : Version) : bool :=
  match post a, post b with
  | None, None => true
  | _, _ => false
  end.

(** [a] is not [==] to [b] and [a < b]. *)
Definition SLT {A} `{PyOrd A} (a b : A) : Prop :=
  a <> b /\ py_lt a b = true.

(** Comparisons that behave: [==] is equality, and [<] on items that
    are not [==] is a strict total order. *)
Class LawfulOrd (A : Type) `{PyOrd A} : Prop := {
  py_eq_spec : forall a b : A, py_eq a b = true <-> a = b;
  SLT_trans : forall a b c : A, SLT a b -> SLT b c -> SLT a c;
  SLT_total : forall a b : A, a = b \/ SLT a b \/ SLT b a
}.

(** Under the key [key], [y] does not come before [x]. *)
Definition ordered {E K} `{PyOrd K} (key : E -> K) (x y : E) : Prop :=
  ~ SLT (key y) (key x).

(** The key by which [tags.sort()] orders an entry of [tags]. *)
Definition entry_key (e : Version * string) : CmpKey * string :=
  (cmpkey (fst e), snd e).

(** A text without the code point [c], and how often [c] is in a text. *)
Fixpoint lacks (c : ascii) (s : string) : bool :=
  match s with
  | EmptyString => true
  | String x r => negb (Ascii.eqb x c) && lacks c r
  end.

Fixpoint occurrences (c : ascii) (s : string) : nat :=
  match s with
  | EmptyString => O
  | String x r => ((if Ascii.eqb x c then 1 else 0) + occurrences c r)%nat
  end.

(** The version with the release [ns] and the post count [p] and nothing
    else: what a dotted tag and a distance give. *)
Definition plain (ns : list N) (p : option N) : Version :=
  {| v_epoch := 0; v_release := ns; v_pre := None;
     v_post := option_map (fun n => ("post", n)) p;
     v_dev := None; v_local := None |}.

(** What [git describe --long] prints for a tag [v] and dotted numbers,
    [n] commits behind the commit with the abbreviated hash [h]. *)
Definition describe_text (ns : list N) (n : N) (h : string) : string :=
  "v" ++ Py.join "." (map Py.str ns) ++ "-" ++ Py.str n ++ "-g" ++ h.

(** The tag parses to a version. *)
Definition is_valid (t : string) : bool :=
  match parse (tag_text t) with IsVersion _ => true | IsLegacy _ => false end.

(** The repository that [get_src] leaves when it has reconciled the
    tags: the default tag added where it was missing and the log gives the
    first hash, the ignored tags deleted. *)
Definition with_default (r : repo) : repo :=
  if has_tag r "v0.0" then r
  else match first_hash_of (log_lines r) with
       | Ok h => with_default_tag r h
       | Raise _ => r
       end.

Definition reconciled (r : repo) : repo :=
  let r' := with_default r in
  with_tags r' (delete_all (map fst (ignored_of (tag_names r'))) (r_tags r')).

(** What [main] sees of [github_repo] in [if not github_repo(g, m)]. *)
Definition as_result (x : Host.outcome (option bool)) : result bool :=
  match x with
  | Host.Returns b => Ok (negb (Host.falsy b))
  | Host.Raises _ => Raise GithubException
  end.

Definition is_get_repo (q : Host.request) : bool :=
  match q with Host.GetRepo _ => true | Host.Edit _ _ => false end.

(** A component of a path: not empty, without a slash. *)
Definition component (c : string) : bool :=
  negb (String.eqb c "") && lacks Posixpath.sep c.

(** What [normpath] leaves of a path that does not start with two
    slashes: its components, or the current directory. *)
Definition components (x : string) : list string :=
  match Posixpath.norm_comps x, Posixpath.initial_slashes x with
  | [], O => ["."]
  | cs, _ => cs
  end.

(** A quoted line without its mark. *)
Definition unquote_line (l : string) : string :=
  if String.eqb l ">" then "" else Posixpath.skip 2 l.

Definition good_component (c : string) : Prop := component c = true.

(** A text that ends with a code point other than the slash. *)
Definition ends_solid (s : string) : Prop :=
  exists s' c, s = s' ++ String c "" /\ Ascii.eqb c Posixpath.sep = false.

(** A call of [git submodule add] or of [git subtree]. *)
Definition adds_data (p : Update.proc) : bool :=
  match p with
  | Update.CheckCall ("git" :: "submodule" :: "add" :: _) _ => true
  | Update.CheckCall ("git" :: "subtree" :: _) _ => true
  | _ => false
  end.

(** * Properties *)

Local Close Scope main_scope.

(** ** Worked examples of the docstrings *)

(** C1: joining the versions 1.2 and 3.4.5 gives exactly the version that
    3.5.post7 parses to, as the docstring of [version_join] says. *)
Theorem version_join_doctest :
  exists a b c,
    Version_of_string "1.2" = Some a /\
    Version_of_string "3.4.5" = Some b /\
    Version_of_string "3.5.post7" = Some c /\
    version_join a b = Ok c.
Proof.
  do 3 eexists. repeat split; vm_compute; reflexivity.
Qed.

(** C3: the tags of the docstring of [parse_tags] come out in the order
    v0.0.0-rc1, v0.0, v0.0.0, v0.0-7004-g1cf70ea2, v1.0.1-265-g5f0c7a7. *)
Theorem parse_tags_doctest_order :
  map snd (parse_tags doctest_tags)
  = ["v0.0.0-rc1"; "v0.0"; "v0.0.0"; "v0.0-7004-g1cf70ea2";
     "v1.0.1-265-g5f0c7a7"].
Proof. vm_compute. reflexivity. Qed.


(** ** Composition is commutative *)

Lemma pad_to_length (x y : list (option N)) :
  List.length (pad_to x y) = Nat.max (List.length x) (List.length y).
Proof.
  unfold pad_to. rewrite length_app, repeat_length. lia.
Qed.

(** Padding the second tuple to the padded first one is padding it to the
    first one. *)
Lemma pad_to_pad_to (x y : list (option N)) :
  pad_to y (pad_to x y) = pad_to y x.
Proof.
  unfold pad_to at 1 3. rewrite pad_to_length.
  f_equal. f_equal. lia.
Qed.

Lemma join_sums_comm (x y : list (option N)) :
  join_sums x y = join_sums y x.
Proof.
  revert y. induction x as [|a x IH]; intros [|b y]; simpl; trivial.
  destruct a as [a|], b as [b|]; simpl; rewrite ?IH; trivial;
    f_equal; f_equal; lia.
Qed.

Lemma version_join_text_comm (a b : Version) :
  version_join_text a b = version_join_text b a.
Proof.
  unfold version_join_text.
  rewrite !pad_to_pad_to.
  rewrite (join_sums_comm (pad_to (rev (version_tuple a)) _)).
  rewrite (Nat.eqb_sym (List.length (pad_to (rev (version_tuple a)) _))).
  reflexivity.
Qed.

(** C2: [version_join] gives the same for (a, b) and for (b, a), whatever
    the lengths of the two releases: the same version, or the same
    exception. *)
Theorem version_join_comm (a b : Version) :
  version_join a b = version_join b a.
Proof.
  unfold version_join. now rewrite version_join_text_comm.
Qed.

(** ** Parsing the text that [version_join] writes

    The text is a dotted run of decimal numbers followed by [.post] and
    one more number.  The pattern reads it back: the numbers are the
    release and the last one is the post count. *)

Section Digits.

Lemma uint_string_digits (d : Decimal.uint) :
  all_digits (NilEmpty.string_of_uint d) = true.
Proof. induction d; simpl; trivial. Qed.

Lemma str_digits (n : N) : all_digits (Py.str n) = true.
Proof.
  unfold Py.str, NilZero.string_of_uint.
  destruct (N.to_uint n); try reflexivity; apply uint_string_digits.
Qed.

Lemma to_uint_nonnil (n : N) : N.to_uint n <> Decimal.Nil.
Proof.
  destruct n; simpl; [discriminate | apply DecimalPos.Unsigned.to_uint_nonnil].
Qed.

Lemma str_nonempty (n : N) : exists c r, Py.str n = String c r.
Proof.
  unfold Py.str, NilZero.string_of_uint.
  pose proof (to_uint_nonnil n) as H.
  destruct (N.to_uint n); try congruence; simpl; eauto.
Qed.

(** [int(str(n)) == n] *)
Lemma int_str (n : N) : Py.int (Py.str n) = n.
Proof.
  unfold Py.int, Py.str.
  rewrite NilZero.usu by apply to_uint_nonnil.
  apply DecimalN.Unsigned.of_to.
Qed.

Lemma digit_not_space (c : ascii) :
  Py.isdigit c = true -> Py.isspace c = false.
Proof.
  destruct c as [[|] [|] [|] [|] [|] [|] [|] [|]];
    vm_compute; congruence.
Qed.

Lemma digit_not_sep (c : ascii) :
  Py.isdigit c = true -> is_sep c = false.
Proof.
  destruct c as [[|] [|] [|] [|] [|] [|] [|] [|]];
    vm_compute; congruence.
Qed.

Lemma digit_lower (c : ascii) :
  Py.isdigit c = true -> Py.lower_char c = c.
Proof.
  destruct c as [[|] [|] [|] [|] [|] [|] [|] [|]];
    vm_compute; congruence.
Qed.

(** A word that starts with a letter or a sign does not match at a
    digit. *)
Lemma lit_at_digit (x : ascii) (w : string) (c : ascii) (r : string) :
  Py.isdigit x = false -> Py.isdigit c = true ->
  Re.lit (String x w) (String c r) = [].
Proof.
  intros Hx Hc. simpl. rewrite (digit_lower c Hc).
  destruct (Ascii.eqb_spec c x) as [->|]; [congruence | reflexivity].
Qed.

End Digits.

Section Matching.

Import Re.

(** The way a matcher prefers is the head of its list. *)
Lemma hd_bind {A B} (m : matcher A) (k : A -> matcher B) s a r y :
  hd_error (m s) = Some (a, r) ->
  hd_error (k a r) = Some y ->
  hd_error (bind m k s) = Some y.
Proof.
  unfold bind. destruct (m s) as [|[a' r'] tl]; simpl; [discriminate|].
  intros [= -> ->]. destruct (k a r); simpl; [discriminate | trivial].
Qed.

Lemma hd_fmap {A B} (f : A -> B) (m : matcher A) s a r :
  hd_error (m s) = Some (a, r) ->
  hd_error (fmap f m s) = Some (f a, r).
Proof.
  unfold fmap. destruct (m s) as [|[a' r'] tl]; simpl; [discriminate|].
  now intros [= -> ->].
Qed.

Lemma hd_alt_l {A} (m1 m2 : matcher A) s x :
  hd_error (m1 s) = Some x -> hd_error (alt m1 m2 s) = Some x.
Proof.
  unfold alt. destruct (m1 s); simpl; [discriminate | trivial].
Qed.

Lemma alt_nil_l {A} (m1 m2 : matcher A) s :
  m1 s = [] -> alt m1 m2 s = m2 s.
Proof. unfold alt. now intros ->. Qed.

Lemma bind_nil {A B} (m : matcher A) (k : A -> matcher B) s :
  Forall (fun p => k (fst p) (snd p) = []) (m s) -> bind m k s = [].
Proof.
  unfold bind. induction 1 as [|[a r] l H _ IH]; simpl in *; trivial.
  now rewrite H, IH.
Qed.

Lemma bind_fails {A B} (m : matcher A) (k : A -> matcher B) s :
  m s = [] -> bind m k s = [].
Proof. unfold bind. now intros ->. Qed.

Lemma hd_opt {A} (m : matcher A) s a r :
  hd_error (m s) = Some (a, r) -> hd_error (opt m s) = Some (Some a, r).
Proof.
  intros H. unfold opt. apply hd_alt_l. now apply (hd_fmap Some).
Qed.

Lemma opt_nil {A} (m : matcher A) s :
  m s = [] -> opt m s = [(None, s)].
Proof.
  intros H. unfold opt. rewrite alt_nil_l; [reflexivity|].
  unfold fmap. now rewrite H.
Qed.

(** The greedy run of digits takes all the digits. *)
Lemma star_class_run (ds r : string) :
  all_digits ds = true -> stops r ->
  hd_error (star_class Py.isdigit (ds ++ r)) = Some (ds, r).
Proof.
  intros Hds Hr. induction ds as [|c ds IH]; simpl in *.
  - destruct r as [|c r']; simpl; trivial.
    now rewrite (Hr c r' eq_refl).
  - apply andb_prop in Hds as [Hc Hds]. rewrite Hc.
    specialize (IH Hds).
    destruct (star_class Py.isdigit (ds ++ r)) as [|[m r'] tl];
      [discriminate|].
    simpl in *. now injection IH as -> ->.
Qed.

Lemma digits_run (c : ascii) (ds r : string) :
  all_digits (String c ds) = true -> stops r ->
  hd_error (digits (String c ds ++ r)) = Some (String c ds, r).
Proof.
  intros Hds Hr. simpl in *. apply andb_prop in Hds as [Hc Hds].
  unfold digits, plus_class. rewrite Hc.
  pose proof (star_class_run ds r Hds Hr) as H.
  destruct (star_class Py.isdigit (ds ++ r)) as [|[m r'] tl];
    [discriminate|].
  simpl in *. now injection H as -> ->.
Qed.

(** Whatever a run of digits leaves is the rest or starts with a
    digit. *)
Lemma star_class_rests (ds r : string) :
  all_digits ds = true -> stops r ->
  Forall (fun p => snd p = r \/
                   exists c r', snd p = String c r' /\ Py.isdigit c = true)
         (star_class Py.isdigit (ds ++ r)).
Proof.
  intros Hds Hr. induction ds as [|c ds IH]; simpl in *.
  - destruct r as [|c r']; simpl.
    + constructor; auto.
    + rewrite (Hr c r' eq_refl). constructor; auto.
  - apply andb_prop in Hds as [Hc Hds]. rewrite Hc.
    apply Forall_app. split.
    + apply Forall_forall. intros [m x] Hin.
      apply in_map_iff in Hin as [[m' x'] [[= <- <-] Hin]].
      specialize (IH Hds). rewrite Forall_forall in IH.
      apply (IH _ Hin).
    + constructor; [|constructor]. right. simpl. eauto.
Qed.

Lemma digits_rests (ds r : string) :
  all_digits ds = true -> stops r ->
  Forall (fun p => snd p = r \/
                   exists c r', snd p = String c r' /\ Py.isdigit c = true)
         (digits (ds ++ r)).
Proof.
  intros Hds Hr. destruct ds as [|c ds]; simpl in *.
  - unfold digits, plus_class. destruct r as [|c r']; [constructor|].
    rewrite (Hr c r' eq_refl). constructor.
  - apply andb_prop in Hds as [Hc Hds].
    unfold digits, plus_class. simpl. rewrite Hc.
    apply Forall_forall. intros [m x] Hin.
    apply in_map_iff in Hin as [[m' x'] [[= <- <-] Hin]].
    pose proof (star_class_rests ds r Hds Hr) as IH.
    rewrite Forall_forall in IH. apply (IH _ Hin).
Qed.

End Matching.

Section Composed.

Import Re.
Local Open Scope re_scope.

Lemma stops_dot r : stops (String "." r).
Proof. intros c r' [= <- _]. reflexivity. Qed.

Lemma stops_empty : stops "".
Proof. intros c r' [=]. Qed.

(** No epoch is read from digits that are not followed by [!]. *)
Lemma p_epoch_none (ds r : string) :
  all_digits ds = true -> stops r -> lit "!" r = [] ->
  p_epoch (ds ++ r) = [(None, ds ++ r)].
Proof.
  intros Hds Hr Hbang. unfold p_epoch. apply opt_nil.
  apply bind_nil. eapply Forall_impl; [|apply digits_rests; eassumption].
  intros [d x] [Hx|(c & r' & Hx & Hc)]; cbn [fst snd] in *; subst x.
  - unfold bind. now rewrite Hbang.
  - unfold bind. now rewrite (lit_at_digit "!" "" c r' eq_refl Hc).
Qed.

Lemma string_length_app (a b : string) :
  String.length (a ++ b) = (String.length a + String.length b)%nat.
Proof. induction a; simpl; auto. Qed.

Lemma string_app_assoc (a b c : string) : (a ++ b) ++ c = a ++ (b ++ c).
Proof. induction a; simpl; congruence. Qed.

(** The components after the first one, each behind its dot. *)
Lemma star_dotted (l : list string) (r : string) :
  Forall (fun x => all_digits x = true /\ x <> "") l ->
  stops r -> (lit "." ;;; digits) r = [] ->
  forall fuel, (List.length l <= fuel)%nat ->
  hd_error (star fuel (lit "." ;;; digits)
              (Py.cat (map (fun x => "." ++ x) l) ++ r))
  = Some (l, r).
Proof.
  intros Hl Hstop Hr.
  induction Hl as [|x l [Hx Hne] _ IH]; intros fuel Hfuel.
  - simpl. destruct fuel; cbn [star]; trivial.
    rewrite alt_nil_l; [reflexivity|]. now apply bind_fails.
  - destruct fuel as [|fuel]; [simpl in Hfuel; lia|].
    simpl in Hfuel. cbn [star]. apply hd_alt_l.
    destruct x as [|c x]; [congruence|].
    assert (Hs : stops (Py.cat (map (fun x => "." ++ x) l) ++ r)).
    { destruct l; simpl; [assumption | apply stops_dot]. }
    eapply hd_bind.
    + change (Py.cat (map (fun x0 => "." ++ x0) (String c x :: l)))
        with ("." ++ String c x
                 ++ Py.cat (map (fun x0 => "." ++ x0) l)).
      rewrite !string_app_assoc.
      eapply hd_bind; [reflexivity|].
      apply digits_run; assumption.
    + apply hd_fmap. apply IH. lia.
Qed.

Lemma dotted_length (l : list string) :
  (List.length l <= String.length (Py.cat (map (fun x => "." ++ x) l)))%nat.
Proof.
  induction l as [|x l IH]; [simpl; lia|].
  cbn [map Py.cat List.length]. rewrite !string_length_app.
  cbn [String.length]. lia.
Qed.

(** The release is read up to the text that follows it. *)
Lemma p_release_dotted (c : ascii) (d : string) (l : list string) (r : string) :
  all_digits (String c d) = true ->
  Forall (fun x => all_digits x = true /\ x <> "") l ->
  stops r -> (lit "." ;;; digits) r = [] ->
  hd_error (p_release (dotted (String c d) l ++ r))
  = Some (dotted (String c d) l, r).
Proof.
  intros Hd Hl Hstop Hr. unfold p_release.
  set (fuel := String.length (dotted (String c d) l ++ r)).
  assert (Hfuel : (List.length l <= fuel)%nat).
  { subst fuel. unfold dotted. rewrite !string_length_app.
    pose proof (dotted_length l). lia. }
  clearbody fuel. unfold dotted. rewrite string_app_assoc.
  eapply hd_bind.
  - apply digits_run; [assumption|].
    destruct l; simpl; [assumption | apply stops_dot].
  - eapply hd_bind; [now apply star_dotted | reflexivity].
Qed.

Lemma string_app_nil (s : string) : s ++ "" = s.
Proof. induction s; simpl; congruence. Qed.

(** The post count is read from [.post] and the digits that end the
    text. *)
Lemma p_post_digits (c : ascii) (ds : string) :
  all_digits (String c ds) = true ->
  hd_error (p_post (".post" ++ String c ds))
  = Some (Some (None, Some "post", Some (String c ds)), "").
Proof.
  intros Hds. unfold p_post. apply hd_opt.
  rewrite alt_nil_l by reflexivity.
  eapply hd_bind; [reflexivity|].
  eapply hd_bind; [reflexivity|].
  assert (Hc : Py.isdigit c = true) by (simpl in Hds; now apply andb_prop in Hds).
  eapply hd_bind.
  - unfold sep. rewrite opt_nil; [reflexivity|].
    simpl. now rewrite (digit_not_sep c Hc).
  - eapply hd_bind; [|reflexivity].
    apply hd_opt. rewrite <- (string_app_nil (String c ds)) at 1.
    apply digits_run; [assumption | apply stops_empty].
Qed.

Lemma hd_first_match {A} (m : matcher A) s g :
  hd_error (m s) = Some (g, "") -> first_match m s = Some g.
Proof.
  unfold first_match. destruct (m s) as [|[g' r] tl]; simpl; [discriminate|].
  now intros [= -> ->].
Qed.

(** The pattern on a dotted run of numbers followed by [.post] and a
    number. *)
Lemma regex_search_composed (c : ascii) (d : string) (l : list string)
  (c' : ascii) (ds : string) :
  all_digits (String c d) = true ->
  Forall (fun x => all_digits x = true /\ x <> "") l ->
  all_digits (String c' ds) = true ->
  regex_search (dotted (String c d) l ++ ".post" ++ String c' ds)
  = Some {| g_epoch := None;
            g_release := dotted (String c d) l;
            g_pre_l := None; g_pre_n := None;
            g_post_n1 := None; g_post_l := Some "post";
            g_post_n2 := Some (String c' ds);
            g_dev_l := None; g_dev_n := None;
            g_local := None |}.
Proof.
  intros Hd Hl Hds. unfold regex_search. apply hd_first_match.
  assert (Hc : Py.isdigit c = true) by (simpl in Hd; now apply andb_prop in Hd).
  set (rest := Py.cat (map (fun x => "." ++ x) l) ++ ".post" ++ String c' ds).
  assert (Hrest : exists r0, rest = String "." r0).
  { subst rest. destruct l; simpl; eauto. }
  destruct Hrest as [r0 Hrest].
  assert (E : dotted (String c d) l ++ ".post" ++ String c' ds
              = String c d ++ rest).
  { unfold dotted. now rewrite string_app_assoc. }
  unfold version_pattern.
  apply (hd_bind _ _ _ "" (String c d ++ rest)).
  { rewrite E. simpl. now rewrite (digit_not_space c Hc). }
  apply (hd_bind _ _ _ None (String c d ++ rest)).
  { rewrite opt_nil; [reflexivity|].
    simpl. rewrite (digit_lower c Hc).
    destruct (Ascii.eqb_spec c "v") as [->|]; [discriminate Hc | reflexivity]. }
  apply (hd_bind _ _ _ None (String c d ++ rest)).
  { rewrite p_epoch_none; trivial; rewrite Hrest;
      [apply stops_dot | reflexivity]. }
  apply (hd_bind _ _ _ (dotted (String c d) l) (".post" ++ String c' ds)).
  { rewrite <- E. apply (p_release_dotted c d l); trivial.
    apply stops_dot. }
  eapply hd_bind; [reflexivity|].
  eapply hd_bind; [now apply p_post_digits|].
  reflexivity.
Qed.

End Composed.

Section ComposedVersion.

Lemma join_dotted (x : string) (xs : list string) :
  Py.join "." (x :: xs) = dotted x xs.
Proof.
  unfold dotted. revert x. induction xs as [|y xs IH]; intros x.
  - simpl. now rewrite string_app_nil.
  - change (Py.join "." (x :: y :: xs)) with (x ++ "." ++ Py.join "." (y :: xs)).
    rewrite IH. cbn [map Py.cat]. now rewrite !string_app_assoc.
Qed.

Lemma split_nonempty (c : ascii) (s : string) : Py.split c s <> [].
Proof.
  destruct s as [|x s]; simpl; [discriminate|].
  destruct (Ascii.eqb x c); [discriminate|].
  destruct (Py.split c s); discriminate.
Qed.

(** Digits before a dot make the first piece of [split(".")]. *)
Lemma split_digits_app (d rest : string) :
  all_digits d = true ->
  Py.split "." (d ++ rest)
  = match Py.split "." rest with
    | x :: tl => (d ++ x) :: tl
    | [] => []
    end.
Proof.
  intros Hd. induction d as [|c d IH]; simpl in *.
  - now destruct (Py.split "." rest).
  - apply andb_prop in Hd as [Hc Hd]. rewrite (IH Hd).
    destruct (Ascii.eqb_spec c ".") as [->|_]; [discriminate Hc|].
    pose proof (split_nonempty "." rest).
    now destruct (Py.split "." rest).
Qed.

Lemma split_dotted (d : string) (l : list string) :
  all_digits d = true -> Forall (fun x => all_digits x = true /\ x <> "") l ->
  Py.split "." (dotted d l) = d :: l.
Proof.
  unfold dotted. intros Hd Hl. revert d Hd.
  induction Hl as [|x l [Hx _] _ IH]; intros d Hd.
  - simpl. rewrite split_digits_app by assumption. simpl.
    now rewrite !string_app_nil.
  - cbn [map Py.cat]. rewrite split_digits_app by assumption.
    change (Py.split "." (("." ++ x) ++ Py.cat (map (fun x0 => "." ++ x0) l)))
      with ("" :: Py.split "." (x ++ Py.cat (map (fun x0 => "." ++ x0) l))).
    now rewrite (IH x Hx), string_app_nil.
Qed.

Lemma strs_digits (ns : list N) :
  Forall (fun x => all_digits x = true /\ x <> "") (map Py.str ns).
Proof.
  induction ns as [|n ns IH]; simpl; constructor; trivial.
  split; [apply str_digits|].
  destruct (str_nonempty n) as (c & r & ->). discriminate.
Qed.

(** What [Version] makes of a dotted run of numbers followed by [.post]
    and a number. *)
Lemma Version_of_composed (n0 : N) (ns : list N) (n : N) :
  Version_of_string
    (Py.join "." (map Py.str (n0 :: ns)) ++ ".post" ++ Py.str n)
  = Some {| v_epoch := 0; v_release := n0 :: ns; v_pre := None;
            v_post := Some ("post", n); v_dev := None; v_local := None |}.
Proof.
  cbn [map]. rewrite join_dotted.
  pose proof (str_digits n0) as H0. pose proof (str_digits n) as Hn.
  pose proof (strs_digits ns) as Hns.
  destruct (str_nonempty n0) as (c0 & d0 & E0).
  destruct (str_nonempty n) as (c & d & E).
  unfold Version_of_string.
  rewrite E0, E in *.
  rewrite regex_search_composed by assumption.
  cbn [g_epoch g_release g_pre_l g_pre_n g_post_n1 g_post_l g_post_n2
       g_dev_l g_dev_n g_local].
  rewrite split_dotted by assumption.
  rewrite <- E0, <- E.
  change (map Py.int (Py.str n0 :: map Py.str ns))
    with (map Py.int (map Py.str (n0 :: ns))).
  rewrite map_map, (map_ext _ (fun x => x) int_str), map_id.
  f_equal. f_equal.
  change (parse_letter_version (Some "post") (Some (Py.str n)))
    with (Some ("post", Py.int (Py.str n))).
  now rewrite int_str.
Qed.

(** No release, no version: [Version] raises on a text that starts with
    [.post]. *)
Lemma Version_of_post_only (s : string) :
  Version_of_string (".post" ++ s) = None.
Proof. reflexivity. Qed.

End ComposedVersion.

(** ** What [version_join] returns *)

Section Join.

Lemma join_sums_str (x y : list (option N)) :
  join_sums x y = map Py.str (sums x y).
Proof.
  revert y. induction x as [|a x IH]; intros [|b y]; simpl; trivial.
  destruct a, b; simpl; now rewrite IH.
Qed.

Lemma padded_length (a b : Version) :
  List.length (padded a b) = List.length (padded b a).
Proof. unfold padded. rewrite !pad_to_length. lia. Qed.

(** The text of [version_join] in terms of the sums. *)
Lemma version_join_text_sums (a b : Version) :
  version_join_text a b
  = match sums (padded a b) (padded b a) with
    | [] => Raise IndexError
    | n :: ms => Ok (Py.join "." (map Py.str (rev ms)) ++ ".post" ++ Py.str n)
    end.
Proof.
  unfold version_join_text. rewrite pad_to_pad_to.
  fold (padded a b). fold (padded b a).
  rewrite padded_length, Nat.eqb_refl. simpl.
  rewrite join_sums_str.
  destruct (sums (padded a b) (padded b a)) as [|n ms]; simpl; trivial.
  now rewrite map_rev.
Qed.

(** One sum only leaves no release; two or more give a version whose
    post count is the first sum and whose release is the others, last one
    first. *)
Lemma version_join_sums (a b : Version) :
  version_join a b
  = match sums (padded a b) (padded b a) with
    | [] => Raise IndexError
    | [n] => Raise InvalidVersion
    | n :: ms =>
        Ok {| v_epoch := 0; v_release := rev ms; v_pre := None;
              v_post := Some ("post", n); v_dev := None; v_local := None |}
    end.
Proof.
  unfold version_join. rewrite version_join_text_sums.
  destruct (sums (padded a b) (padded b a)) as [|n [|m ms]]; trivial.
  destruct (rev (m :: ms)) as [|n0 ns] eqn:E.
  - apply (f_equal (@List.length N)) in E.
    rewrite length_rev in E. discriminate E.
  - now rewrite Version_of_composed.
Qed.

End Join.

Section JoinShape.

Lemma padded_shape (a b : Version) :
  padded a b
  = post a :: (map Some (rev (release a))
               ++ repeat (Some 0)
                    (List.length (release b) - List.length (release a)))%list.
Proof.
  unfold padded, pad_to, version_tuple.
  rewrite !rev_app_distr. simpl. rewrite <- !map_rev.
  rewrite !length_map, !length_rev. reflexivity.
Qed.

Lemma hd_rev_last (l : list N) (d : N) : hd d (rev l) = last l d.
Proof.
  induction l as [|x l IH] using rev_ind; trivial.
  now rewrite rev_app_distr, last_last.
Qed.

(** The first sum of two padded releases is the sum of their last
    items. *)
Lemma sums_head (ra rb : list N) (n : N) (ms : list N) :
  sums (map Some ra ++ repeat (Some 0) (List.length rb - List.length ra))
       (map Some rb ++ repeat (Some 0) (List.length ra - List.length rb))
  = n :: ms ->
  n = hd 0 ra + hd 0 rb.
Proof.
  destruct ra as [|x ra], rb as [|y rb]; simpl.
  - discriminate.
  - now intros [= <- _].
  - intros [= <- _]. lia.
  - now intros [= <- _].
Qed.

Lemma sums_length (x y : list (option N)) :
  Forall (fun o => o <> None) x -> List.length x = List.length y ->
  List.length (sums x y) = List.length x.
Proof.
  intros Hx. revert y. induction Hx as [|a x Ha _ IH]; intros [|b y]; simpl;
    try discriminate; trivial.
  intros [= E]. destruct a as [a|]; [|congruence].
  simpl. now rewrite IH.
Qed.

Lemma padded_release_some (ra : list N) (k : nat) :
  Forall (fun o : option N => o <> None) (map Some ra ++ repeat (Some 0) k).
Proof.
  apply Forall_app. split.
  - apply Forall_forall. intros o Hin.
    apply in_map_iff in Hin as (x & <- & _). discriminate.
  - apply Forall_forall. intros o Hin.
    apply repeat_spec in Hin. subst o. discriminate.
Qed.

(** How many sums there are: one for each place of the longer release,
    and one for the post counts unless both are missing. *)
Lemma sums_count (a b : Version) :
  List.length (sums (padded a b) (padded b a))
  = ((if no_post a b then 0 else 1)
     + Nat.max (List.length (release a)) (List.length (release b)))%nat.
Proof.
  rewrite !padded_shape. unfold no_post.
  set (X := (map Some (rev (release a)) ++ _)%list).
  set (Y := (map Some (rev (release b)) ++ _)%list).
  assert (HX : Forall (fun o : option N => o <> None) X)
    by apply padded_release_some.
  assert (HL : List.length X = List.length Y).
  { subst X Y. rewrite !length_app, !length_map, !length_rev, !repeat_length.
    lia. }
  assert (HLX : List.length X
                = Nat.max (List.length (release a)) (List.length (release b))).
  { subst X. rewrite !length_app, !length_map, !length_rev, !repeat_length.
    lia. }
  destruct (post a), (post b); simpl; rewrite sums_length; trivial; lia.
Qed.

End JoinShape.

(** C10: whenever [version_join] returns, the text it wrote ends with
    [.post] and a number, and that number is the post count of the result.
    When neither input has a post count the number is the sum of the last
    items of the two releases (an absent item counts as 0); otherwise it is
    the sum of the two post counts (an absent one counts as 0). *)
Theorem version_join_post (a b v : Version) :
  version_join a b = Ok v ->
  exists n,
    post v = Some n /\
    (exists body, version_join_text a b = Ok (body ++ ".post" ++ Py.str n)) /\
    (no_post a b = true -> n = last (release a) 0 + last (release b) 0) /\
    (no_post a b = false ->
     n = match post a with Some p => p | None => 0 end
         + match post b with Some p => p | None => 0 end).
Proof.
  rewrite version_join_sums, version_join_text_sums.
  destruct (sums (padded a b) (padded b a)) as [|n [|m ms]] eqn:E;
    try discriminate.
  intros [= <-]. exists n. split; [reflexivity|]. split; [eauto|].
  rewrite !padded_shape in E. unfold no_post.
  destruct (post a) as [pa|], (post b) as [pb|]; simpl in E;
    split; try discriminate; intros _;
    try (now injection E as <- _).
  rewrite <- (length_rev (release a)), <- (length_rev (release b)) in E.
  apply sums_head in E. now rewrite !hd_rev_last in E.
Qed.

(** The docstring example: 1.2 and 3.4.5 have no post count and the
    result has the post count 2 + 5. *)
Lemma version_join_post_witness :
  exists a b v,
    Version_of_string "1.2" = Some a /\
    Version_of_string "3.4.5" = Some b /\
    version_join a b = Ok v /\
    exists n,
      post v = Some n /\
      (exists body, version_join_text a b = Ok (body ++ ".post" ++ Py.str n)) /\
      (no_post a b = true -> n = last (release a) 0 + last (release b) 0) /\
      (no_post a b = false ->
       n = match post a with Some p => p | None => 0 end
           + match post b with Some p => p | None => 0 end).
Proof.
  eexists _, _, _.
  split; [vm_compute; reflexivity|].
  split; [vm_compute; reflexivity|].
  split; [vm_compute; reflexivity|].
  apply version_join_post. vm_compute. reflexivity.
Defined.

(** ** When [version_join] raises *)

Lemma parsed_release_nonempty (s : string) (v : Version) :
  Version_of_string s = Some v -> release v <> [].
Proof.
  unfold Version_of_string. destruct (regex_search s) as [g|]; [|discriminate].
  intros [= <-]. unfold release. simpl.
  pose proof (split_nonempty "." (g_release g)) as H.
  destruct (Py.split "." (g_release g)); [congruence | discriminate].
Qed.

(** C8, as the code has it: the versions 1 and 2 are accepted by the
    parser and [version_join] raises [InvalidVersion] on them. *)
Lemma version_join_raises_on_single_components :
  exists a b,
    Version_of_string "1" = Some a /\
    Version_of_string "2" = Some b /\
    version_join a b = Raise InvalidVersion.
Proof.
  eexists _, _. repeat split; vm_compute; reflexivity.
Qed.

(** C8, amended: on versions that the parser accepts, [version_tuple]
    always returns, and [version_join] returns a version unless both
    releases have a single component and neither version has a post count;
    in that one case it raises [InvalidVersion]. *)
Theorem version_join_returns (sa sb : string) (a b : Version) :
  Version_of_string sa = Some a ->
  Version_of_string sb = Some b ->
  version_tuple_checked (parse sa) = Ok (version_tuple a) /\
  version_tuple_checked (parse sb) = Ok (version_tuple b) /\
  if no_post a b && Nat.eqb (List.length (release a)) 1
     && Nat.eqb (List.length (release b)) 1
  then version_join a b = Raise InvalidVersion
  else exists v, version_join a b = Ok v.
Proof.
  intros Ha Hb. unfold parse. rewrite Ha, Hb.
  split; [reflexivity|]. split; [reflexivity|].
  apply parsed_release_nonempty in Ha, Hb.
  pose proof (sums_count a b) as Hn.
  rewrite version_join_sums.
  destruct (release a) as [|a0 ra]; [congruence|].
  destruct (release b) as [|b0 rb]; [congruence|].
  simpl List.length in *.
  destruct (sums (padded a b) (padded b a)) as [|n [|m ms]];
    simpl List.length in Hn.
  - lia.
  - destruct (no_post a b); [|lia].
    destruct ra, rb; simpl in *; trivial; lia.
  - destruct (no_post a b); simpl.
    + destruct ra, rb; simpl in *; eauto; lia.
    + eauto.
Qed.

(** A version with a post count on one side, and two single components
    on the other. *)
Lemma version_join_returns_witness :
  exists a b,
    (version_tuple_checked (parse "1.0.1-265") = Ok (version_tuple a) /\
     version_tuple_checked (parse "2") = Ok (version_tuple b) /\
     exists v, version_join a b = Ok v) /\
    exists c d,
      version_tuple_checked (parse "1") = Ok (version_tuple c) /\
      version_tuple_checked (parse "2") = Ok (version_tuple d) /\
      version_join c d = Raise InvalidVersion.
Proof.
  eexists _, _. split.
  - exact (version_join_returns "1.0.1-265" "2" _ _ eq_refl eq_refl).
  - eexists _, _.
    exact (version_join_returns "1" "2" _ _ eq_refl eq_refl).
Defined.

(** ** The order of the sorted tags *)

Section Lawful.

Lemma py_eq_refl {A} `{LawfulOrd A} (a : A) : py_eq a a = true.
Proof. now apply py_eq_spec. Qed.

Lemma py_eq_false {A} `{LawfulOrd A} (a b : A) :
  py_eq a b = false <-> a <> b.
Proof.
  rewrite <- (py_eq_spec a b). destruct (py_eq a b); split; congruence.
Qed.

Lemma py_eq_dec {A} `{LawfulOrd A} (a b : A) : {a = b} + {a <> b}.
Proof.
  destruct (py_eq a b) eqn:E.
  - left. now apply py_eq_spec.
  - right. now apply py_eq_false.
Qed.

Lemma SLT_irrefl {A} `{PyOrd A} (a : A) : ~ SLT a a.
Proof. intros [Hne _]. now apply Hne. Qed.

Lemma SLT_asym {A} `{LawfulOrd A} (a b : A) : SLT a b -> ~ SLT b a.
Proof. intros Hab Hba. exact (SLT_irrefl a (SLT_trans a b a Hab Hba)). Qed.

#[export] Instance Lawful_int : LawfulOrd N.
Proof.
  split; unfold SLT; simpl.
  - apply N.eqb_eq.
  - intros a b c [_ Hab] [_ Hbc]. apply N.ltb_lt in Hab, Hbc.
    split; [lia | apply N.ltb_lt; lia].
  - intros a b. rewrite !N.ltb_lt. lia.
Qed.

Lemma code_inj (x y : ascii) : Py.code x = Py.code y -> x = y.
Proof.
  unfold Py.code. intros E.
  rewrite <- (ascii_N_embedding x), <- (ascii_N_embedding y). now rewrite E.
Qed.

Lemma str_ltb_irrefl (a : string) : Py.str_ltb a a = false.
Proof. induction a; simpl; trivial. now rewrite N.ltb_irrefl. Qed.

Lemma str_ltb_trans (a b c : string) :
  Py.str_ltb a b = true -> Py.str_ltb b c = true -> Py.str_ltb a c = true.
Proof.
  revert b c. induction a as [|x a IH]; intros [|y b] [|z c]; simpl;
    try congruence.
  destruct (N.ltb_spec (Py.code x) (Py.code y)),
           (N.ltb_spec (Py.code y) (Py.code x)),
           (N.ltb_spec (Py.code y) (Py.code z)),
           (N.ltb_spec (Py.code z) (Py.code y)),
           (N.ltb_spec (Py.code x) (Py.code z)),
           (N.ltb_spec (Py.code z) (Py.code x));
    try congruence; try lia.
  apply IH.
Qed.

Lemma str_ltb_total (a b : string) :
  a = b \/ Py.str_ltb a b = true \/ Py.str_ltb b a = true.
Proof.
  revert b. induction a as [|x a IH]; intros [|y b]; simpl; auto.
  destruct (N.ltb_spec (Py.code x) (Py.code y)),
           (N.ltb_spec (Py.code y) (Py.code x)); auto; try lia.
  assert (x = y) by (apply code_inj; lia). subst y.
  destruct (IH b) as [->|[?|?]]; auto.
Qed.

#[export] Instance Lawful_str : LawfulOrd string.
Proof.
  split; unfold SLT; simpl.
  - apply String.eqb_eq.
  - intros a b c [_ Hab] [_ Hbc].
    pose proof (str_ltb_trans a b c Hab Hbc) as Hac. split; trivial.
    intros ->. now rewrite str_ltb_irrefl in Hac.
  - intros a b. destruct (str_ltb_total a b) as [->|[Hab|Hba]]; auto.
    + right. left. split; trivial.
      intros ->. now rewrite str_ltb_irrefl in Hab.
    + right. right. split; trivial.
      intros ->. now rewrite str_ltb_irrefl in Hba.
Qed.

(** Two tuples of two items: the first items decide, the second ones
    when those are equal. *)
Lemma SLT_pair {A B} `{LawfulOrd A} `{LawfulOrd B} (a b : A * B) :
  SLT a b <-> SLT (fst a) (fst b) \/ (fst a = fst b /\ SLT (snd a) (snd b)).
Proof.
  destruct a as [a1 a2], b as [b1 b2]. unfold SLT. simpl.
  destruct (py_eq_dec a1 b1) as [->|N1].
  - rewrite py_eq_refl. destruct (py_eq_dec a2 b2) as [->|N2].
    + rewrite py_eq_refl. split.
      * intros [Hne _]. now contradiction Hne.
      * intros [[Hne _]|[_ [Hne _]]]; now contradiction Hne.
    + rewrite (proj2 (py_eq_false a2 b2) N2). split.
      * intros [_ Hlt]. auto.
      * intros [[Hne _]|[_ [_ Hlt]]]; [now contradiction Hne|].
        split; trivial. congruence.
  - rewrite (proj2 (py_eq_false a1 b1) N1). split.
    + intros [_ Hlt]. auto.
    + intros [[_ Hlt]|[E _]]; [|contradiction].
      split; trivial. congruence.
Qed.

#[export] Instance Lawful_pair {A B} `{LawfulOrd A} `{LawfulOrd B}
  : LawfulOrd (A * B).
Proof.
  split.
  - intros [a1 a2] [b1 b2]. simpl. rewrite andb_true_iff, !py_eq_spec.
    split; [intros [-> ->]; trivial | intros [= -> ->]; auto].
  - intros a b c. rewrite !SLT_pair.
    intros [Hab|[Eab Hab]] [Hbc|[Ebc Hbc]].
    + left. eapply SLT_trans; eassumption.
    + left. now rewrite <- Ebc.
    + left. now rewrite Eab.
    + right. split; [congruence|]. eapply SLT_trans; eassumption.
  - intros a b. rewrite !SLT_pair.
    destruct a as [a1 a2], b as [b1 b2]. simpl.
    destruct (SLT_total a1 b1) as [->|[?|?]]; auto.
    destruct (SLT_total a2 b2) as [->|[?|?]]; auto.
Qed.

End Lawful.

Section LawfulTuples.

Context {A : Type} `{LawfulOrd A}.

Lemma tuple_eq_spec (a b : list A) : tuple_eq a b = true <-> a = b.
Proof.
  revert b. induction a as [|x a IH]; intros [|y b]; simpl;
    try (split; congruence).
  rewrite andb_true_iff, py_eq_spec, IH.
  split; [intros [-> ->]; trivial | intros [= -> ->]; auto].
Qed.

Lemma SLT_tuple_nil_cons (y : A) (b : list A) : SLT [] (y :: b).
Proof. split; [discriminate | reflexivity]. Qed.

Lemma SLT_tuple_nil_r (a : list A) : ~ SLT a [].
Proof. destruct a; intros [Hne Hlt]; [now apply Hne | discriminate Hlt]. Qed.

Lemma SLT_tuple_cons (x y : A) (a b : list A) :
  SLT (x :: a) (y :: b) <-> SLT x y \/ (x = y /\ SLT a b).
Proof.
  unfold SLT. simpl. destruct (py_eq_dec x y) as [->|Nxy].
  - rewrite py_eq_refl. split.
    + intros [Hne Hlt]. right. split; trivial. split; trivial. congruence.
    + intros [[Hne _]|[_ [Hne Hlt]]]; [now contradiction Hne|].
      split; trivial. congruence.
  - rewrite (proj2 (py_eq_false x y) Nxy). split.
    + intros [_ Hlt]. auto.
    + intros [[_ Hlt]|[E _]]; [|contradiction].
      split; trivial. congruence.
Qed.

#[export] Instance Lawful_tuple : LawfulOrd (list A).
Proof.
  split.
  - apply tuple_eq_spec.
  - intros a. induction a as [|x a IH]; intros [|y b] [|z c] Hab Hbc;
      try (now apply SLT_tuple_nil_r in Hab);
      try (now apply SLT_tuple_nil_r in Hbc);
      try apply SLT_tuple_nil_cons.
    apply SLT_tuple_cons in Hab, Hbc. apply SLT_tuple_cons.
    destruct Hab as [Hab|[Eab Hab]], Hbc as [Hbc|[Ebc Hbc]].
    + left. eapply SLT_trans; eassumption.
    + left. now rewrite <- Ebc.
    + left. now rewrite Eab.
    + right. split; [congruence|]. eapply IH; eassumption.
  - intros a. induction a as [|x a IH]; intros [|y b]; auto.
    + right. left. apply SLT_tuple_nil_cons.
    + right. right. apply SLT_tuple_nil_cons.
    + rewrite !SLT_tuple_cons.
      destruct (SLT_total x y) as [->|[?|?]]; auto.
      destruct (IH b) as [->|[?|?]]; auto.
Qed.

#[export] Instance Lawful_ext : LawfulOrd (ext A).
Proof.
  split.
  - intros [|x|] [|y|]; simpl; try (split; congruence).
    rewrite py_eq_spec. split; congruence.
  - intros [|x|] [|y|] [|z|] [Nab Hab] [Nbc Hbc]; simpl in *;
      try congruence; try (split; [discriminate | reflexivity]).
    assert (Hxy : SLT x y) by (split; congruence).
    assert (Hyz : SLT y z) by (split; congruence).
    destruct (SLT_trans x y z Hxy Hyz) as [Nxz Hxz].
    split; [congruence | assumption].
  - intros [|x|] [|y|]; auto;
      try (right; left; split; [discriminate | reflexivity]);
      try (right; right; split; [discriminate | reflexivity]).
    destruct (SLT_total x y) as [->|[[N L]|[N L]]]; auto.
    + right. left. split; [congruence | assumption].
    + right. right. split; [congruence | assumption].
Qed.

End LawfulTuples.

(** The keys of versions, and the keys of the entries that are sorted,
    are ordered by a strict total order. *)
#[export] Instance Lawful_CmpKey : LawfulOrd CmpKey.
Proof. unfold CmpKey. typeclasses eauto. Qed.

Section Sorting.

(** Entries of type [E] that are compared through a key of type [K]. *)
Context {E K : Type} `{PyOrd E} `{LawfulOrd K}.
Variable key : E -> K.
Hypothesis key_lt : forall x y : E, py_lt x y = py_lt (key x) (key y).
Hypothesis lt_ne : forall a b : K, py_lt a b = true -> a <> b.

Lemma insort_in (x z : E) (l : list E) :
  In z (insort x l) -> z = x \/ In z l.
Proof.
  induction l as [|y l IH]; simpl.
  - intros [<-|[]]. now left.
  - destruct (py_lt x y); simpl.
    + intros [<-|Hin]; auto.
    + intros [<-|Hin]; auto. destruct (IH Hin); auto.
Qed.

Lemma insort_sorted (x : E) (l : list E) :
  StronglySorted (ordered key) l -> StronglySorted (ordered key) (insort x l).
Proof.
  induction 1 as [|y l Hl IH Hy]; simpl.
  - repeat constructor.
  - destruct (py_lt x y) eqn:Hxy.
    + assert (Sxy : SLT (key x) (key y)).
      { rewrite key_lt in Hxy. split; [now apply lt_ne | assumption]. }
      constructor; [now constructor|].
      constructor.
      * now apply SLT_asym.
      * rewrite Forall_forall in Hy |- *. intros z Hz Szx.
        apply (Hy z Hz). eapply SLT_trans; eassumption.
    + constructor; trivial.
      apply Forall_forall. intros z Hz.
      apply insort_in in Hz as [->|Hz].
      * intros [_ Hlt]. rewrite <- key_lt in Hlt. congruence.
      * rewrite Forall_forall in Hy. now apply Hy.
Qed.

Lemma sort_sorted_from (l acc : list E) :
  StronglySorted (ordered key) acc ->
  StronglySorted (ordered key) (fold_left (fun acc x => insort x acc) l acc).
Proof.
  revert acc. induction l as [|x l IH]; intros acc Hacc; simpl; trivial.
  apply IH. now apply insort_sorted.
Qed.

Lemma sort_sorted (l : list E) : StronglySorted (ordered key) (sort l).
Proof. apply sort_sorted_from. constructor. Qed.

Lemma sorted_middle (l1 l2 l3 : list E) (x y : E) :
  StronglySorted (ordered key) (l1 ++ x :: l2 ++ y :: l3) -> ordered key x y.
Proof.
  induction l1 as [|z l1 IH]; simpl; intros Hs.
  - apply StronglySorted_inv in Hs as [_ Hx].
    rewrite Forall_forall in Hx. apply Hx.
    apply in_or_app. right. now left.
  - apply StronglySorted_inv in Hs as [Hs _]. now apply IH.
Qed.

(** In the sorted list an entry is never followed by a smaller one. *)
Lemma sort_order (l l1 l2 l3 : list E) (x y : E) :
  sort l = (l1 ++ x :: l2 ++ y :: l3)%list -> ~ SLT (key y) (key x).
Proof.
  intros Hl. pose proof (sort_sorted l) as Hs. rewrite Hl in Hs.
  exact (sorted_middle l1 l2 l3 x y Hs).
Qed.

End Sorting.

Lemma pair_lt_ne {A B} `{LawfulOrd A} `{LawfulOrd B} (a b : A * B) :
  py_lt a b = true -> a <> b.
Proof.
  intros Hlt ->. simpl in Hlt. now rewrite !py_eq_refl in Hlt.
Qed.

(** C7, as the code has it: v0.0.0 and v0.0 parse to versions that are
    [==], v0.0.0 is seen first, and v0.0 comes first in the result. *)
Lemma parse_tags_not_first_seen :
  exists v1 v2,
    parse (tag_text "v0.0.0") = IsVersion v1 /\
    parse (tag_text "v0.0") = IsVersion v2 /\
    py_eq v1 v2 = true /\
    map snd (parse_tags (Py.unlines ["v0.0.0"; "v0.0"])) = ["v0.0"; "v0.0.0"].
Proof.
  eexists _, _. repeat split; vm_compute; reflexivity.
Qed.

(** C7, amended: of two entries of the result of [parse_tags], the later
    one never has the smaller version; when their versions are [==] and
    their tags differ, the tag of the earlier one is the smaller [str]:
    the tags break the tie, not the order in which they were seen. *)
Theorem parse_tags_tie_break (d : string) (l1 l2 l3 : list (Version * string))
  (v1 v2 : Version) (t1 t2 : string) :
  parse_tags d = (l1 ++ (v1, t1) :: l2 ++ (v2, t2) :: l3)%list ->
  py_lt v2 v1 = false /\
  (py_eq v1 v2 = true -> t1 <> t2 -> Py.str_ltb t1 t2 = true).
Proof.
  unfold parse_tags, parse_tags_ignored.
  destruct (parse_lines (Py.splitlines d) [] []) as [tags itags].
  cbn [fst]. intros Hs.
  pose proof (sort_order (K := CmpKey * string) entry_key
                (fun x y => eq_refl) (@pair_lt_ne _ _ _ _ _ _)
                tags l1 l2 l3 (v1, t1) (v2, t2) Hs) as Hord.
  unfold entry_key in Hord. rewrite SLT_pair in Hord.
  cbn [fst snd] in Hord.
  change (py_lt v2 v1) with (py_lt (cmpkey v2) (cmpkey v1)).
  change (py_eq v1 v2) with (py_eq (cmpkey v1) (cmpkey v2)).
  split.
  - destruct (py_lt (cmpkey v2) (cmpkey v1)) eqn:Hlt; trivial.
    exfalso. apply Hord. left. split; trivial.
    now apply pair_lt_ne.
  - intros Heq Hne. apply py_eq_spec in Heq.
    destruct (SLT_total t1 t2) as [E|[[_ Hlt]|Hgt]]; trivial.
    + contradiction.
    + exfalso. apply Hord. right. split; [now symmetry | assumption].
Qed.

(** The tags v0.0.0 and v0.0 again. *)
Lemma parse_tags_tie_break_witness :
  let v1 := mkVersion 0 [0; 0] None None None None in
  let v2 := mkVersion 0 [0; 0; 0] None None None None in
  parse_tags (Py.unlines ["v0.0.0"; "v0.0"])
    = ([] ++ (v1, "v0.0") :: [] ++ (v2, "v0.0.0") :: [])%list /\
  py_eq v1 v2 = true /\ "v0.0" <> "v0.0.0" /\
  py_lt v2 v1 = false /\ Py.str_ltb "v0.0" "v0.0.0" = true.
Proof.
  intros v1 v2.
  assert (Hd : parse_tags (Py.unlines ["v0.0.0"; "v0.0"])
               = ([] ++ (v1, "v0.0") :: [] ++ (v2, "v0.0.0") :: [])%list)
    by (vm_compute; reflexivity).
  assert (Heq : py_eq v1 v2 = true) by (vm_compute; reflexivity).
  assert (Hne : "v0.0" <> "v0.0.0") by discriminate.
  destruct (parse_tags_tie_break _ _ _ _ _ _ _ _ Hd) as [Hlt Htie].
  split; [exact Hd|]. split; [exact Heq|]. split; [exact Hne|].
  split; [exact Hlt | exact (Htie Heq Hne)].
Defined.

(** ** Reading the tags of a repository *)

Section Lines.

Lemma splitlines_from_line (t acc rest : string) :
  one_line t = true ->
  Py.splitlines_from acc (t ++ String Py.LF rest)
  = (acc ++ t) :: Py.splitlines_from "" rest.
Proof.
  revert acc. induction t as [|c t IH]; intros acc Ht; simpl in *.
  - now rewrite string_app_nil.
  - apply andb_prop in Ht as [Hc Ht]. apply negb_true_iff in Hc.
    rewrite Hc, (IH _ Ht), string_app_assoc. reflexivity.
Qed.

(** The lines of a listing are the names that were listed. *)
Lemma splitlines_unlines (names : list string) :
  Forall (fun t => one_line t = true) names ->
  Py.splitlines (Py.unlines names) = names.
Proof.
  unfold Py.splitlines, Py.unlines.
  induction 1 as [|t names Ht _ IH]; trivial.
  cbn [map Py.cat]. rewrite string_app_assoc.
  change (Py.nl ++ Py.cat (map (fun t0 => t0 ++ Py.nl) names))
    with (String Py.LF (Py.cat (map (fun t0 => t0 ++ Py.nl) names))).
  rewrite splitlines_from_line by assumption.
  now rewrite IH.
Qed.

Lemma parse_lines_split (lines : list string) tags itags :
  parse_lines lines tags itags
  = ((tags ++ valid_of lines)%list, (itags ++ ignored_of lines)%list).
Proof.
  revert tags itags. induction lines as [|t lines IH]; intros tags itags.
  - simpl. now rewrite !List.app_nil_r.
  - unfold valid_of, ignored_of. simpl.
    destruct (parse (tag_text t)); rewrite IH; simpl;
      now rewrite <- ?List.app_assoc.
Qed.

(** [parse_tags] on a listing: the kept entries sorted, the ignored ones
    as they come. *)
Lemma parse_tags_ignored_unlines (names : list string) :
  Forall (fun t => one_line t = true) names ->
  parse_tags_ignored (Py.unlines names)
  = (sort (valid_of names), ignored_of names).
Proof.
  intros Hn. unfold parse_tags_ignored.
  now rewrite splitlines_unlines, parse_lines_split.
Qed.

End Lines.

Section SortPermutation.

Context {E : Type} `{PyOrd E}.

Lemma insort_perm (x : E) (l : list E) : Permutation (insort x l) (x :: l).
Proof.
  induction l as [|y l IH]; simpl; trivial.
  destruct (py_lt x y); trivial.
  rewrite IH. apply perm_swap.
Qed.

Lemma sort_perm_from (l acc : list E) :
  Permutation (fold_left (fun acc x => insort x acc) l acc) (l ++ acc).
Proof.
  revert acc. induction l as [|x l IH]; intros acc; simpl; trivial.
  rewrite IH, insort_perm. symmetry. apply Permutation_middle.
Qed.

(** Sorting loses and adds nothing. *)
Lemma sort_perm (l : list E) : Permutation (sort l) l.
Proof.
  unfold sort. rewrite sort_perm_from. now rewrite List.app_nil_r.
Qed.

End SortPermutation.

Section GetTags.

Lemma lookup_tag_in (r : repo) (t : string) :
  In t (tag_names r) -> exists h, lookup_tag r t = Some h.
Proof.
  unfold tag_names, lookup_tag. induction (r_tags r) as [|[k h] l IH]; simpl.
  - intros [].
  - destruct (String.eqb_spec t k) as [->|Hne]; simpl; [eauto|].
    intros [E|Hin]; [congruence | auto].
Qed.

Lemma get_hash_tag (r : repo) (calls : list call) (t : string) :
  In t (tag_names r) ->
  get_hash t (mkState r calls)
  = (Ok (tag_hash r t), mkState r (calls ++ [RevParse t])).
Proof.
  intros Hin. destruct (lookup_tag_in r t Hin) as [h Hh].
  unfold get_hash, GitCalls.rev_parse, tag_hash, bind, record, get_repo, ret.
  simpl. now rewrite Hh.
Qed.

Lemma get_tags_loop_run (r : repo) (pt : list (Version * string)) :
  (forall p, In p pt -> In (snd p) (tag_names r)) ->
  forall tags calls,
    get_tags_loop pt tags (mkState r calls)
    = (Ok (fold_left (fun acc p => od_set acc (snd p)
                                     (fst p, tag_hash r (snd p))) pt tags),
       mkState r (calls ++ map (fun p => RevParse (snd p)) pt)).
Proof.
  induction pt as [|[v t] pt IH]; intros Hin tags calls; simpl.
  - now rewrite List.app_nil_r.
  - unfold bind at 1. rewrite get_hash_tag by (apply (Hin (v, t)); now left).
    rewrite IH by (intros p Hp; apply Hin; now right).
    now rewrite <- List.app_assoc.
Qed.

Lemma valid_of_in (names : list string) (v : Version) (t : string) :
  In (v, t) (valid_of names)
  <-> In t names /\ parse (tag_text t) = IsVersion v.
Proof.
  unfold valid_of. rewrite in_flat_map. split.
  - intros (t' & Hin & Hv). destruct (parse (tag_text t')) eqn:E; simpl in Hv.
    + destruct Hv as [[= <- <-]|[]]. auto.
    + destruct Hv.
  - intros [Hin Hv]. exists t. rewrite Hv. split; [assumption | now left].
Qed.

Lemma ignored_of_in (names : list string) (t : string) (v : option string) :
  In (t, v) (ignored_of names)
  <-> In t names /\ exists s, parse (tag_text t) = IsLegacy s /\ v = Some s.
Proof.
  unfold ignored_of. rewrite in_flat_map. split.
  - intros (t' & Hin & Hv). destruct (parse (tag_text t')) eqn:E; simpl in Hv.
    + destruct Hv.
    + destruct Hv as [[= <- <-]|[]]. eauto.
  - intros [Hin (s & Hs & ->)]. exists t. rewrite Hs.
    split; [assumption | now left].
Qed.

(** [get_tags] on a repository whose tag names are each on one line. *)
Lemma get_tags_run (r : repo) (calls : list call) :
  Forall (fun t => one_line t = true) (tag_names r) ->
  get_tags (mkState r calls)
  = (Ok (tagset_of r, ignored_of (tag_names r)),
     mkState r (calls ++ get_tags_calls r)).
Proof.
  intros Hn. unfold get_tags, GitCalls.tag_list.
  unfold bind at 1 2 3, record, get_repo, ret. cbn [st_repo st_calls].
  rewrite parse_tags_ignored_unlines by assumption.
  unfold bind. rewrite get_tags_loop_run.
  - unfold ret, tagset_of, get_tags_calls.
    now rewrite <- List.app_assoc.
  - intros [v t] Hp.
    apply (Permutation_in _ (sort_perm _)) in Hp.
    now apply valid_of_in in Hp.
Qed.

Lemma od_in_set (tags : TagSet) (k t : string) x :
  od_in t (od_set tags k x) = od_in t tags || String.eqb k t.
Proof.
  induction tags as [|[k' y] tags IH]; simpl.
  - now rewrite orb_false_r.
  - destruct (String.eqb_spec k' k) as [->|Hne]; simpl.
    + fold (od_in t tags).
      now destruct (String.eqb k t), (od_in t tags).
    + rewrite IH. now rewrite orb_assoc.
Qed.

Lemma od_in_fold (r : repo) (pt : list (Version * string)) (t : string) :
  forall tags,
    od_in t (fold_left (fun acc p => od_set acc (snd p)
                                       (fst p, tag_hash r (snd p))) pt tags)
    = od_in t tags || existsb (fun p => String.eqb (snd p) t) pt.
Proof.
  induction pt as [|p pt IH]; intros tags; simpl.
  - now rewrite orb_false_r.
  - rewrite IH, od_in_set. now rewrite orb_assoc.
Qed.

(** A tag is a key of the [TagSet] exactly when it is a tag of the
    repository that parses to a version. *)
Lemma tagset_of_in (r : repo) (t : string) :
  od_in t (tagset_of r) = true
  <-> In t (tag_names r) /\ exists v, parse (tag_text t) = IsVersion v.
Proof.
  unfold tagset_of. rewrite od_in_fold. simpl. rewrite existsb_exists. split.
  - intros ([v t'] & Hin & E). apply String.eqb_eq in E. simpl in E. subst t'.
    apply (Permutation_in _ (sort_perm _)) in Hin.
    apply valid_of_in in Hin as [Hin Hv]. eauto.
  - intros [Hin [v Hv]]. exists (v, t). split; [|apply String.eqb_refl].
    apply (Permutation_in _ (Permutation_sym (sort_perm _))).
    now apply valid_of_in.
Qed.

End GetTags.

Section Reconcile.

Lemma has_tag_in (r : repo) (t : string) :
  has_tag r t = true <-> In t (tag_names r).
Proof.
  unfold has_tag. rewrite existsb_exists. split.
  - intros (x & Hin & E). apply String.eqb_eq in E. now subst x.
  - intros Hin. exists t. split; [assumption | apply String.eqb_refl].
Qed.

Lemma has_tag_not_in (r : repo) (t : string) :
  has_tag r t = false <-> ~ In t (tag_names r).
Proof.
  rewrite <- has_tag_in. destruct (has_tag r t); split; congruence.
Qed.

Lemma in_names_filter (t t' : string) (tags : list (string * string)) :
  t' <> t -> In t' (map fst tags) ->
  In t' (map fst (filter (fun p => negb (String.eqb t (fst p))) tags)).
Proof.
  intros Hne Hin. apply in_map_iff in Hin as ([k h] & E & Hin).
  simpl in E. subst k. apply in_map_iff. exists (t', h). split; trivial.
  apply filter_In. split; trivial. simpl.
  apply negb_true_iff. apply String.eqb_neq. congruence.
Qed.

(** The loop that deletes the ignored tags: every deletion succeeds when
    the tags are different tags of the repository. *)
Lemma delete_ignored_run (ign : list ignored_tag) :
  NoDup (map fst ign) ->
  Forall (fun t => GitCalls.option_like t = false) (map fst ign) ->
  forall (r : repo) (calls : list call),
    (forall t, In t (map fst ign) -> In t (tag_names r)) ->
    delete_ignored ign (mkState r calls)
    = (Ok tt,
       mkState (with_tags r (delete_all (map fst ign) (r_tags r)))
               (calls ++ map TagDelete (map fst ign))).
Proof.
  induction ign as [|[t v] ign IH]; intros Hnd Hop r calls Hin.
  - simpl. rewrite List.app_nil_r. now destruct r.
  - simpl in Hnd. apply NoDup_cons_iff in Hnd as [Hnot Hnd].
    simpl in Hop. inversion Hop as [|? ? Hopt Hop']; subst.
    cbn [delete_ignored]. unfold bind at 1.
    unfold GitCalls.tag_delete, bind at 1 2, record, get_repo.
    cbn [st_repo st_calls]. rewrite Hopt.
    rewrite (proj2 (has_tag_in r t)) by (apply Hin; now left).
    unfold set_tags. cbn [st_repo st_calls].
    rewrite (IH Hnd Hop').
    + simpl. now rewrite <- List.app_assoc.
    + intros t' Ht'. unfold tag_names, with_tags. cbn [r_tags].
      apply in_names_filter.
      * intros ->. contradiction.
      * apply Hin. now right.
Qed.

Lemma ignored_names_in (names : list string) (t : string) :
  In t (map fst (ignored_of names)) -> In t names.
Proof.
  intros Hin. apply in_map_iff in Hin as ([t' v] & E & Hin).
  simpl in E. subst t'. now apply ignored_of_in in Hin.
Qed.

Lemma ignored_names_plain (names : list string) :
  Forall (fun t => GitCalls.option_like t = false) names ->
  Forall (fun t => GitCalls.option_like t = false) (map fst (ignored_of names)).
Proof.
  intros H. apply Forall_forall. intros t Ht.
  apply ignored_names_in in Ht. revert t Ht. now apply Forall_forall.
Qed.

Lemma ignored_names_nodup (names : list string) :
  NoDup names -> NoDup (map fst (ignored_of names)).
Proof.
  induction 1 as [|t names Hnot _ IH]; simpl; [constructor|].
  unfold ignored_of in *. simpl.
  destruct (parse (tag_text t)); simpl; trivial.
  constructor; trivial.
  intros Hin. apply Hnot. now apply ignored_names_in.
Qed.

Lemma default_tag_in_tagset (r : repo) :
  od_in "v0.0" (tagset_of r) = has_tag r "v0.0".
Proof.
  destruct (has_tag r "v0.0") eqn:E.
  - apply tagset_of_in. apply has_tag_in in E. split; trivial.
    eexists. vm_compute. reflexivity.
  - apply has_tag_not_in in E.
    destruct (od_in "v0.0" (tagset_of r)) eqn:F; trivial.
    apply tagset_of_in in F as [Hin _]. contradiction.
Qed.

End Reconcile.

Section ReconcileRuns.

Variable r : repo.
Hypothesis Hwf : wf_tags r.

(** With a tag v0.0 in the repository nothing is added. *)
Lemma reconcile_with_default :
  has_tag r "v0.0" = true ->
  reconcile_tags (mkState r [])
  = (Ok (tagset_of r, ignored_of (tag_names r)),
     mkState (with_tags r (delete_all (map fst (ignored_of (tag_names r)))
                                      (r_tags r)))
             (get_tags_calls r
              ++ map TagDelete (map fst (ignored_of (tag_names r))))).
Proof.
  intros Hhas. destruct Hwf as (Hnd & Hol & Hop).
  unfold reconcile_tags. unfold bind at 1.
  rewrite get_tags_run by assumption. cbn [fst snd].
  rewrite default_tag_in_tagset, Hhas. cbn [negb].
  unfold bind at 1, ret at 1. unfold bind at 1.
  rewrite delete_ignored_run.
  - reflexivity.
  - now apply ignored_names_nodup.
  - now apply ignored_names_plain.
  - apply ignored_names_in.
Qed.

(** Without one, and with a first line of the log that has a hash and a
    subject, the tag is added and the tags are read again. *)
Lemma reconcile_adds_default (h : string) :
  has_tag r "v0.0" = false ->
  first_hash_of (log_lines r) = Ok h ->
  let r' := with_default_tag r h in
  reconcile_tags (mkState r [])
  = (Ok (tagset_of r', ignored_of (tag_names r')),
     mkState (with_tags r' (delete_all (map fst (ignored_of (tag_names r')))
                                       (r_tags r')))
             (get_tags_calls r
              ++ [LogReverse; TagAnnotate "v0.0" dummy_message h]
              ++ get_tags_calls r'
              ++ map TagDelete (map fst (ignored_of (tag_names r'))))).
Proof.
  intros Hhas Hh r'. destruct Hwf as (Hnd & Hol & Hop).
  assert (Hnames : tag_names r' = (tag_names r ++ ["v0.0"])%list).
  { unfold r', with_default_tag, tag_names, with_tags. cbn [r_tags].
    now rewrite map_app. }
  assert (Hnd' : NoDup (tag_names r')).
  { rewrite Hnames. apply NoDup_app; [assumption | repeat constructor; auto |].
    intros t Ht [<-|[]]. now apply has_tag_not_in in Hhas. }
  assert (Hol' : Forall (fun t => one_line t = true) (tag_names r')).
  { rewrite Hnames. apply Forall_app. split; [assumption|].
    repeat constructor. }
  assert (Hop' : Forall (fun t => GitCalls.option_like t = false)
                   (tag_names r')).
  { rewrite Hnames. apply Forall_app. split; [assumption|].
    repeat constructor. }
  unfold reconcile_tags. unfold bind at 1.
  rewrite get_tags_run by assumption. cbn [fst snd].
  rewrite default_tag_in_tagset, Hhas. cbn [negb].
  unfold bind at 1. unfold add_default_tag.
  unfold bind at 1. unfold GitCalls.log_reverse.
  unfold bind at 1 2, record at 1, get_repo at 1, ret at 1.
  cbn [st_repo st_calls]. rewrite Hh.
  unfold bind at 1, lift, ret at 1.
  unfold bind at 1. unfold GitCalls.tag_annotate.
  unfold bind at 1 2, record at 1, get_repo at 1.
  cbn [st_repo st_calls]. rewrite Hhas.
  unfold set_tags. cbn [st_repo st_calls].
  fold dummy_message. fold (with_default_tag r h). fold r'.
  rewrite get_tags_run by assumption.
  cbn [fst snd]. unfold bind at 1.
  rewrite delete_ignored_run.
  - unfold ret. rewrite <- !List.app_assoc. reflexivity.
  - now apply ignored_names_nodup.
  - now apply ignored_names_plain.
  - apply ignored_names_in.
Qed.

End ReconcileRuns.

(** Without one, and with a log that gives no hash, [get_src] raises
    after reading the log: no tag is added and none is deleted. *)
Lemma reconcile_default_fails (r : repo) (e : exn) :
  NoDup (tag_names r) ->
  Forall (fun t => one_line t = true) (tag_names r) ->
  has_tag r "v0.0" = false ->
  first_hash_of (log_lines r) = Raise e ->
  reconcile_tags (mkState r [])
  = (Raise e, mkState r (get_tags_calls r ++ [LogReverse])).
Proof.
  intros Hnd Hol Hhas Hh.
  unfold reconcile_tags. unfold bind at 1.
  rewrite get_tags_run by assumption. cbn [fst snd].
  rewrite default_tag_in_tagset, Hhas. cbn [negb].
  unfold bind at 1. unfold add_default_tag.
  unfold bind at 1. unfold GitCalls.log_reverse.
  unfold bind at 1 2, record at 1, get_repo at 1, ret at 1.
  cbn [st_repo st_calls]. rewrite Hh.
  reflexivity.
Qed.

Section Counting.

Lemma count_app (p : call -> bool) (a b : list call) :
  count p (a ++ b) = (count p a + count p b)%nat.
Proof. unfold count. now rewrite filter_app, length_app. Qed.

Lemma count_get_tags_calls (p : call -> bool) (r : repo) :
  p TagList = false -> (forall t, p (RevParse t) = false) ->
  count p (get_tags_calls r) = 0%nat.
Proof.
  intros H1 H2. unfold count, get_tags_calls. simpl. rewrite H1.
  induction (sort (valid_of (tag_names r))) as [|x l IH]; simpl; trivial.
  now rewrite H2.
Qed.

Lemma count_deletes_other (t : string) (ts : list string) :
  ~ In t ts -> count (is_delete t) (map TagDelete ts) = 0%nat.
Proof.
  unfold count. induction ts as [|x ts IH]; simpl; trivial.
  intros Hnot. destruct (String.eqb_spec x t) as [->|Hne].
  - exfalso. apply Hnot. now left.
  - apply IH. intros Hin. apply Hnot. now right.
Qed.

(** A tag that is once among the tags to delete is deleted once. *)
Lemma count_deletes (t : string) (ts : list string) :
  NoDup ts -> In t ts -> count (is_delete t) (map TagDelete ts) = 1%nat.
Proof.
  induction 1 as [|x ts Hnot Hnd IH]; intros Hin; [destruct Hin|].
  change (map TagDelete (x :: ts)) with ([TagDelete x] ++ map TagDelete ts)%list.
  rewrite count_app. unfold count at 1. simpl.
  destruct (String.eqb_spec x t) as [->|Hne]; simpl.
  - now rewrite count_deletes_other.
  - destruct Hin as [E|Hin]; [congruence|]. now rewrite IH.
Qed.

Lemma count_annotate_deletes (ts : list string) :
  count is_annotate (map TagDelete ts) = 0%nat.
Proof. unfold count. induction ts; simpl; trivial. Qed.

Lemma delete_all_names (ts : list string) :
  forall (tags : list (string * string)) (t : string),
    In t (map fst (delete_all ts tags)) ->
    In t (map fst tags) /\ ~ In t ts.
Proof.
  induction ts as [|x ts IH]; intros tags t Hin; simpl in *; [auto|].
  apply IH in Hin as [Hin Hnot].
  apply in_map_iff in Hin as ([k h] & E & Hin). simpl in E. subst k.
  apply filter_In in Hin as [Hin Hx]. simpl in Hx.
  apply negb_true_iff, String.eqb_neq in Hx. split.
  - apply in_map_iff. now exists (t, h).
  - intros [E|Hts]; [congruence | contradiction].
Qed.

End Counting.

(** ** Ignored tags *)

(** Where the code deletes an ignored tag once.  On a repository whose
    tag names are distinct, each on one line and none read by [git] as an
    option, with a tag v0.0 or a log that gives the first hash, a tag whose
    text is not a version is among the ignored tags of [parse_tags], once,
    with its original line (and the [LegacyVersion] it parsed to) and not
    among the valid ones; [get_src] calls [git tag --delete] for it exactly
    once, after which the tag is gone. *)
Theorem ignored_tag_deleted_once (r : repo) (t : string) :
  wf_tags r ->
  (has_tag r "v0.0" = true \/ exists h, first_hash_of (log_lines r) = Ok h) ->
  In t (tag_names r) ->
  Version_of_string (tag_text t) = None ->
  (In (t, Some (tag_text t))
      (snd (parse_tags_ignored (Py.unlines (tag_names r)))) /\
   count_occ string_dec
     (map fst (snd (parse_tags_ignored (Py.unlines (tag_names r))))) t
   = 1%nat /\
   ~ In t (map snd (parse_tags (Py.unlines (tag_names r))))) /\
  exists tags ignored st,
    reconcile_tags (mkState r []) = (Ok (tags, ignored), st) /\
    In (t, Some (tag_text t)) ignored /\
    od_in t tags = false /\
    count (is_delete t) (st_calls st) = 1%nat /\
    has_tag (st_repo st) t = false.
Proof.
  intros Hwf Hbase Hin Hinv.
  assert (Hleg : parse (tag_text t) = IsLegacy (tag_text t))
    by (unfold parse; now rewrite Hinv).
  assert (Hign : forall names, In t names ->
            In (t, Some (tag_text t)) (ignored_of names))
    by (intros names Hn; apply ignored_of_in; eauto).
  assert (Hnv : forall r0, od_in t (tagset_of r0) = false).
  { intros r0. destruct (od_in t (tagset_of r0)) eqn:E; trivial.
    apply tagset_of_in in E as [_ [v Hv]]. congruence. }
  assert (Hdel : forall (r0 : repo), In t (tag_names r0) ->
            NoDup (tag_names r0) ->
            has_tag (with_tags r0
                       (delete_all (map fst (ignored_of (tag_names r0)))
                                   (r_tags r0))) t = false).
  { intros r0 Hin0 Hnd0. apply has_tag_not_in. intros Hd.
    apply delete_all_names in Hd as [_ Hnot]. apply Hnot.
    apply in_map_iff. exists (t, Some (tag_text t)). auto. }
  assert (Hcnt : forall r0, In t (tag_names r0) -> NoDup (tag_names r0) ->
            count (is_delete t)
                  (map TagDelete (map fst (ignored_of (tag_names r0)))) = 1%nat).
  { intros r0 Hin0 Hnd0. apply count_deletes.
    - now apply ignored_names_nodup.
    - apply in_map_iff. exists (t, Some (tag_text t)). auto. }
  pose proof Hwf as (Hnd & Hol & Hop).
  split.
  - unfold parse_tags. rewrite parse_tags_ignored_unlines by assumption.
    cbn [fst snd]. split; [auto|]. split.
    { apply NoDup_count_occ'; [now apply ignored_names_nodup|].
      apply in_map_iff. exists (t, Some (tag_text t)). auto. }
    intros Hv. apply in_map_iff in Hv as ([v t'] & E & Hv).
    simpl in E. subst t'.
    apply (Permutation_in _ (sort_perm _)) in Hv.
    apply valid_of_in in Hv as [_ Hv]. congruence.
  - destruct (has_tag r "v0.0") eqn:Hhas.
    + rewrite (reconcile_with_default r Hwf Hhas).
      do 3 eexists. split; [reflexivity|].
      cbn [st_calls st_repo]. repeat split; auto.
      rewrite count_app, count_get_tags_calls, Hcnt; auto.
    + destruct Hbase as [Hb|[h Hh]]; [discriminate|].
      rewrite (reconcile_adds_default r Hwf h Hhas Hh).
      assert (Hin' : In t (tag_names (with_default_tag r h))).
      { unfold with_default_tag, tag_names, with_tags. cbn [r_tags].
        rewrite map_app. apply in_or_app. now left. }
      assert (Hnd' : NoDup (tag_names (with_default_tag r h))).
      { unfold with_default_tag, tag_names, with_tags. cbn [r_tags].
        rewrite map_app. apply NoDup_app; [assumption | repeat constructor; auto |].
        intros x Hx [<-|[]]. now apply has_tag_not_in in Hhas. }
      do 3 eexists. split; [reflexivity|].
      cbn [st_calls st_repo]. repeat split; auto.
      rewrite !count_app, !count_get_tags_calls, Hcnt; auto.
Qed.

(** ** The default tag *)

Section FirstHash.

Lemma reverse_app (a b : string) :
  Py.reverse (a ++ b) = Py.reverse b ++ Py.reverse a.
Proof.
  induction a as [|c a IH]; simpl.
  - now rewrite string_app_nil.
  - now rewrite IH, string_app_assoc.
Qed.

Lemma reverse_involutive (a : string) : Py.reverse (Py.reverse a) = a.
Proof.
  induction a as [|c a IH]; simpl; trivial.
  now rewrite reverse_app, IH.
Qed.

Lemma blank_app (a b : string) : blank (a ++ b) = blank a && blank b.
Proof.
  induction a as [|c a IH]; simpl; trivial.
  now rewrite IH, andb_assoc.
Qed.

Lemma blank_reverse (a : string) : blank (Py.reverse a) = blank a.
Proof.
  induction a as [|c a IH]; simpl; trivial.
  rewrite blank_app, IH. simpl. rewrite andb_true_r. apply andb_comm.
Qed.

Lemma lstrip_blank (ws : string) (c : ascii) (r : string) :
  blank ws = true -> Py.isspace c = false ->
  Py.lstrip (ws ++ String c r) = String c r.
Proof.
  intros Hws Hc. induction ws as [|x ws IH]; simpl in *.
  - now rewrite Hc.
  - apply andb_prop in Hws as [Hx Hws]. rewrite Hx. auto.
Qed.

(** [rstrip] cuts the white space behind the last other code point. *)
Lemma rstrip_blank (a : string) (c : ascii) (ws : string) :
  blank ws = true -> Py.isspace c = false ->
  Py.rstrip (a ++ String c ws) = a ++ String c "".
Proof.
  intros Hws Hc. unfold Py.rstrip.
  rewrite reverse_app. simpl. rewrite string_app_assoc. simpl.
  rewrite lstrip_blank by (trivial; now rewrite blank_reverse).
  simpl. now rewrite reverse_involutive.
Qed.

Lemma split1_solid (h tail : string) :
  solid h = true -> Py.split1 " " (h ++ String " " tail) = [h; tail].
Proof.
  induction h as [|c h IH]; simpl; trivial.
  intros Hh. apply andb_prop in Hh as [Hc Hh]. rewrite (IH Hh).
  destruct (Ascii.eqb_spec c " ") as [->|_]; [discriminate Hc | reflexivity].
Qed.

(** The hash that [get_src] reads is the hash of the oldest commit, when
    that hash is a word and the subject of the commit is not blank. *)
Lemma first_hash_of_oldest (r : repo) (c0 : ascii) (h subject : string)
  (rest : list (string * string)) (s1 : string) (c : ascii) (ws : string) :
  r_log r = (String c0 h, subject) :: rest ->
  solid (String c0 h) = true ->
  subject = s1 ++ String c ws -> Py.isspace c = false -> blank ws = true ->
  first_hash_of (log_lines r) = Ok (String c0 h).
Proof.
  intros Hlog Hh -> Hc Hws. unfold first_hash_of, log_lines.
  rewrite Hlog. cbn [map fst snd first_log_line].
  assert (Hc0 : Py.isspace c0 = false).
  { simpl in Hh. apply andb_prop in Hh as [Hc0 _].
    now apply negb_true_iff in Hc0. }
  assert (E : Py.strip (String c0 h ++ " " ++ (s1 ++ String c ws) ++ nl)
              = String c0 h ++ String " " (s1 ++ String c "")).
  { assert (X : String c0 h ++ " " ++ (s1 ++ String c ws) ++ nl
                = (String c0 h ++ " " ++ s1) ++ String c (ws ++ nl)).
    { rewrite !string_app_assoc. reflexivity. }
    rewrite X. unfold Py.strip.
    replace (Py.lstrip ((String c0 h ++ " " ++ s1) ++ String c (ws ++ nl)))
      with ((String c0 h ++ " " ++ s1) ++ String c (ws ++ nl))
      by (simpl; now rewrite Hc0).
    rewrite rstrip_blank; trivial.
    - rewrite !string_app_assoc. reflexivity.
    - rewrite blank_app, Hws. reflexivity. }
  rewrite E. cbn [append].
  change (String c0 (h ++ String " " (s1 ++ String c "")))
    with (String c0 h ++ String " " (s1 ++ String c "")).
  rewrite (split1_solid (String c0 h) _ Hh). reflexivity.
Qed.

End FirstHash.

Lemma find_not_in (n : string) (T : list (string * string)) :
  ~ In n (map fst T) ->
  List.find (fun p => String.eqb n (fst p)) T = None.
Proof.
  induction T as [|[k x] T IH]; simpl; trivial.
  intros Hnot. destruct (String.eqb_spec n k) as [->|_]; [tauto|].
  apply IH. tauto.
Qed.

Lemma find_app_none {A} (f : A -> bool) (l1 l2 : list A) :
  List.find f l1 = None -> List.find f (l1 ++ l2) = List.find f l2.
Proof.
  induction l1 as [|x l1 IH]; simpl; trivial.
  destruct (f x); [discriminate | assumption].
Qed.

(** A tag added last and not deleted is found with its target. *)
Lemma find_after_deletes (n h : string) (ts : list string) :
  forall T : list (string * string),
    ~ In n ts -> ~ In n (map fst T) ->
    option_map snd (List.find (fun p => String.eqb n (fst p))
                              (delete_all ts (T ++ [(n, h)])))
    = Some h.
Proof.
  induction ts as [|x ts IH]; intros T Hts HT.
  - cbn [delete_all fold_left].
    rewrite (find_app_none _ _ _ (find_not_in n T HT)).
    cbn [List.find fst]. now rewrite String.eqb_refl.
  - cbn [delete_all fold_left]. rewrite filter_app. cbn [filter fst].
    destruct (String.eqb_spec x n) as [->|Hne]; [simpl in Hts; tauto|].
    cbn [negb]. apply IH; [simpl in Hts; tauto|].
    intros Hin. apply HT. apply in_map_iff in Hin as (p & E & Hin).
    apply filter_In in Hin as [Hin _]. apply in_map_iff. eauto.
Qed.

(** The default tag is added, once, on the hash read from the log, and
    the tags read afterwards have it, as the tag object made for that hash,
    when the repository has no tag v0.0 and the log gives a hash. *)
Lemma default_tag_added (r : repo) (h : string) :
  wf_tags r ->
  has_tag r "v0.0" = false ->
  first_hash_of (log_lines r) = Ok h ->
  exists tags ignored st,
    reconcile_tags (mkState r []) = (Ok (tags, ignored), st) /\
    od_in "v0.0" tags = true /\
    filter is_annotate (st_calls st) = [TagAnnotate "v0.0" dummy_message h] /\
    lookup_tag (st_repo st) "v0.0"
    = Some (r_tag_object r "v0.0" dummy_message h).
Proof.
  intros Hwf Hhas Hh.
  rewrite (reconcile_adds_default r Hwf h Hhas Hh).
  do 3 eexists. split; [reflexivity|].
  cbn [st_calls st_repo]. split; [|split].
  - rewrite default_tag_in_tagset. apply has_tag_in.
    unfold with_default_tag, tag_names, with_tags. cbn [r_tags].
    rewrite map_app. apply in_or_app. right. now left.
  - rewrite !filter_app.
    assert (G : forall r0, filter is_annotate (get_tags_calls r0) = []).
    { intros r0. unfold get_tags_calls. simpl.
      induction (sort (valid_of (tag_names r0))); simpl; trivial. }
    rewrite !G. simpl.
    induction (map fst (ignored_of (tag_names (with_default_tag r h))));
      simpl; trivial.
  - unfold lookup_tag, with_tags, with_default_tag. cbn [r_tags].
    apply find_after_deletes.
    + intros Hin. apply in_map_iff in Hin as ([t v] & E & Hin).
      simpl in E. subst t. apply ignored_of_in in Hin as [_ (s & Hs & _)].
      vm_compute in Hs. discriminate Hs.
    + now apply has_tag_not_in in Hhas.
Qed.

(** A repository in which no tag parses to the baseline has no tag
    v0.0. *)
Lemma no_baseline_no_default (r : repo) :
  (forall t v, In t (tag_names r) -> parse (tag_text t) = IsVersion v ->
               py_eq v (mkVersion 0 [0; 0] None None None None) = false) ->
  has_tag r "v0.0" = false.
Proof.
  intros Hno. apply has_tag_not_in. intros Hin.
  specialize (Hno "v0.0" _ Hin eq_refl). vm_compute in Hno. discriminate Hno.
Qed.

(** C4, where the code fails: the oldest commit has an empty subject.
    No tag parses to the baseline, so the default tag is due; the line of
    the log is the hash alone once stripped, the unpacking of
    [l.split(" ", 1)] raises [ValueError], and [get_src] ends there: [git
    tag -a] is never called and the repository has no tag v0.0. *)
Theorem default_tag_fails_on_empty_subject :
  let r := {| r_tags := [("v1.0", "5f0c7a7")];
              r_log := [("1cf70ea2", ""); ("5f0c7a7", "Add the core")];
              r_refs := fun _ => None;
              r_describe := fun _ _ => None;
              r_show := fun _ => "";
              r_tag_object := fun _ _ _ => "9a1b2c3";
              r_option := fun _ => false |} in
  wf_tags r /\
  (forall t v, In t (tag_names r) -> parse (tag_text t) = IsVersion v ->
               py_eq v (mkVersion 0 [0; 0] None None None None) = false) /\
  has_tag r "v0.0" = false /\
  first_hash_of (log_lines r) = Raise ValueError /\
  reconcile_tags (mkState r [])
  = (Raise ValueError, mkState r [TagList; RevParse "v1.0"; LogReverse]) /\
  forall branch,
    fst (get_src branch (mkState r [])) = Raise ValueError /\
    count is_annotate (st_calls (snd (get_src branch (mkState r [])))) = 0%nat /\
    has_tag (st_repo (snd (get_src branch (mkState r [])))) "v0.0" = false.
Proof.
  intros r.
  assert (Hwf : wf_tags r).
  { split; repeat constructor. simpl. tauto. }
  assert (Hrun : reconcile_tags (mkState r [])
                 = (Raise ValueError,
                    mkState r [TagList; RevParse "v1.0"; LogReverse]))
    by (vm_compute; reflexivity).
  split; [exact Hwf|].
  split.
  { intros t v [<-|[]] Hv. vm_compute in Hv. injection Hv as <-.
    reflexivity. }
  split; [reflexivity|]. split; [reflexivity|].
  split; [exact Hrun|].
  intros branch. unfold get_src. unfold bind at 1. rewrite Hrun.
  repeat split.
Qed.

(** A repository with the tags v1.0 and junk and no tag v0.0: the default
    tag is added on the first commit and junk is deleted once. *)
Lemma ignored_tag_deleted_once_witness :
  let r := {| r_tags := [("v1.0", "5f0c7a7"); ("junk", "1cf70ea2")];
              r_log := [("1cf70ea2", "Start"); ("5f0c7a7", "Add the core")];
              r_refs := fun _ => None;
              r_describe := fun _ _ => None;
              r_show := fun _ => "";
              r_tag_object := fun _ _ _ => "9a1b2c3";
              r_option := fun _ => false |} in
  wf_tags r /\
  (has_tag r "v0.0" = true \/ exists h, first_hash_of (log_lines r) = Ok h) /\
  In "junk" (tag_names r) /\
  Version_of_string (tag_text "junk") = None /\
  (In ("junk", Some (tag_text "junk"))
      (snd (parse_tags_ignored (Py.unlines (tag_names r)))) /\
   count_occ string_dec
     (map fst (snd (parse_tags_ignored (Py.unlines (tag_names r))))) "junk"
   = 1%nat /\
   ~ In "junk" (map snd (parse_tags (Py.unlines (tag_names r))))) /\
  exists tags ignored st,
    reconcile_tags (mkState r []) = (Ok (tags, ignored), st) /\
    In ("junk", Some (tag_text "junk")) ignored /\
    od_in "junk" tags = false /\
    count (is_delete "junk") (st_calls st) = 1%nat /\
    has_tag (st_repo st) "junk" = false.
Proof.
  intros r.
  assert (Hwf : wf_tags r).
  { split; repeat constructor; simpl; intuition discriminate. }
  assert (Hbase : has_tag r "v0.0" = true
                  \/ exists h, first_hash_of (log_lines r) = Ok h).
  { right. exists "1cf70ea2". reflexivity. }
  assert (Hin : In "junk" (tag_names r)) by (simpl; auto).
  assert (Hinv : Version_of_string (tag_text "junk") = None) by reflexivity.
  split; [exact Hwf|]. split; [exact Hbase|]. split; [exact Hin|].
  split; [exact Hinv|].
  exact (ignored_tag_deleted_once r "junk" Hwf Hbase Hin Hinv).
Defined.

(** [git tag --delete] on a name that is read as an option leaves the
    tags as they are, whether [git] fails on it or not. *)
Lemma tag_delete_option (r : repo) (calls : list call) (name : string) :
  GitCalls.option_like name = true ->
  st_repo (snd (GitCalls.tag_delete name (mkState r calls))) = r.
Proof.
  intros H. unfold GitCalls.tag_delete, bind, record, get_repo, ret, raise.
  cbn [st_repo st_calls]. rewrite H. now destruct (r_option r name).
Qed.

(** C6, where the code fails: three repositories with one tag that is
    not a version.  In the first the name of the tag holds the code point
    U+0085, which [git] accepts and [str.splitlines] takes for the end of a
    line: [parse_tags] ignores the two pieces and not the tag, and
    [git tag --delete] fails on the first piece.  In the second no tag is
    the baseline and the oldest commit has an empty subject: [get_src]
    raises [ValueError] before the loop over the ignored tags.  In the
    third the name starts with a dash: [git] reads it as an option and
    fails.  In all three [get_src] raises, and the tag is still there; and
    whether [git] fails on such a name or not, it deletes no tag. *)
Theorem ignored_tag_not_deleted :
  let t := "old" ++ String (ascii_of_nat 133) "tag" in
  let cut_name := {| r_tags := [("v0.0", "1cf70ea2"); (t, "5f0c7a7")];
                     r_log := [("1cf70ea2", "Start");
                               ("5f0c7a7", "Add the core")];
                     r_refs := fun _ => None;
                     r_describe := fun _ _ => None;
                     r_show := fun _ => "";
                     r_tag_object := fun _ _ _ => "9a1b2c3";
                     r_option := fun _ => false |} in
  let empty_subject := {| r_tags := [("v1.0", "5f0c7a7");
                                     ("junk", "5f0c7a7")];
                          r_log := [("1cf70ea2", "");
                                    ("5f0c7a7", "Add the core")];
                          r_refs := fun _ => None;
                          r_describe := fun _ _ => None;
                          r_show := fun _ => "";
                          r_tag_object := fun _ _ _ => "9a1b2c3";
                          r_option := fun _ => false |} in
  let dash_name := {| r_tags := [("v0.0", "1cf70ea2"); ("-x", "5f0c7a7")];
                      r_log := [("1cf70ea2", "Start");
                                ("5f0c7a7", "Add the core")];
                      r_refs := fun _ => None;
                      r_describe := fun _ _ => None;
                      r_show := fun _ => "";
                      r_tag_object := fun _ _ _ => "9a1b2c3";
                      r_option := fun _ => false |} in
  (NoDup (tag_names cut_name) /\
   Version_of_string (tag_text t) = None /\
   snd (parse_tags_ignored (Py.unlines (tag_names cut_name)))
   = [("old", Some "old"); ("tag", Some "tag")] /\
   reconcile_tags (mkState cut_name [])
   = (Raise CalledProcessError,
      mkState cut_name [TagList; RevParse "v0.0"; TagDelete "old"]) /\
   count (is_delete t) [TagList; RevParse "v0.0"; TagDelete "old"] = 0%nat /\
   has_tag cut_name t = true) /\
  (Version_of_string (tag_text "junk") = None /\
   snd (parse_tags_ignored (Py.unlines (tag_names empty_subject)))
   = [("junk", Some "junk")] /\
   reconcile_tags (mkState empty_subject [])
   = (Raise ValueError,
      mkState empty_subject [TagList; RevParse "v1.0"; LogReverse]) /\
   has_tag empty_subject "junk" = true) /\
  (Version_of_string (tag_text "-x") = None /\
   snd (parse_tags_ignored (Py.unlines (tag_names dash_name)))
   = [("-x", Some "-x")] /\
   reconcile_tags (mkState dash_name [])
   = (Raise CalledProcessError,
      mkState dash_name [TagList; RevParse "v0.0"; TagDelete "-x"]) /\
   has_tag dash_name "-x" = true) /\
  forall branch,
    get_src branch (mkState cut_name [])
    = (Raise CalledProcessError,
       mkState cut_name [TagList; RevParse "v0.0"; TagDelete "old"]) /\
    get_src branch (mkState empty_subject [])
    = (Raise ValueError,
       mkState empty_subject [TagList; RevParse "v1.0"; LogReverse]) /\
    get_src branch (mkState dash_name [])
    = (Raise CalledProcessError,
       mkState dash_name [TagList; RevParse "v0.0"; TagDelete "-x"]) /\
    forall (r : repo) (calls : list call) (name : string),
      GitCalls.option_like name = true ->
      st_repo (snd (GitCalls.tag_delete name (mkState r calls))) = r.
Proof.
  intros t cut_name empty_subject dash_name.
  assert (H1 : reconcile_tags (mkState cut_name [])
               = (Raise CalledProcessError,
                  mkState cut_name [TagList; RevParse "v0.0"; TagDelete "old"]))
    by (vm_compute; reflexivity).
  assert (H2 : reconcile_tags (mkState empty_subject [])
               = (Raise ValueError,
                  mkState empty_subject
                    [TagList; RevParse "v1.0"; LogReverse]))
    by (vm_compute; reflexivity).
  assert (H3 : reconcile_tags (mkState dash_name [])
               = (Raise CalledProcessError,
                  mkState dash_name [TagList; RevParse "v0.0"; TagDelete "-x"]))
    by (vm_compute; reflexivity).
  split; [|split; [|split]].
  - split.
    { repeat constructor; simpl; [|tauto]. intros [H|[]]. discriminate H. }
    split; [reflexivity|]. split; [vm_compute; reflexivity|].
    split; [exact H1|]. split; reflexivity.
  - split; [reflexivity|]. split; [vm_compute; reflexivity|].
    split; [exact H2 | reflexivity].
  - split; [reflexivity|]. split; [vm_compute; reflexivity|].
    split; [exact H3 | reflexivity].
  - intros branch. unfold get_src.
    split; [|split; [|split]];
      [unfold bind at 1; rewrite H1 | unfold bind at 1; rewrite H2
       | unfold bind at 1; rewrite H3 | apply tag_delete_option];
      reflexivity.
Qed.

(** ** Errors in the module loop *)

Section MainLoop.

Local Open Scope main_scope.

Lemma mbind_ok {A B} (ev : list event) (a : A) (k : A -> Main B) :
  mbind (ev, Ok a) k = ((ev ++ fst (k a))%list, snd (k a)).
Proof. unfold mbind. now destruct (k a). Qed.

Lemma mbind_raise {A B} (ev : list event) (e : exn) (k : A -> Main B) :
  mbind (ev, Raise e) k = (ev, Raise e).
Proof. reflexivity. Qed.

(** The loop stops at the first module that raises: the modules behind
    it leave no event. *)
Lemma update_modules_raise (v : Version) (argv : list string)
  (pre : list module_cfg) (m : module_cfg) (post : list module_cfg) (e : exn) :
  snd (update_modules v argv pre) = Ok tt ->
  selected argv m = true ->
  snd (process_module v m) = Raise e ->
  update_modules v argv (pre ++ m :: post)
  = ((fst (update_modules v argv pre) ++ fst (process_module v m))%list,
     Raise e).
Proof.
  intros Hpre Hsel Hm. induction pre as [|p pre IH].
  - simpl. rewrite Hsel.
    destruct (process_module v m) as [ev res]. simpl in Hm. subst res.
    reflexivity.
  - simpl in *.
    destruct (if selected argv p then process_module v p else mret tt)
      as [ev [[]|e']].
    + rewrite !mbind_ok in Hpre |- *. cbn [fst snd] in Hpre |- *.
      rewrite (IH Hpre). cbn [fst snd]. rewrite mbind_ok. cbn [fst]. now rewrite List.app_assoc.
    + discriminate Hpre.
Qed.

End MainLoop.

(** A hand-provided description from which [parse_tags] does not read
    exactly one version fails the assertion of [main]. *)
Lemma ambiguous_description_raises (v : Version) (m : module_cfg)
  (d h ty c : string) :
  m_type m = Some ty -> m_contents m = Some c ->
  m_src m = None -> m_git_describe m = Some d -> m_git_hash m = Some h ->
  List.length (parse_tags d) <> 1%nat ->
  process_module v m = ([StartModule (m_name m)], Raise AssertionError).
Proof.
  intros Hty Hc Hsrc Hd Hh Hlen. unfold process_module, data_version_of.
  rewrite Hty, Hc, Hsrc, Hd, Hh.
  apply Nat.eqb_neq in Hlen. cbn [assert]. rewrite Hlen. reflexivity.
Qed.

(** C5, as the code has it: the module a has a description that gives
    two versions, and the mirror of the module c has no tag that [git
    describe] accepts; the module b is in order.  In both runs [main] raises
    at the first module and the module b is never started. *)
Lemma module_error_stops_main :
  let tool := {| r_tags := [("v1.0", "5f0c7a7")];
                 r_log := [("5f0c7a7", "Start")];
                 r_refs := fun _ => Some "1cf70ea2";
                 r_describe := fun _ _ => Some "v1.0-3-g1cf70ea2";
                 r_show := fun _ => "";
                 r_tag_object := fun _ _ _ => "9a1b2c3";
                 r_option := fun _ => false |} in
  let upstream := {| r_tags := [("v0.0", "5f0c7a7")];
                     r_log := [("5f0c7a7", "Start")];
                     r_refs := fun _ => Some "5f0c7a7";
                     r_describe := fun _ _ => None;
                     r_show := fun _ => "";
                     r_tag_object := fun _ _ _ => "9a1b2c3";
                     r_option := fun _ => false |} in
  let a := mkModule "a" "master" None
             (Some (Py.unlines ["v1.0-0-g5f0c7a7"; "v2.0-0-g1cf70ea2"]))
             (Some "1cf70ea2") (Ok true) (Ok tt) (Ok tt) (Ok tt)
             (Some "cpu") (Some "verilog") in
  let b := mkModule "b" "master" None (Some "v1.0-2-g5f0c7a7")
             (Some "5f0c7a7") (Ok true) (Ok tt) (Ok tt) (Ok tt)
             (Some "cpu") (Some "verilog") in
  let c := mkModule "c" "master" (Some upstream) None None
             (Ok true) (Ok tt) (Ok tt) (Ok tt)
             (Some "cpu") (Some "verilog") in
  snd (main [] tool false [b]) = Ok 0 /\
  main [] tool false [a; b] = ([StartModule "a"], Raise AssertionError) /\
  snd (main [] tool false [c; b]) = Raise CalledProcessError /\
  ~ In (StartModule "b") (fst (main [] tool false [c; b])).
Proof.
  intros tool upstream a b c.
  split; [vm_compute; reflexivity|].
  split; [vm_compute; reflexivity|].
  split; [vm_compute; reflexivity|].
  vm_compute. intros [H|[H|[]]]; discriminate H.
Qed.

(** C5, amended: an exception raised while one module is processed is
    not caught: [main] raises it, after the events of the modules before
    and of the module itself, and no later module is started. *)
Theorem module_error_aborts_run (argv : list string) (tool : repo)
  (token : bool) (pre : list module_cfg) (m : module_cfg)
  (post : list module_cfg) (e : exn) (d : string) (v : Version) (st : state) :
  git_describe "HEAD" (mkState tool []) = (Ok (d, IsVersion v), st) ->
  snd (update_modules v (without_push argv) pre) = Ok tt ->
  selected (without_push argv) m = true ->
  snd (process_module v m) = Raise e ->
  main argv tool token (pre ++ m :: post)
  = ((fst (update_modules v (without_push argv) pre)
      ++ fst (process_module v m))%list,
     Raise e).
Proof.
  intros Hd Hpre Hsel Hm. unfold main. rewrite Hd.
  unfold mlift. cbv beta iota zeta.
  rewrite mbind_ok. cbn [fst snd version_tuple_checked].
  rewrite mbind_ok. cbn [fst snd].
  rewrite (update_modules_raise v _ pre m post e Hpre Hsel Hm).
  rewrite mbind_raise. reflexivity.
Qed.

(** The modules a and b again: b is in order, a comes first and raises. *)
Lemma module_error_aborts_run_witness :
  let tool := {| r_tags := [("v1.0", "5f0c7a7")];
                 r_log := [("5f0c7a7", "Start")];
                 r_refs := fun _ => Some "1cf70ea2";
                 r_describe := fun _ _ => Some "v1.0-3-g1cf70ea2";
                 r_show := fun _ => "";
                 r_tag_object := fun _ _ _ => "9a1b2c3";
                 r_option := fun _ => false |} in
  let a := mkModule "a" "master" None
             (Some (Py.unlines ["v1.0-0-g5f0c7a7"; "v2.0-0-g1cf70ea2"]))
             (Some "1cf70ea2") (Ok true) (Ok tt) (Ok tt) (Ok tt)
             (Some "cpu") (Some "verilog") in
  let b := mkModule "b" "master" None (Some "v1.0-2-g5f0c7a7")
             (Some "5f0c7a7") (Ok true) (Ok tt) (Ok tt) (Ok tt)
             (Some "cpu") (Some "verilog") in
  let v := mkVersion 0 [1; 0] None (Some ("post", 3)) None None in
  main ["--push"] tool true ([b] ++ a :: [b])
  = ((fst (update_modules v (without_push ["--push"]) [b])
      ++ fst (process_module v a))%list,
     Raise AssertionError).
Proof.
  intros tool a b v.
  apply (module_error_aborts_run ["--push"] tool true [b] a [b] AssertionError
           "v1.0-3-g1cf70ea2" v
           (mkState tool [Describe "HEAD"])).
  - reflexivity.
  - reflexivity.
  - reflexivity.
  - reflexivity.
Defined.

(** * Further properties *)

(** ** What the pattern reads from dotted numbers *)

Section DottedVersions.

Import Re.
Local Open Scope re_scope.

(** Up to the release: white space, [v], epoch and release on a dotted
    run of numbers, whatever follows it, as long as that is no digit, no
    [!] and no further component of the release. *)
Lemma release_prefix (c : ascii) (d : string) (l : list string) (r : string)
  (K : option string -> string -> matcher groups) (y : groups * string) :
  all_digits (String c d) = true ->
  Forall (fun x => all_digits x = true /\ x <> "") l ->
  stops r -> lit "!" r = [] -> (lit "." ;;; digits) r = [] ->
  hd_error (K None (dotted (String c d) l) r) = Some y ->
  hd_error ((star_class Py.isspace ;;; opt (lit "v") ;;;
             e <- p_epoch ;; rel <- p_release ;; K e rel)
              (dotted (String c d) l ++ r))
  = Some y.
Proof.
  intros Hd Hl Hstop Hbang Hdot HK.
  assert (Hc : Py.isdigit c = true) by (simpl in Hd; now apply andb_prop in Hd).
  set (rest := Py.cat (map (fun x => "." ++ x) l) ++ r).
  assert (Hrest : stops rest /\ lit "!" rest = []).
  { subst rest. destruct l; simpl; [auto|]. split; [apply stops_dot | reflexivity]. }
  assert (E : dotted (String c d) l ++ r = String c d ++ rest).
  { unfold dotted. now rewrite string_app_assoc. }
  apply (hd_bind _ _ _ "" (String c d ++ rest)).
  { rewrite E. simpl. now rewrite (digit_not_space c Hc). }
  apply (hd_bind _ _ _ None (String c d ++ rest)).
  { rewrite opt_nil; [reflexivity|].
    simpl. rewrite (digit_lower c Hc).
    destruct (Ascii.eqb_spec c "v") as [->|]; [discriminate Hc | reflexivity]. }
  apply (hd_bind _ _ _ None (String c d ++ rest)).
  { rewrite p_epoch_none; tauto. }
  apply (hd_bind _ _ _ (dotted (String c d) l) r); [|exact HK].
  rewrite <- E. now apply (p_release_dotted c d l).
Qed.

Lemma p_pre_l_at_digit (c : ascii) (r : string) :
  Py.isdigit c = true -> p_pre_l (String c r) = [].
Proof.
  intros Hc. unfold p_pre_l, alt.
  rewrite (lit_at_digit "a" "" c r eq_refl Hc).
  rewrite (lit_at_digit "b" "" c r eq_refl Hc).
  rewrite (lit_at_digit "c" "" c r eq_refl Hc).
  rewrite (lit_at_digit "r" "c" c r eq_refl Hc).
  rewrite (lit_at_digit "a" "lpha" c r eq_refl Hc).
  rewrite (lit_at_digit "b" "eta" c r eq_refl Hc).
  rewrite (lit_at_digit "p" "re" c r eq_refl Hc).
  rewrite (lit_at_digit "p" "review" c r eq_refl Hc).
  reflexivity.
Qed.

(** The pattern on a dotted run of numbers alone. *)
Lemma regex_search_release (c : ascii) (d : string) (l : list string) :
  all_digits (String c d) = true ->
  Forall (fun x => all_digits x = true /\ x <> "") l ->
  regex_search (dotted (String c d) l)
  = Some {| g_epoch := None;
            g_release := dotted (String c d) l;
            g_pre_l := None; g_pre_n := None;
            g_post_n1 := None; g_post_l := None; g_post_n2 := None;
            g_dev_l := None; g_dev_n := None;
            g_local := None |}.
Proof.
  intros Hd Hl. unfold regex_search. apply hd_first_match.
  rewrite <- (string_app_nil (dotted (String c d) l)) at 1.
  unfold version_pattern.
  apply release_prefix; trivial; try reflexivity.
  apply stops_empty.
Qed.

(** The pattern on a dotted run of numbers followed by [-] and a number,
    the form in which [git describe] gives the distance. *)
Lemma regex_search_distance (c : ascii) (d : string) (l : list string)
  (c' : ascii) (ds : string) :
  all_digits (String c d) = true ->
  Forall (fun x => all_digits x = true /\ x <> "") l ->
  all_digits (String c' ds) = true ->
  regex_search (dotted (String c d) l ++ "-" ++ String c' ds)
  = Some {| g_epoch := None;
            g_release := dotted (String c d) l;
            g_pre_l := None; g_pre_n := None;
            g_post_n1 := Some (String c' ds);
            g_post_l := None; g_post_n2 := None;
            g_dev_l := None; g_dev_n := None;
            g_local := None |}.
Proof.
  intros Hd Hl Hds. unfold regex_search. apply hd_first_match.
  assert (Hc' : Py.isdigit c' = true)
    by (simpl in Hds; now apply andb_prop in Hds).
  unfold version_pattern.
  apply release_prefix; trivial; try reflexivity.
  { intros x r' [= <- _]. reflexivity. }
  apply (hd_bind _ _ _ None ("-" ++ String c' ds)).
  { unfold p_pre. rewrite opt_nil; [reflexivity|].
    apply bind_nil. unfold sep, opt, alt, fmap, class, ret. simpl.
    repeat constructor; simpl; unfold bind;
      rewrite ?(p_pre_l_at_digit c' ds Hc'); reflexivity. }
  apply (hd_bind _ _ _ (Some (Some (String c' ds), None, None)) "").
  { unfold p_post. apply hd_opt. apply hd_alt_l.
    eapply hd_bind; [reflexivity|].
    eapply hd_bind; [|reflexivity].
    rewrite <- (string_app_nil (String c' ds)) at 1.
    apply digits_run; [assumption | apply stops_empty]. }
  reflexivity.
Qed.

End DottedVersions.

Section PlainVersions.

Lemma Version_of_release (n0 : N) (ns : list N) :
  Version_of_string (Py.join "." (map Py.str (n0 :: ns)))
  = Some (plain (n0 :: ns) None).
Proof.
  cbn [map]. rewrite join_dotted.
  pose proof (str_digits n0) as H0. pose proof (strs_digits ns) as Hns.
  destruct (str_nonempty n0) as (c0 & d0 & E0).
  unfold Version_of_string. rewrite E0 in *.
  rewrite regex_search_release by assumption.
  cbn [g_epoch g_release g_pre_l g_pre_n g_post_n1 g_post_l g_post_n2
       g_dev_l g_dev_n g_local].
  rewrite split_dotted by assumption. rewrite <- E0.
  change (map Py.int (Py.str n0 :: map Py.str ns))
    with (map Py.int (map Py.str (n0 :: ns))).
  now rewrite map_map, (map_ext _ (fun x => x) int_str), map_id.
Qed.

Lemma Version_of_distance (n0 : N) (ns : list N) (n : N) :
  Version_of_string (Py.join "." (map Py.str (n0 :: ns)) ++ "-" ++ Py.str n)
  = Some (plain (n0 :: ns) (Some n)).
Proof.
  cbn [map]. rewrite join_dotted.
  pose proof (str_digits n0) as H0. pose proof (str_digits n) as Hn.
  pose proof (strs_digits ns) as Hns.
  destruct (str_nonempty n0) as (c0 & d0 & E0).
  destruct (str_nonempty n) as (c & d & E).
  unfold Version_of_string. rewrite E0, E in *.
  rewrite regex_search_distance by assumption.
  cbn [g_epoch g_release g_pre_l g_pre_n g_post_n1 g_post_l g_post_n2
       g_dev_l g_dev_n g_local].
  rewrite split_dotted by assumption. rewrite <- E0, <- E.
  change (map Py.int (Py.str n0 :: map Py.str ns))
    with (map Py.int (map Py.str (n0 :: ns))).
  rewrite map_map, (map_ext _ (fun x => x) int_str), map_id.
  unfold plain. cbn [option_map parse_letter_version].
  now rewrite int_str.
Qed.

Lemma to_str_plain (ns : list N) (p : option N) :
  to_str (plain ns p)
  = Py.join "." (map Py.str ns)
    ++ match p with Some n => ".post" ++ Py.str n | None => "" end.
Proof.
  unfold to_str, plain, release, post, dev, local. simpl.
  destruct p; simpl; now rewrite ?string_app_nil.
Qed.

End PlainVersions.


(** ** Descriptions *)

Section DescribeStrings.

Lemma solid_app (a b : string) : solid (a ++ b) = solid a && solid b.
Proof.
  induction a as [|c a IH]; simpl; trivial. now rewrite IH, andb_assoc.
Qed.

Lemma solid_reverse (a : string) : solid (Py.reverse a) = solid a.
Proof.
  induction a as [|c a IH]; simpl; trivial.
  rewrite solid_app, IH. simpl. rewrite andb_true_r. apply andb_comm.
Qed.

Lemma lstrip_solid (s : string) : solid s = true -> Py.lstrip s = s.
Proof.
  destruct s as [|c s]; simpl; trivial.
  intros H. apply andb_prop in H as [Hc _].
  apply negb_true_iff in Hc. now rewrite Hc.
Qed.

Lemma lstrip_blank_solid (ws s : string) :
  blank ws = true -> solid s = true -> Py.lstrip (ws ++ s) = s.
Proof.
  intros Hws Hs. induction ws as [|x ws IH]; simpl in *.
  - now apply lstrip_solid.
  - apply andb_prop in Hws as [Hx Hws]. rewrite Hx. auto.
Qed.

(** [strip] cuts the white space around a text that has none inside. *)
Lemma strip_solid (s ws : string) :
  solid s = true -> blank ws = true -> Py.strip (s ++ ws) = s.
Proof.
  intros Hs Hws. unfold Py.strip, Py.rstrip.
  destruct s as [|c s].
  - assert (L : forall b, blank b = true -> Py.lstrip b = "").
    { induction b as [|x b IH]; simpl; trivial.
      intros H. apply andb_prop in H as [Hx Hb]. rewrite Hx. auto. }
    simpl. now rewrite (L ws Hws).
  - assert (E : Py.lstrip (String c s ++ ws) = String c s ++ ws).
    { simpl in *. apply andb_prop in Hs as [Hc _].
      apply negb_true_iff in Hc. now rewrite Hc. }
    rewrite E, reverse_app.
    rewrite lstrip_blank_solid;
      [apply reverse_involutive | now rewrite blank_reverse
       | now rewrite solid_reverse].
Qed.

Lemma digits_solid (s : string) : all_digits s = true -> solid s = true.
Proof.
  induction s as [|c s IH]; simpl; trivial.
  intros H. apply andb_prop in H as [Hc Hs].
  now rewrite (digit_not_space c Hc), IH.
Qed.

Lemma digits_lack (x : ascii) (s : string) :
  Py.isdigit x = false -> all_digits s = true -> lacks x s = true.
Proof.
  intros Hx. induction s as [|c s IH]; simpl; trivial.
  intros H. apply andb_prop in H as [Hc Hs]. rewrite (IH Hs), andb_true_r.
  apply negb_true_iff. destruct (Ascii.eqb_spec c x); congruence.
Qed.

Lemma lacks_app (x : ascii) (a b : string) :
  lacks x (a ++ b) = lacks x a && lacks x b.
Proof.
  induction a as [|c a IH]; simpl; trivial. now rewrite IH, andb_assoc.
Qed.

Lemma lacks_reverse (x : ascii) (a : string) :
  lacks x (Py.reverse a) = lacks x a.
Proof.
  induction a as [|c a IH]; simpl; trivial.
  rewrite lacks_app, IH. simpl. rewrite andb_true_r. apply andb_comm.
Qed.

(** The first cut of [split] is at the first separator. *)
Lemma split1_lacks (x : ascii) (h tail : string) :
  lacks x h = true -> Py.split1 x (h ++ String x tail) = [h; tail].
Proof.
  induction h as [|c h IH]; simpl.
  - now rewrite Ascii.eqb_refl.
  - intros H. apply andb_prop in H as [Hc Hh]. rewrite (IH Hh).
    apply negb_true_iff in Hc. now rewrite Hc.
Qed.

Lemma split1_none (x : ascii) (h : string) :
  lacks x h = true -> Py.split1 x h = [h].
Proof.
  induction h as [|c h IH]; simpl; trivial.
  intros H. apply andb_prop in H as [Hc Hh]. rewrite (IH Hh).
  apply negb_true_iff in Hc. now rewrite Hc.
Qed.

(** The two cuts of [rsplit] are at the last two separators. *)
Lemma rsplit2_three (x : ascii) (a b c : string) :
  lacks x b = true -> lacks x c = true ->
  Py.rsplit2 x (a ++ String x (b ++ String x c)) = [a; b; c].
Proof.
  intros Hb Hc. unfold Py.rsplit2.
  rewrite reverse_app. cbn [Py.reverse]. rewrite reverse_app. cbn [Py.reverse].
  replace ((((Py.reverse c ++ String x "") ++ Py.reverse b) ++ String x "")
           ++ Py.reverse a)
    with (Py.reverse c ++ String x (Py.reverse b ++ String x (Py.reverse a)))
    by (rewrite !string_app_assoc; reflexivity).
  rewrite split1_lacks by now rewrite lacks_reverse.
  rewrite split1_lacks by now rewrite lacks_reverse.
  now rewrite !reverse_involutive.
Qed.

End DescribeStrings.

Section DescribeTexts.

Lemma str_solid (n : N) : solid (Py.str n) = true.
Proof. apply digits_solid, str_digits. Qed.

Lemma str_lacks (x : ascii) (n : N) :
  Py.isdigit x = false -> lacks x (Py.str n) = true.
Proof. intros Hx. apply digits_lack; [assumption | apply str_digits]. Qed.

Lemma dotted_solid (ns : list N) : solid (Py.join "." (map Py.str ns)) = true.
Proof.
  induction ns as [|n ns IH]; trivial.
  destruct ns as [|m ns]; [apply str_solid|].
  change (Py.join "." (map Py.str (n :: m :: ns)))
    with (Py.str n ++ "." ++ Py.join "." (map Py.str (m :: ns))).
  rewrite !solid_app, str_solid, IH. reflexivity.
Qed.

Lemma dotted_lacks_dash (ns : list N) :
  lacks "-" (Py.join "." (map Py.str ns)) = true.
Proof.
  induction ns as [|n ns IH]; trivial.
  destruct ns as [|m ns]; [now apply str_lacks|].
  change (Py.join "." (map Py.str (n :: m :: ns)))
    with (Py.str n ++ "." ++ Py.join "." (map Py.str (m :: ns))).
  rewrite !lacks_app, str_lacks, IH by reflexivity. reflexivity.
Qed.

Lemma startswith_head (c : ascii) (r : string) :
  Py.startswith (String c r) (String c "") = true.
Proof.
  unfold Py.startswith. simpl.
  destruct (ascii_dec c c) as [_|Hne]; [now destruct r | congruence].
Qed.

Lemma describe_text_solid (ns : list N) (n : N) (h : string) :
  solid h = true -> solid (describe_text ns n h) = true.
Proof.
  intros Hh. unfold describe_text.
  rewrite !solid_app, dotted_solid, str_solid, Hh. reflexivity.
Qed.

(** What [git_describe] makes of the text: the text itself, and the
    version with the numbers of the tag and the distance as post count. *)
Lemma describe_text_parsed (n0 : N) (ns : list N) (n : N) (h : string) :
  solid h = true -> lacks "-" h = true ->
  let d := Py.strip (describe_text (n0 :: ns) n h ++ Py.nl) in
  d = describe_text (n0 :: ns) n h /\
  Py.startswith d "v" = true /\
  Py.rsplit2 "-" (Py.drop1 d)
  = [Py.join "." (map Py.str (n0 :: ns)); Py.str n; "g" ++ h] /\
  parse (Py.join "." (map Py.str (n0 :: ns)) ++ "-" ++ Py.str n)
  = IsVersion (plain (n0 :: ns) (Some n)).
Proof.
  intros Hs Hl d.
  assert (Ed : d = describe_text (n0 :: ns) n h).
  { subst d. apply strip_solid; [now apply describe_text_solid | reflexivity]. }
  rewrite Ed. split; [reflexivity|].
  split; [apply startswith_head|]. split.
  - unfold describe_text. cbn [Py.drop1 append].
    change (Py.join "." (map Py.str (n0 :: ns)) ++ "-" ++ Py.str n ++ "-g" ++ h)
      with (Py.join "." (map Py.str (n0 :: ns))
            ++ String "-" (Py.str n ++ String "-" ("g" ++ h))).
    apply rsplit2_three; [now apply str_lacks|].
    simpl. exact Hl.
  - unfold parse. now rewrite Version_of_distance.
Qed.

End DescribeTexts.

Lemma git_describe_run (r : repo) (calls : list call) (ref : string)
  (n0 : N) (ns : list N) (n : N) (h : string) :
  r_describe r (tag_names r) ref = Some (describe_text (n0 :: ns) n h) ->
  solid h = true -> lacks "-" h = true ->
  git_describe ref (mkState r calls)
  = (Ok (describe_text (n0 :: ns) n h, IsVersion (plain (n0 :: ns) (Some n))),
     mkState r (calls ++ [Describe ref])).
Proof.
  intros Hd Hs Hl.
  destruct (describe_text_parsed n0 ns n h Hs Hl) as (Ed & Hv & Hsplit & Hp).
  unfold git_describe, GitCalls.describe, bind, record, get_repo, ret.
  cbn [st_repo st_calls]. rewrite Hd. unfold nl.
  cbv zeta in Ed, Hv, Hsplit. rewrite Hv, Hsplit, Hp, Ed. reflexivity.
Qed.

(** When [git describe] prints a tag [v] with dotted numbers, a distance
    and a hash, [git_describe] returns that text and the version whose
    release is the numbers and whose post count is the distance; the
    repository is left as it was and [git] was called once. *)
Theorem git_describe_dotted (r : repo) (calls : list call) (ref : string)
  (n0 : N) (ns : list N) (n : N) (h : string) :
  r_describe r (tag_names r) ref = Some (describe_text (n0 :: ns) n h) ->
  solid h = true -> lacks "-" h = true ->
  git_describe ref (mkState r calls)
  = (Ok (describe_text (n0 :: ns) n h, IsVersion (plain (n0 :: ns) (Some n))),
     mkState r (calls ++ [Describe ref])).
Proof. apply git_describe_run. Qed.

(** The description of the doctests: v1.0.1, 265 commits, hash 5f0c7a7. *)
Lemma git_describe_dotted_witness :
  let r := {| r_tags := [("v1.0.1", "5f0c7a7")];
              r_log := [("5f0c7a7", "Start")];
              r_refs := fun _ => None;
              r_describe := fun _ _ => Some "v1.0.1-265-g5f0c7a7";
              r_show := fun _ => "";
              r_tag_object := fun _ _ _ => "9a1b2c3";
              r_option := fun _ => false |} in
  git_describe "master" (mkState r [])
  = (Ok ("v1.0.1-265-g5f0c7a7", IsVersion (plain [1; 0; 1] (Some 265))),
     mkState r [Describe "master"]).
Proof.
  intros r.
  exact (git_describe_dotted r [] "master" 1 [0; 1] 265 "5f0c7a7"
           eq_refl eq_refl eq_refl).
Defined.

Section FewDashes.

Lemma occurrences_app (x : ascii) (a b : string) :
  occurrences x (a ++ b) = (occurrences x a + occurrences x b)%nat.
Proof. induction a as [|c a IH]; simpl; trivial. rewrite IH. lia. Qed.

Lemma occurrences_reverse (x : ascii) (a : string) :
  occurrences x (Py.reverse a) = occurrences x a.
Proof.
  induction a as [|c a IH]; simpl; trivial.
  rewrite occurrences_app, IH. simpl. lia.
Qed.

(** [split(sep, 1)] gives one piece without a separator and two pieces
    with one, the second piece with one separator less. *)
Lemma split1_pieces (x : ascii) (s : string) :
  (occurrences x s = 0%nat /\ Py.split1 x s = [s]) \/
  (exists h r, Py.split1 x s = [h; r] /\
               occurrences x s = S (occurrences x r)).
Proof.
  induction s as [|c s IH]; simpl.
  - now left.
  - destruct (Ascii.eqb c x) eqn:E.
    + right. exists "", s. auto.
    + destruct IH as [[H0 Hs]|(h & r & Hs & Ho)]; rewrite Hs.
      * left. auto.
      * right. exists (String c h), r. auto.
Qed.

(** [rsplit(sep, 2)] gives three pieces exactly when there are two
    separators or more. *)
Lemma rsplit2_length (x : ascii) (s : string) :
  List.length (Py.rsplit2 x s) = S (Nat.min 2 (occurrences x s)).
Proof.
  unfold Py.rsplit2. rewrite <- (occurrences_reverse x s).
  destruct (split1_pieces x (Py.reverse s)) as [[H0 Hs]|(h & r & Hs & Ho)];
    rewrite Hs.
  - now rewrite H0.
  - rewrite Ho.
    destruct (split1_pieces x r) as [[H0 Hr]|(h' & r' & Hr & Ho')];
      rewrite Hr.
    + now rewrite H0.
    + now rewrite Ho'.
Qed.

End FewDashes.

(** [git_describe] raises [ValueError] exactly when the description,
    without its [v], has fewer than two dashes: the unpacking of
    [o.rsplit('-', 2)] needs three pieces. *)
Theorem git_describe_value_error (r : repo) (calls : list call)
  (ref out : string) :
  r_describe r (tag_names r) ref = Some out ->
  let d := Py.strip (out ++ Py.nl) in
  let o := if Py.startswith d "v" then Py.drop1 d else d in
  (fst (git_describe ref (mkState r calls)) = Raise ValueError
   <-> (occurrences "-" o < 2)%nat) /\
  ((2 <= occurrences "-" o)%nat ->
   exists v, fst (git_describe ref (mkState r calls)) = Ok (d, v)).
Proof.
  intros Hd d o.
  unfold git_describe, GitCalls.describe, bind, record, get_repo, ret.
  cbn [st_repo st_calls]. rewrite Hd. unfold nl. fold d. fold o.
  pose proof (rsplit2_length "-" o) as Hlen.
  destruct (Py.rsplit2 "-" o) as [|t [|c [|h [|x l]]]];
    cbn [List.length fst] in *.
  - lia.
  - split; [split; [intros _; lia | reflexivity] | intros; lia].
  - split; [split; [intros _; lia | reflexivity] | intros; lia].
  - split; [split; [discriminate | intros; lia] | eauto].
  - lia.
Qed.

(** A description without the distance and the hash, as [git describe]
    prints it without [--long] on a tagged commit. *)
Lemma git_describe_value_error_witness :
  let r := {| r_tags := [("v1.0.1", "5f0c7a7")];
              r_log := [("5f0c7a7", "Start")];
              r_refs := fun _ => None;
              r_describe := fun _ _ => Some "v1.0.1";
              r_show := fun _ => "";
              r_tag_object := fun _ _ _ => "9a1b2c3";
              r_option := fun _ => false |} in
  fst (git_describe "master" (mkState r [])) = Raise ValueError.
Proof.
  intros r.
  apply (proj1 (git_describe_value_error r [] "master" "v1.0.1" eq_refl)).
  vm_compute. lia.
Defined.

Section DescribeLine.

Lemma prefix_empty (s : string) : String.prefix "" s = true.
Proof. now destruct s. Qed.

Lemma prefix_dash_g_other (c : ascii) (s : string) :
  Ascii.eqb c "-" = false -> String.prefix "-g" (String c s) = false.
Proof.
  intros Hc. cbn [String.prefix].
  destruct (ascii_dec "-" c) as [<-|_]; [discriminate Hc | reflexivity].
Qed.

Lemma find_dash_g_skip (a rest : string) :
  lacks "-" a = true ->
  Py.find (a ++ rest) "-g"
  = option_map (fun k => (String.length a + k)%nat) (Py.find rest "-g").
Proof.
  induction a as [|c a IH]; intros Ha.
  - simpl. destruct (Py.find rest "-g"); reflexivity.
  - simpl in Ha. apply andb_prop in Ha as [Hc Ha].
    apply negb_true_iff in Hc.
    cbn [append Py.find]. rewrite (prefix_dash_g_other c _ Hc).
    rewrite (IH Ha). destruct (Py.find rest "-g"); reflexivity.
Qed.

Lemma take_app (a b : string) : Py.take (String.length a) (a ++ b) = a.
Proof. induction a as [|c a IH]; simpl; [now destruct b | now rewrite IH]. Qed.

(** The first [-g] of a description is the one before the hash. *)
Lemma find_dash_g_describe (T : string) (n : N) (h : string) :
  lacks "-" T = true ->
  Py.find (T ++ "-" ++ Py.str n ++ "-g" ++ h) "-g"
  = Some (String.length (T ++ "-" ++ Py.str n)).
Proof.
  intros HT. rewrite find_dash_g_skip by assumption.
  destruct (str_nonempty n) as (c & ds & E).
  pose proof (str_digits n) as Hn. pose proof (str_lacks "-" n eq_refl) as Hl.
  rewrite E in *.
  assert (Hc : Py.isdigit c = true) by (simpl in Hn; now apply andb_prop in Hn).
  assert (Hg : String.prefix "-g" ("-" ++ String c ds ++ "-g" ++ h) = false).
  { cbn [append String.prefix].
    destruct (ascii_dec "-" "-") as [_|Hne]; [|congruence].
    destruct (ascii_dec "g" c) as [<-|_]; [discriminate Hc | reflexivity]. }
  change (Py.find ("-" ++ String c ds ++ "-g" ++ h) "-g")
    with (if String.prefix "-g" ("-" ++ String c ds ++ "-g" ++ h) then Some O
          else option_map S (Py.find (String c ds ++ "-g" ++ h) "-g")).
  rewrite Hg, (find_dash_g_skip (String c ds) ("-g" ++ h) Hl).
  assert (H0 : Py.find ("-g" ++ h) "-g" = Some O).
  { cbn [append Py.find String.prefix].
    destruct (ascii_dec "-" "-") as [_|Hne]; [|congruence].
    destruct (ascii_dec "g" "g") as [_|Hne]; [|congruence].
    now rewrite prefix_empty. }
  rewrite H0. cbn [option_map]. f_equal.
  rewrite !string_length_app. simpl. lia.
Qed.

Lemma solid_one_line (s : string) : solid s = true -> one_line s = true.
Proof.
  induction s as [|c s IH]; simpl; trivial.
  intros H. apply andb_prop in H as [Hc Hs]. rewrite (IH Hs), andb_true_r.
  revert Hc. destruct c as [[|] [|] [|] [|] [|] [|] [|] [|]];
    vm_compute; congruence.
Qed.

(** A text on one line is its one line. *)
Lemma splitlines_from_one (acc s : string) :
  one_line s = true ->
  Py.splitlines_from acc s
  = match acc ++ s with EmptyString => [] | _ => [acc ++ s] end.
Proof.
  revert acc. induction s as [|c s IH]; intros acc Hs; simpl in *.
  - rewrite string_app_nil. reflexivity.
  - apply andb_prop in Hs as [Hc Hs]. apply negb_true_iff in Hc.
    rewrite Hc, (IH _ Hs), string_app_assoc. reflexivity.
Qed.

(** The text that [parse_tags] hands to the parser for a description. *)
Lemma tag_text_describe (n0 : N) (ns : list N) (n : N) (h : string) :
  solid h = true ->
  tag_text (describe_text (n0 :: ns) n h)
  = Py.join "." (map Py.str (n0 :: ns)) ++ "-" ++ Py.str n.
Proof.
  intros Hh.
  set (T := Py.join "." (map Py.str (n0 :: ns))).
  assert (Hstrip : Py.strip (describe_text (n0 :: ns) n h)
                   = describe_text (n0 :: ns) n h).
  { rewrite <- (string_app_nil (describe_text (n0 :: ns) n h)) at 1.
    apply strip_solid; [now apply describe_text_solid | reflexivity]. }
  assert (Hsw : Py.startswith (describe_text (n0 :: ns) n h) "v" = true)
    by apply startswith_head.
  assert (Hdrop : Py.drop1 (describe_text (n0 :: ns) n h)
                  = (T ++ "-" ++ Py.str n) ++ "-g" ++ h).
  { unfold describe_text. fold T. cbn [Py.drop1 append].
    now rewrite !string_app_assoc. }
  assert (Hfind : Py.find ((T ++ "-" ++ Py.str n) ++ "-g" ++ h) "-g"
                  = Some (String.length (T ++ "-" ++ Py.str n))).
  { rewrite <- (find_dash_g_describe T n h) by apply dotted_lacks_dash.
    now rewrite !string_app_assoc. }
  unfold tag_text. rewrite Hstrip, Hsw, Hdrop, Hfind.
  apply take_app.
Qed.

End DescribeLine.

(** [parse_tags] reads a description of [git describe], a tag [v] with
    dotted numbers, a distance and a hash, as exactly one entry: the
    description itself as the tag, and the version whose release is the
    numbers and whose post count is the distance.  This is the version that
    [git_describe] returns when [git] prints the same description. *)
Theorem parse_tags_describe (n0 : N) (ns : list N) (n : N) (h : string) :
  solid h = true ->
  parse_tags (describe_text (n0 :: ns) n h)
  = [(plain (n0 :: ns) (Some n), describe_text (n0 :: ns) n h)] /\
  (lacks "-" h = true ->
   forall (r : repo) (calls : list call) (ref : string),
     r_describe r (tag_names r) ref = Some (describe_text (n0 :: ns) n h) ->
     fst (git_describe ref (mkState r calls))
     = Ok (describe_text (n0 :: ns) n h,
           IsVersion (plain (n0 :: ns) (Some n)))).
Proof.
  intros Hh.
  assert (E : parse_tags (describe_text (n0 :: ns) n h)
              = [(plain (n0 :: ns) (Some n), describe_text (n0 :: ns) n h)]).
  { unfold parse_tags, parse_tags_ignored, Py.splitlines.
    rewrite splitlines_from_one
      by (apply solid_one_line; now apply describe_text_solid).
    cbn [append]. unfold describe_text at 1. cbn [append].
    fold (describe_text (n0 :: ns) n h).
    change (String "v" (Py.join "." (map Py.str (n0 :: ns)) ++ "-"
                        ++ Py.str n ++ "-g" ++ h))
      with (describe_text (n0 :: ns) n h).
    cbn [parse_lines]. rewrite (tag_text_describe n0 ns n h Hh).
    unfold parse. rewrite Version_of_distance. reflexivity. }
  split; [exact E|].
  intros Hl r calls ref Hd.
  now rewrite (git_describe_run r calls ref n0 ns n h Hd Hh Hl).
Qed.

Lemma parse_tags_describe_witness :
  parse_tags "v1.0.1-265-g5f0c7a7"
  = [(plain [1; 0; 1] (Some 265), "v1.0.1-265-g5f0c7a7")].
Proof.
  exact (proj1 (parse_tags_describe 1 [0; 1] 265 "5f0c7a7" eq_refl)).
Defined.

(** ** How [version_join] adds *)

Section Alignment.

Lemma nth_nil_zero (i : nat) : nth i (@nil N) 0 = 0.
Proof. now destruct i. Qed.

(** The sums of two padded releases, place by place from the last
    component on: a place that one release lacks counts as 0. *)
Lemma sums_nth (xs ys : list N) (i : nat) :
  nth i (sums (map Some xs ++ repeat (Some 0) (List.length ys - List.length xs))
              (map Some ys ++ repeat (Some 0) (List.length xs - List.length ys)))
        0
  = nth i xs 0 + nth i ys 0.
Proof.
  revert ys i. induction xs as [|x xs IH]; intros ys.
  - induction ys as [|y ys IHy]; intros i.
    + now destruct i.
    + destruct i as [|i]; [reflexivity|].
      specialize (IHy i). simpl in IHy |- *.
      rewrite Nat.sub_0_r in IHy. rewrite IHy. now destruct i.
  - intros i. destruct ys as [|y ys].
    + destruct i as [|i]; [simpl; lia|].
      specialize (IH [] i). simpl in IH |- *.
      rewrite Nat.sub_0_r in IH. rewrite IH. now destruct i.
    + destruct i as [|i]; [reflexivity|]. simpl. apply IH.
Qed.

End Alignment.

(** With a post count on either side, [version_join] adds the releases
    place by place from the last component on, and the post counts: the
    result is as long as the longer release, its component [i] from the
    right is the sum of the components [i] from the right (0 where a release
    is shorter), and its post count is the sum of the post counts. *)
Theorem version_join_right_aligned (a b v : Version) :
  version_join a b = Ok v ->
  no_post a b = false ->
  List.length (release v)
  = Nat.max (List.length (release a)) (List.length (release b)) /\
  (forall i, nth i (rev (release v)) 0
             = nth i (rev (release a)) 0 + nth i (rev (release b)) 0) /\
  post v = Some (match post a with Some p => p | None => 0 end
                 + match post b with Some p => p | None => 0 end).
Proof.
  intros Hv Hnp. rewrite version_join_sums in Hv.
  pose proof (sums_count a b) as Hn. rewrite Hnp in Hn.
  destruct (sums (padded a b) (padded b a)) as [|n [|m ms]] eqn:E;
    try discriminate.
  injection Hv as <-.
  rewrite !padded_shape in E. unfold no_post in Hnp.
  unfold release, post in *. cbn [v_release v_post option_map snd].
  change (rev ms ++ [m])%list with (rev (m :: ms)).
  rewrite rev_involutive, length_rev.
  assert (Hms : n = match option_map snd (v_post a) with
                        | Some p => p | None => 0 end
                    + match option_map snd (v_post b) with
                      | Some p => p | None => 0 end /\
                m :: ms
                = sums (map Some (rev (v_release a))
                        ++ repeat (Some 0) (List.length (rev (v_release b))
                                            - List.length (rev (v_release a))))
                       (map Some (rev (v_release b))
                        ++ repeat (Some 0) (List.length (rev (v_release a))
                                            - List.length (rev (v_release b))))).
  { rewrite !length_rev.
    destruct (option_map snd (v_post a)), (option_map snd (v_post b));
      try discriminate; simpl in E; injection E as <- <-; auto. }
  destruct Hms as [-> Hms].
  split; [cbn [List.length] in Hn |- *; lia|]. split; [|reflexivity].
  intros i. rewrite Hms. apply sums_nth.
Qed.

(** 1.2.post3 and 3.4.5.post4 give 3.5.7.post7. *)
Lemma version_join_right_aligned_witness :
  let a := plain [1; 2] (Some 3) in
  let b := plain [3; 4; 5] (Some 4) in
  let v := plain [3; 5; 7] (Some 7) in
  version_join a b = Ok v /\
  List.length (release v) = 3%nat /\
  (forall i, nth i (rev (release v)) 0
             = nth i (rev (release a)) 0 + nth i (rev (release b)) 0) /\
  post v = Some 7.
Proof.
  intros a b v.
  assert (Hv : version_join a b = Ok v) by (vm_compute; reflexivity).
  split; [exact Hv|].
  exact (version_join_right_aligned a b v Hv eq_refl).
Defined.

(** Without a post count on either side, the sum of the last components
    becomes the post count and the release is made of the sums of the
    components before: the release is one shorter than the longer one. *)
Theorem version_join_shifts_without_post (a b v : Version) :
  version_join a b = Ok v ->
  no_post a b = true ->
  S (List.length (release v))
  = Nat.max (List.length (release a)) (List.length (release b)) /\
  (forall i, nth i (rev (release v)) 0
             = nth (S i) (rev (release a)) 0 + nth (S i) (rev (release b)) 0).
Proof.
  intros Hv Hnp. rewrite version_join_sums in Hv.
  pose proof (sums_count a b) as Hn. rewrite Hnp in Hn.
  destruct (sums (padded a b) (padded b a)) as [|n [|m ms]] eqn:E;
    try discriminate.
  injection Hv as <-.
  rewrite !padded_shape in E. unfold no_post in Hnp.
  unfold release, post in *. cbn [v_release].
  change (rev ms ++ [m])%list with (rev (m :: ms)).
  rewrite rev_involutive, length_rev.
  destruct (option_map snd (v_post a)), (option_map snd (v_post b));
    try discriminate. cbn [sums] in E.
  split; [cbn [List.length] in Hn |- *; lia|].
  intros i.
  rewrite <- (length_rev (v_release a)), <- (length_rev (v_release b)) in E.
  pose proof (sums_nth (rev (v_release a)) (rev (v_release b)) (S i)) as H.
  rewrite E in H. exact H.
Qed.

(** The docstring example: 1.2 and 3.4.5 give 3.5.post7. *)
Lemma version_join_shifts_without_post_witness :
  let a := plain [1; 2] None in
  let b := plain [3; 4; 5] None in
  let v := plain [3; 5] (Some 7) in
  version_join a b = Ok v /\
  S (List.length (release v)) = 3%nat /\
  (forall i, nth i (rev (release v)) 0
             = nth (S i) (rev (release a)) 0 + nth (S i) (rev (release b)) 0).
Proof.
  intros a b v.
  assert (Hv : version_join a b = Ok v) by (vm_compute; reflexivity).
  split; [exact Hv|].
  exact (version_join_shifts_without_post a b v Hv eq_refl).
Defined.

(** [version_join] reads nothing but the release and the post count of
    its arguments, and its result has no epoch, pre-release, development
    release or local part, whatever the arguments have. *)
Theorem version_join_forgets (a a' b v : Version) :
  release a = release a' -> post a = post a' ->
  version_join a b = Ok v ->
  version_join a' b = Ok v /\
  v_epoch v = 0 /\ v_pre v = None /\ v_dev v = None /\ v_local v = None.
Proof.
  intros Hr Hp Hv. split.
  - rewrite <- Hv. unfold version_join, version_join_text, version_tuple.
    now rewrite Hr, Hp.
  - rewrite version_join_sums in Hv.
    destruct (sums (padded a b) (padded b a)) as [|n [|m ms]];
      try discriminate.
    injection Hv as <-. auto.
Qed.

(** The release candidate 1.2rc1 joins like 1.2. *)
Lemma version_join_forgets_witness :
  let a := mkVersion 0 [1; 2] (Some ("rc", 1)) None None None in
  let a' := plain [1; 2] None in
  let b := plain [3; 4; 5] None in
  let v := plain [3; 5] (Some 7) in
  version_join a b = Ok v /\ version_join a' b = Ok v /\
  v_epoch v = 0 /\ v_pre v = None /\ v_dev v = None /\ v_local v = None.
Proof.
  intros a a' b v.
  assert (Hv : version_join a b = Ok v) by (vm_compute; reflexivity).
  split; [exact Hv|].
  exact (version_join_forgets a a' b v eq_refl eq_refl Hv).
Defined.

(** ** What [parse_tags] keeps *)

Section Partition.

Lemma valid_ignored_perm (lines : list string) :
  Permutation (map snd (valid_of lines) ++ map fst (ignored_of lines)) lines.
Proof.
  unfold valid_of, ignored_of.
  induction lines as [|t lines IH]; simpl; trivial.
  destruct (parse (tag_text t)); simpl.
  - now constructor.
  - rewrite <- Permutation_middle. now constructor.
Qed.

Lemma valid_of_names (lines : list string) :
  map snd (valid_of lines) = filter is_valid lines.
Proof.
  unfold valid_of, is_valid. induction lines as [|t lines IH]; simpl; trivial.
  destruct (parse (tag_text t)); simpl; now rewrite IH.
Qed.

Lemma ignored_of_names (lines : list string) :
  map fst (ignored_of lines) = filter (fun t => negb (is_valid t)) lines.
Proof.
  unfold ignored_of, is_valid. induction lines as [|t lines IH]; simpl; trivial.
  destruct (parse (tag_text t)); simpl; now rewrite IH.
Qed.

End Partition.

(** [parse_tags] loses no line and invents none: the tags it keeps and
    the tags it ignores are, together, the lines of its input, each as
    often as it is there; an ignored entry carries the [LegacyVersion] of
    the text that was parsed. *)
Theorem parse_tags_partition (d : string) :
  Permutation (map snd (fst (parse_tags_ignored d))
               ++ map fst (snd (parse_tags_ignored d)))
              (Py.splitlines d) /\
  (forall t v, In (t, v) (snd (parse_tags_ignored d)) ->
               v = Some (tag_text t) /\ Version_of_string (tag_text t) = None) /\
  (forall v t, In (v, t) (fst (parse_tags_ignored d)) ->
               Version_of_string (tag_text t) = Some v).
Proof.
  unfold parse_tags_ignored. rewrite parse_lines_split. cbn [app fst snd].
  split; [|split].
  - rewrite (Permutation_map snd (sort_perm (valid_of (Py.splitlines d)))).
    apply valid_ignored_perm.
  - intros t v Hin. apply ignored_of_in in Hin as [_ (s & Hs & ->)].
    unfold parse in Hs. destruct (Version_of_string (tag_text t)); [discriminate|].
    injection Hs as <-. auto.
  - intros v t Hin. apply (Permutation_in _ (sort_perm _)) in Hin.
    apply valid_of_in in Hin as [_ Hv]. unfold parse in Hv.
    destruct (Version_of_string (tag_text t)); [|discriminate].
    now injection Hv as <-.
Qed.

(** ** The repository after [get_src] *)

Section Reconciled.

Lemma filter_filter {A} (f g : A -> bool) (l : list A) :
  filter f (filter g l) = filter (fun x => g x && f x) l.
Proof.
  induction l as [|x l IH]; simpl; trivial.
  destruct (g x); simpl; [destruct (f x)|]; now rewrite IH.
Qed.

(** Deleting tags one after the other keeps the tags that are none of
    them. *)
Lemma delete_all_filter (ts : list string) (T : list (string * string)) :
  delete_all ts T
  = filter (fun p => negb (existsb (fun t => String.eqb t (fst p)) ts)) T.
Proof.
  revert T. induction ts as [|x ts IH]; intros T; simpl.
  - induction T as [|p T IHT]; simpl; congruence.
  - unfold delete_all in IH. rewrite IH, filter_filter.
    apply filter_ext. intros p. now rewrite negb_orb.
Qed.

Lemma map_fst_filter (f : string -> bool) (T : list (string * string)) :
  map fst (filter (fun p => f (fst p)) T) = filter f (map fst T).
Proof.
  induction T as [|p T IH]; simpl; trivial.
  destruct (f (fst p)); simpl; now rewrite IH.
Qed.

Lemma is_valid_default : is_valid "v0.0" = true.
Proof. reflexivity. Qed.

(** After the deletions the tags are the tags that parse to a version. *)
Lemma reconciled_tags (r : repo) :
  r_tags (reconciled r)
  = filter (fun p => is_valid (fst p)) (r_tags (with_default r)).
Proof.
  unfold reconciled. cbn [with_tags r_tags].
  rewrite delete_all_filter. apply filter_ext_in. intros p Hp.
  rewrite ignored_of_names.
  destruct (is_valid (fst p)) eqn:E.
  - apply negb_true_iff. apply not_true_is_false. intros H.
    apply existsb_exists in H as (t & Hin & Ht).
    apply String.eqb_eq in Ht. subst t.
    apply filter_In in Hin as [_ Hv]. rewrite E in Hv. discriminate.
  - apply negb_false_iff. apply existsb_exists. exists (fst p).
    split; [|apply String.eqb_refl].
    apply filter_In. split; [now apply in_map | now rewrite E].
Qed.

Lemma reconciled_names (r : repo) :
  tag_names (reconciled r) = filter is_valid (tag_names (with_default r)).
Proof.
  unfold tag_names at 1. rewrite reconciled_tags. apply map_fst_filter.
Qed.

Lemma ignored_of_valid (lines : list string) :
  ignored_of (filter is_valid lines) = [].
Proof.
  unfold ignored_of, is_valid. induction lines as [|t lines IH]; simpl; trivial.
  destruct (parse (tag_text t)) eqn:E; simpl; [|exact IH].
  now rewrite E.
Qed.

Lemma with_tags_same (r : repo) : with_tags r (r_tags r) = r.
Proof. now destruct r. Qed.

Lemma with_default_names (r : repo) :
  tag_names (with_default r) = tag_names r
  \/ (has_tag r "v0.0" = false /\
      tag_names (with_default r) = (tag_names r ++ ["v0.0"])%list).
Proof.
  unfold with_default. destruct (has_tag r "v0.0") eqn:E; [now left|].
  destruct (first_hash_of (log_lines r)); [|now left].
  right. split; trivial.
  unfold with_default_tag, tag_names, with_tags. cbn [r_tags].
  now rewrite map_app.
Qed.

Lemma with_default_wf (r : repo) : wf_tags r -> wf_tags (with_default r).
Proof.
  intros (Hnd & Hol & Hop). unfold wf_tags.
  destruct (with_default_names r) as [->|[Hhas ->]]; [now repeat split|].
  split; [|split].
  - apply NoDup_app; [assumption | repeat constructor; auto |].
    intros t Ht [<-|[]]. now apply has_tag_not_in in Hhas.
  - apply Forall_app. split; [assumption | repeat constructor].
  - apply Forall_app. split; [assumption | repeat constructor].
Qed.

Lemma reconciled_wf (r : repo) : wf_tags r -> wf_tags (reconciled r).
Proof.
  intros Hwf. apply with_default_wf in Hwf as (Hnd & Hol & Hop).
  unfold wf_tags. rewrite reconciled_names. split; [|split].
  - now apply NoDup_filter.
  - apply Forall_forall. intros t Ht. apply filter_In in Ht as [Ht _].
    rewrite Forall_forall in Hol. now apply Hol.
  - apply Forall_forall. intros t Ht. apply filter_In in Ht as [Ht _].
    rewrite Forall_forall in Hop. now apply Hop.
Qed.

(** The first part of [get_src] on a repository that has the tag v0.0 or
    a log that gives the first hash. *)
Lemma reconcile_tags_run (r : repo) :
  wf_tags r ->
  (has_tag r "v0.0" = true \/ exists h, first_hash_of (log_lines r) = Ok h) ->
  exists calls,
    reconcile_tags (mkState r [])
    = (Ok (tagset_of (with_default r), ignored_of (tag_names (with_default r))),
       mkState (reconciled r) calls) /\
    has_tag (with_default r) "v0.0" = true.
Proof.
  intros Hwf Hbase. unfold reconciled, with_default.
  destruct (has_tag r "v0.0") eqn:Hhas.
  - rewrite (reconcile_with_default r Hwf Hhas). eauto.
  - destruct Hbase as [Hb|[h Hh]]; [discriminate|].
    rewrite (reconcile_adds_default r Hwf h Hhas Hh), Hh.
    eexists. split; [reflexivity|].
    apply has_tag_in. unfold with_default_tag, tag_names, with_tags.
    cbn [r_tags]. rewrite map_app. apply in_or_app. right. now left.
Qed.

End Reconciled.

(** When [get_src] has reconciled the tags of a repository whose tag
    names are distinct, each on one line and none read by [git] as an
    option, the repository has the tag
    v0.0 and exactly those of its former tags that parse to a version: no
    valid tag is deleted, no ignored tag is left.  Reconciling it again
    finds nothing to do: no tag is added or deleted, nothing is ignored and
    the repository stays as it is. *)
Theorem reconcile_tags_settles (r : repo) :
  wf_tags r ->
  (has_tag r "v0.0" = true \/ exists h, first_hash_of (log_lines r) = Ok h) ->
  exists ti calls,
    reconcile_tags (mkState r []) = (Ok ti, mkState (reconciled r) calls) /\
    has_tag (reconciled r) "v0.0" = true /\
    (forall t, In t (tag_names (reconciled r))
               <-> In t (tag_names r ++ ["v0.0"]) /\ is_valid t = true) /\
    reconcile_tags (mkState (reconciled r) [])
    = (Ok (tagset_of (reconciled r), []),
       mkState (reconciled r) (get_tags_calls (reconciled r))).
Proof.
  intros Hwf Hbase.
  destruct (reconcile_tags_run r Hwf Hbase) as (calls & Hrun & Hhas).
  assert (Hhas1 : has_tag (reconciled r) "v0.0" = true).
  { apply has_tag_in. rewrite reconciled_names. apply filter_In.
    split; [now apply has_tag_in | reflexivity]. }
  do 2 eexists. split; [exact Hrun|]. split; [exact Hhas1|]. split.
  - intros t. rewrite reconciled_names, filter_In.
    apply has_tag_in in Hhas.
    destruct (with_default_names r) as [E|[_ E]]; rewrite E in *.
    + rewrite in_app_iff. simpl. intuition (subst; auto).
    + reflexivity.
  - rewrite (reconcile_with_default _ (reconciled_wf r Hwf) Hhas1).
    assert (Hign : ignored_of (tag_names (reconciled r)) = [])
      by (rewrite reconciled_names; apply ignored_of_valid).
    rewrite Hign. cbn [map delete_all fold_left].
    now rewrite with_tags_same, List.app_nil_r.
Qed.

(** The tags v1.0 and junk, no tag v0.0. *)
Lemma reconcile_tags_settles_witness :
  let r := {| r_tags := [("v1.0", "5f0c7a7"); ("junk", "1cf70ea2")];
              r_log := [("1cf70ea2", "Start"); ("5f0c7a7", "Add the core")];
              r_refs := fun _ => None;
              r_describe := fun _ _ => None;
              r_show := fun _ => "";
              r_tag_object := fun _ _ _ => "9a1b2c3";
              r_option := fun _ => false |} in
  tag_names (reconciled r) = ["v1.0"; "v0.0"] /\
  exists ti calls,
    reconcile_tags (mkState r []) = (Ok ti, mkState (reconciled r) calls) /\
    has_tag (reconciled r) "v0.0" = true /\
    (forall t, In t (tag_names (reconciled r))
               <-> In t (tag_names r ++ ["v0.0"]) /\ is_valid t = true) /\
    reconcile_tags (mkState (reconciled r) [])
    = (Ok (tagset_of (reconciled r), []),
       mkState (reconciled r) (get_tags_calls (reconciled r))).
Proof.
  intros r. split; [reflexivity|].
  apply reconcile_tags_settles.
  - split; repeat constructor; simpl; intuition discriminate.
  - right. exists "1cf70ea2". reflexivity.
Defined.

(** ** The [TagSet] *)

Section TagSetOrder.

Lemma od_set_fresh (tags : TagSet) (k : string) x :
  od_in k tags = false -> od_set tags k x = (tags ++ [(k, x)])%list.
Proof.
  induction tags as [|[k' y] tags IH]; simpl; trivial.
  intros H. apply orb_false_iff in H as [Hk Hin].
  rewrite Hk. now rewrite IH.
Qed.

Lemma od_in_app (tags tags' : TagSet) (k : string) :
  od_in k (tags ++ tags')%list = od_in k tags || od_in k tags'.
Proof. unfold od_in. apply existsb_app. Qed.

Lemma fold_od_set_fresh (F : Version * string -> Version * string)
  (pt : list (Version * string)) :
  NoDup (map snd pt) ->
  forall acc : TagSet,
    (forall p, In p pt -> od_in (snd p) acc = false) ->
    fold_left (fun acc p => od_set acc (snd p) (F p)) pt acc
    = (acc ++ map (fun p => (snd p, F p)) pt)%list.
Proof.
  induction pt as [|p pt IH]; intros Hnd acc Hacc; simpl.
  - now rewrite List.app_nil_r.
  - simpl in Hnd. apply NoDup_cons_iff in Hnd as [Hnot Hnd].
    rewrite od_set_fresh by (apply Hacc; now left).
    rewrite IH; trivial.
    + now rewrite <- List.app_assoc.
    + intros q Hq. rewrite od_in_app, (Hacc q) by now right.
      simpl. rewrite orb_false_r. apply String.eqb_neq.
      intros E. apply Hnot. rewrite E. now apply in_map.
Qed.

Lemma valid_names_nodup (names : list string) :
  NoDup names -> NoDup (map snd (sort (valid_of names))).
Proof.
  intros Hnd.
  apply (Permutation_NoDup
           (Permutation_sym (Permutation_map snd (sort_perm (valid_of names))))).
  rewrite valid_of_names. now apply NoDup_filter.
Qed.

End TagSetOrder.

(** [get_tags] reads and changes nothing: its [TagSet] has the tags that
    [parse_tags] keeps, once each, in the order of [parse_tags] (ascending
    versions, not the order of the listing), each with its version and the
    hash that [git rev-parse] gives for it; it asks [git] for the list and
    once for each of these tags. *)
Theorem get_tags_in_version_order (r : repo) (calls : list call) :
  NoDup (tag_names r) ->
  Forall (fun t => one_line t = true) (tag_names r) ->
  let pt := parse_tags (Py.unlines (tag_names r)) in
  get_tags (mkState r calls)
  = (Ok (map (fun p => (snd p, (fst p, tag_hash r (snd p)))) pt,
         snd (parse_tags_ignored (Py.unlines (tag_names r)))),
     mkState r (calls ++ TagList :: map (fun p => RevParse (snd p)) pt)).
Proof.
  intros Hnd Hol pt. subst pt. unfold parse_tags.
  rewrite get_tags_run, parse_tags_ignored_unlines by assumption.
  cbn [fst snd]. unfold tagset_of, get_tags_calls.
  rewrite (fold_od_set_fresh (fun p => (fst p, tag_hash r (snd p))));
    [reflexivity | now apply valid_names_nodup | reflexivity].
Qed.

(** The tags v1.0, junk and v0.0 in this order: v0.0 comes first in the
    [TagSet]. *)
Lemma get_tags_in_version_order_witness :
  let r := {| r_tags := [("v1.0", "5f0c7a7"); ("junk", "1cf70ea2");
                         ("v0.0", "1cf70ea2")];
              r_log := [("1cf70ea2", "Start"); ("5f0c7a7", "Add the core")];
              r_refs := fun _ => None;
              r_describe := fun _ _ => None;
              r_show := fun _ => "";
              r_tag_object := fun _ _ _ => "9a1b2c3";
              r_option := fun _ => false |} in
  map fst (map (fun p => (snd p, (fst p, tag_hash r (snd p))))
               (parse_tags (Py.unlines (tag_names r))))
  = ["v0.0"; "v1.0"] /\
  get_tags (mkState r [])
  = (Ok (map (fun p => (snd p, (fst p, tag_hash r (snd p))))
             (parse_tags (Py.unlines (tag_names r))),
         snd (parse_tags_ignored (Py.unlines (tag_names r)))),
     mkState r ([] ++ TagList :: map (fun p => RevParse (snd p))
                                    (parse_tags (Py.unlines (tag_names r))))).
Proof.
  intros r. split; [reflexivity|].
  apply (get_tags_in_version_order r []).
  - repeat constructor; simpl; intuition discriminate.
  - repeat constructor.
Defined.

(** ** [get_src] from end to end *)

Section GetSrc.

Lemma reconciled_fields (r : repo) :
  r_refs (reconciled r) = r_refs r /\
  r_describe (reconciled r) = r_describe r /\
  r_show (reconciled r) = r_show r.
Proof.
  unfold reconciled, with_default, with_default_tag.
  destruct (has_tag r "v0.0"); [auto|].
  destruct (first_hash_of (log_lines r)); auto.
Qed.

Lemma get_hash_ref (r : repo) (calls : list call) (ref h : string) :
  lookup_tag r ref = None -> r_refs r ref = Some h ->
  get_hash ref (mkState r calls)
  = (Ok (Py.strip (h ++ Py.nl)), mkState r (calls ++ [RevParse ref])).
Proof.
  intros Hl Hr.
  unfold get_hash, GitCalls.rev_parse, bind, record, get_repo, ret.
  cbn [st_repo st_calls]. now rewrite Hl, Hr.
Qed.

End GetSrc.

(** [get_src] from end to end, on a repository with distinct one-line
    tag names, none read by [git] as an option, that has the tag v0.0 or a
    log that gives the first hash: when
    the branch resolves to a hash and [git describe] prints, for the tags
    that are left, a dotted tag with a distance, the data version is the
    dotted numbers with [.post] and the distance, the version tuple is the
    numbers followed by the distance, and the repository is left with its
    tags reconciled. *)
Theorem get_src_dotted (r : repo) (branch hh : string)
  (n0 : N) (ns : list N) (n : N) (h : string) :
  wf_tags r ->
  (has_tag r "v0.0" = true \/ exists f, first_hash_of (log_lines r) = Ok f) ->
  lookup_tag (reconciled r) branch = None ->
  r_refs r branch = Some hh ->
  r_describe r (tag_names (reconciled r)) branch
  = Some (describe_text (n0 :: ns) n h) ->
  solid h = true -> lacks "-" h = true ->
  exists ti st,
    get_src branch (mkState r [])
    = (Ok (ti,
           {| data_git_describe := describe_text (n0 :: ns) n h;
              data_git_hash := Py.strip (hh ++ Py.nl);
              data_version_tuple := (map Some (n0 :: ns) ++ [Some n])%list;
              data_version :=
                Py.join "." (map Py.str (n0 :: ns)) ++ ".post" ++ Py.str n;
              git_msg := r_show r (Py.strip (hh ++ Py.nl)) |}),
       st) /\
    st_repo st = reconciled r.
Proof.
  intros Hwf Hbase Hlook Href Hdesc Hs Hl.
  destruct (reconcile_tags_run r Hwf Hbase) as (calls & Hrun & _).
  destruct (reconciled_fields r) as (Er & Ed & Es).
  unfold get_src. unfold bind at 1. rewrite Hrun.
  unfold bind at 1.
  rewrite (get_hash_ref (reconciled r) calls branch hh Hlook)
    by (now rewrite Er).
  unfold bind at 1. unfold GitCalls.log_one.
  unfold bind at 1 2, record at 1, get_repo at 1, ret at 1.
  cbn [st_repo st_calls].
  unfold bind at 1.
  rewrite (git_describe_run (reconciled r) _ branch n0 ns n h)
    by (trivial; now rewrite Ed).
  cbn [snd fst version_tuple_checked lift]. unfold bind at 1, ret at 1.
  unfold ret. cbn [parsed_str]. rewrite to_str_plain, Es.
  do 2 eexists. split; reflexivity.
Qed.

(** The mirror of the witness above, on the branch master. *)
Lemma get_src_dotted_witness :
  let r := {| r_tags := [("v1.0", "5f0c7a7"); ("junk", "1cf70ea2")];
              r_log := [("1cf70ea2", "Start"); ("5f0c7a7", "Add the core")];
              r_refs := fun _ => Some "5f0c7a7";
              r_describe := fun _ _ => Some "v1.0-0-g5f0c7a7";
              r_show := fun _ => "Add the core";
              r_tag_object := fun _ _ _ => "9a1b2c3";
              r_option := fun _ => false |} in
  exists ti st,
    get_src "master" (mkState r [])
    = (Ok (ti,
           {| data_git_describe := describe_text [1; 0] 0 "5f0c7a7";
              data_git_hash := Py.strip ("5f0c7a7" ++ Py.nl);
              data_version_tuple := (map Some [1; 0] ++ [Some 0])%list;
              data_version :=
                Py.join "." (map Py.str [1; 0]) ++ ".post" ++ Py.str 0;
              git_msg := r_show r (Py.strip ("5f0c7a7" ++ Py.nl)) |}),
       st) /\
    st_repo st = reconciled r.
Proof.
  intros r.
  apply (get_src_dotted r "master" "5f0c7a7" 1 [0] 0 "5f0c7a7").
  - split; repeat constructor; simpl; intuition discriminate.
  - right. exists "1cf70ea2". reflexivity.
  - reflexivity.
  - reflexivity.
  - reflexivity.
  - reflexivity.
  - reflexivity.
Defined.

(** ** The runs of [main] *)

Section MainRuns.

Local Open Scope main_scope.

Lemma selected_all (m : module_cfg) : selected [] m = true.
Proof. reflexivity. Qed.

(** The modules that [argv] does not name leave nothing in the first
    loop. *)
Lemma update_modules_filter (v : Version) (argv : list string)
  (modules : list module_cfg) :
  update_modules v argv modules
  = update_modules v [] (filter (selected argv) modules).
Proof.
  induction modules as [|m modules IH]; trivial.
  cbn [update_modules filter]. destruct (selected argv m).
  - cbn [update_modules]. rewrite selected_all, IH. reflexivity.
  - rewrite <- IH. unfold mret. rewrite mbind_ok. cbn [app].
    now destruct (update_modules v argv modules).
Qed.

Lemma push_modules_filter (argv : list string) (modules : list module_cfg) :
  push_modules argv modules
  = push_modules [] (filter (selected argv) modules).
Proof.
  induction modules as [|m modules IH]; trivial.
  cbn [push_modules filter]. destruct (selected argv m).
  - cbn [push_modules]. rewrite selected_all, IH. reflexivity.
  - rewrite <- IH. unfold mret. rewrite mbind_ok. cbn [app].
    now destruct (push_modules argv modules).
Qed.

Lemma filter_selected_all (modules : list module_cfg) :
  filter (selected []) modules = modules.
Proof. induction modules as [|m l IH]; simpl; congruence. Qed.

End MainRuns.


(** With [--push] and without [GH_TOKEN], [main] first updates every
    module and only then fails its assertion: when the updates succeed the
    run ends with [AssertionError] after all their events, and nothing is
    pushed. *)
Theorem push_without_token (argv : list string) (tool : repo)
  (modules : list module_cfg) (d : string) (v : Version) (st : state) :
  existsb (String.eqb "--push") argv = true ->
  git_describe "HEAD" (mkState tool []) = (Ok (d, IsVersion v), st) ->
  snd (update_modules v (without_push argv) modules) = Ok tt ->
  main argv tool false modules
  = (fst (update_modules v (without_push argv) modules), Raise AssertionError).
Proof.
  intros Hpush Hd Hup. unfold main. rewrite Hd, Hpush.
  unfold mlift. cbv beta iota zeta.
  rewrite mbind_ok. cbn [fst snd version_tuple_checked].
  rewrite mbind_ok. cbn [fst snd app].
  destruct (update_modules v (without_push argv) modules) as [ev res].
  cbn [snd] in Hup. subst res. rewrite mbind_ok.
  cbn [fst snd assert mlift mbind]. now rewrite List.app_nil_r.
Qed.

(** The module b of the runs above, with [--push] and no token. *)
Lemma push_without_token_witness :
  let tool := {| r_tags := [("v1.0", "5f0c7a7")];
                 r_log := [("5f0c7a7", "Start")];
                 r_refs := fun _ => Some "1cf70ea2";
                 r_describe := fun _ _ => Some "v1.0-3-g1cf70ea2";
                 r_show := fun _ => "";
                 r_tag_object := fun _ _ _ => "9a1b2c3";
                 r_option := fun _ => false |} in
  let b := mkModule "b" "master" None (Some "v1.0-2-g5f0c7a7")
             (Some "5f0c7a7") (Ok true) (Ok tt) (Ok tt) (Ok tt)
             (Some "cpu") (Some "verilog") in
  let v := plain [1; 0] (Some 3) in
  main ["--push"] tool false [b]
  = (fst (update_modules v (without_push ["--push"]) [b]),
     Raise AssertionError).
Proof.
  intros tool b v.
  apply (push_without_token ["--push"] tool [b] "v1.0-3-g1cf70ea2" v
           (mkState tool [Describe "HEAD"])); reflexivity.
Defined.



(** On a mirror without commits that has no tag v0.0, [get_src] reads the
    tags and the empty log and raises [UnboundLocalError]: the variable of
    the loop over the log was never bound.  Nothing is added and nothing is
    deleted: the ignored tags stay. *)
Theorem get_src_without_commits (r : repo) (branch : string) :
  NoDup (tag_names r) ->
  Forall (fun t => one_line t = true) (tag_names r) ->
  has_tag r "v0.0" = false -> r_log r = [] ->
  get_src branch (mkState r [])
  = (Raise UnboundLocalError, mkState r (get_tags_calls r ++ [LogReverse])) /\
  count is_annotate (get_tags_calls r ++ [LogReverse]) = 0%nat /\
  forall t, count (is_delete t) (get_tags_calls r ++ [LogReverse]) = 0%nat.
Proof.
  intros Hnd Hol Hhas Hlog.
  assert (Hh : first_hash_of (log_lines r) = Raise UnboundLocalError)
    by (unfold first_hash_of, log_lines; now rewrite Hlog).
  split; [|split].
  - unfold get_src. unfold bind at 1.
    now rewrite (reconcile_default_fails r UnboundLocalError Hnd Hol Hhas Hh).
  - rewrite count_app, count_get_tags_calls; reflexivity.
  - intros t. rewrite count_app, count_get_tags_calls; reflexivity.
Qed.

(** A mirror with the tag junk and no commit. *)
Lemma get_src_without_commits_witness :
  let r := {| r_tags := [("junk", "1cf70ea2")];
              r_log := [];
              r_refs := fun _ => None;
              r_describe := fun _ _ => None;
              r_show := fun _ => "";
              r_tag_object := fun _ _ _ => "9a1b2c3";
              r_option := fun _ => false |} in
  get_src "master" (mkState r [])
  = (Raise UnboundLocalError, mkState r (get_tags_calls r ++ [LogReverse])) /\
  count is_annotate (get_tags_calls r ++ [LogReverse]) = 0%nat /\
  forall t, count (is_delete t) (get_tags_calls r ++ [LogReverse]) = 0%nat.
Proof.
  intros r. apply get_src_without_commits.
  - repeat constructor; simpl; intuition discriminate.
  - repeat constructor.
  - reflexivity.
  - reflexivity.
Defined.

(** ** The hosting service *)

Section Hosting.

Import Host.

Lemma github_repo_attempt_requests (g : github) (md : module_data) :
  (List.length (filter is_get_repo (fst (github_repo_attempt g md))) <= 1)%nat /\
  (g_token g = false ->
   forall slug c, ~ In (Edit slug c) (fst (github_repo_attempt g md))) /\
  (forall b, snd (github_repo_attempt g md) = Return b -> b = true) /\
  snd (github_repo_attempt g md) <> Next.
Proof.
  unfold github_repo_attempt.
  destruct (getitem md "repo") as [repo|e]; cbn [fst snd].
  2: { split; [simpl; lia|]. repeat split; [auto | discriminate..]. }
  destruct (g_get_repo g ("litex-hub/" ++ repo)); cbn [fst snd].
  - destruct (g_token g) eqn:Ht.
    + destruct (github_repo_config md) as [c|e]; cbn [fst snd].
      * destruct (g_edit g ("litex-hub/" ++ repo) c); cbn [fst snd];
          (split; [simpl; lia|]); (split; [discriminate|]);
          (split; [intros b [=]; congruence | discriminate]).
      * split; [simpl; lia|]. repeat split; discriminate.
    + split; [simpl; lia|]. split; [|split].
      * intros _ slug c [H|[]]. discriminate.
      * now intros b [= <-].
      * discriminate.
  - split; [simpl; lia|]. split; [|split].
    + intros _ slug c [H|[]]. discriminate.
    + now intros b [= <-].
    + discriminate.
  - split; [simpl; lia|]. split; [|split].
    + intros _ slug c [H|[]]. discriminate.
    + discriminate.
    + discriminate.
Qed.

(** The loop of [github_repo] ends in its first round, whatever the
    number of attempts allowed. *)
Lemma github_repo_upto_first (k : nat) (g : github) (md : module_data) :
  github_repo_upto (S k) g md
  = (fst (github_repo_attempt g md),
     match snd (github_repo_attempt g md) with
     | Return b => Returns (Some b)
     | Raised e => Raises e
     | Next => Returns None
     end).
Proof.
  destruct (github_repo_attempt_requests g md) as (_ & _ & _ & Hn).
  cbn [github_repo_upto].
  destruct (github_repo_attempt g md) as [reqs [b|e|]]; cbn [fst snd] in *;
    [reflexivity | reflexivity | now elim Hn].
Qed.

(** The events of a module before the hosting service is asked. *)
Lemma process_module_no_github_event (v : Version) (m : module_cfg) :
  (m_github_repo m = Ok true \/ exists e, m_github_repo m = Raise e) ->
  ~ In (NoGithubRepo (m_name m)) (fst (process_module v m)).
Proof.
  intros Hg. unfold process_module.
  assert (Hdv : forall x, In x (fst (data_version_of m)) ->
                          x <> NoGithubRepo (m_name m)).
  { unfold data_version_of. destruct (m_src m) as [r|].
    - destruct (get_src (m_branch m) (mkState r [])) as [[d|e] st];
        cbn; intros x [<-|[]]; discriminate.
    - destruct (m_git_describe m), (m_git_hash m); cbn; try tauto.
      destruct (Nat.eqb (List.length (parse_tags s)) 1); cbn; try tauto.
      destruct (parse_tags s) as [|[vd t] l]; cbn; tauto. }
  unfold emit at 1. rewrite mbind_ok. cbn [fst app].
  intros [H|H]; [discriminate H|].
  unfold mlift at 1 2 3 in H.
  destruct (section_key (m_type m)); [|destruct H].
  rewrite !mbind_ok in H. cbn [fst app] in H.
  destruct (section_key (m_contents m)); [|destruct H].
  rewrite mbind_ok in H. cbn [fst app] in H.
  destruct (data_version_of m) as [ev [dv|e]]; cbn [fst] in Hdv.
  2: { cbn in H. exact (Hdv _ H eq_refl). }
  rewrite mbind_ok in H. cbn [fst] in H.
  apply in_app_or in H as [H|H]; [exact (Hdv _ H eq_refl)|].
  unfold mlift in H.
  destruct (Version_of_string dv) as [data|]; [|destruct H].
  rewrite mbind_ok in H. cbn [fst app] in H.
  destruct (version_join v data) as [mv|e]; [|destruct H].
  rewrite mbind_ok in H. cbn [fst app] in H.
  unfold emit at 1 in H. rewrite mbind_ok in H. cbn [fst app] in H.
  destruct H as [H|H]; [discriminate H|].
  destruct Hg as [Hg|[e Hg]]; rewrite Hg in H.
  - rewrite mbind_ok in H. cbn [fst app negb] in H.
    destruct (m_download m) as [[]|e]; [|destruct H].
    rewrite mbind_ok in H. cbn [fst app] in H.
    destruct (m_update m) as [[]|e]; [|destruct H].
    rewrite mbind_ok in H. cbn [fst app] in H.
    unfold emit in H. cbn in H.
    destruct H as [H|[H|[]]]; discriminate H.
  - destruct H.
Qed.

End Hosting.

(** [github_repo] makes a single attempt, whatever [MAX_ATTEMPTS] is
    above 0: it asks the hosting service for the repository at most once,
    edits it only when there is a token, and either raises or returns
    [True], also when the repository is unknown.  So the branch of [main]
    for a false answer is never taken: no module is skipped for want of a
    repository. *)
Theorem github_repo_single_attempt (g : Host.github) (md : Host.module_data) :
  (List.length (filter is_get_repo (fst (Host.github_repo g md))) <= 1)%nat /\
  (Host.g_token g = false ->
   forall slug c, ~ In (Host.Edit slug c) (fst (Host.github_repo g md))) /\
  (forall x, snd (Host.github_repo g md) = Host.Returns x ->
             x = Some true) /\
  (forall k, Host.github_repo_upto (S k) g md = Host.github_repo g md) /\
  (forall v m, m_github_repo m = as_result (snd (Host.github_repo g md)) ->
               ~ In (NoGithubRepo (m_name m)) (fst (process_module v m))).
Proof.
  destruct (github_repo_attempt_requests g md) as (H1 & H2 & H3 & Hn).
  unfold Host.github_repo, Host.MAX_ATTEMPTS.
  rewrite !github_repo_upto_first.
  split; [assumption|]. split; [assumption|].
  assert (Hk : forall k, Host.github_repo_upto (S k) g md
                         = (fst (Host.github_repo_attempt g md),
                            match snd (Host.github_repo_attempt g md) with
                            | Host.Return b => Host.Returns (Some b)
                            | Host.Raised e => Host.Raises e
                            | Host.Next => Host.Returns None
                            end))
    by (intros k; apply github_repo_upto_first).
  destruct (Host.github_repo_attempt g md) as [reqs [b|e|]];
    cbn [fst snd] in *; [| |now elim Hn].
  - specialize (H3 b eq_refl). subst b.
    split; [now intros x [= <-]|]. split; [exact Hk|].
    intros v m Hm. apply process_module_no_github_event. now left.
  - split; [discriminate|]. split; [exact Hk|].
    intros v m Hm. apply process_module_no_github_event. right. eauto.
Qed.

Lemma github_repo_config_run (md : Host.module_data) (c n t : string) :
  Host.lookup md "contents" = Some c ->
  Host.lookup md "name" = Some n ->
  Host.lookup md "type" = Some t ->
  Host.github_repo_config md
  = Host.Returns
      {| Host.has_issues := false; Host.has_wiki := false;
         Host.has_downloads := false; Host.has_projects := false;
         Host.description :=
           "Python module containing " ++ c ++ " files for " ++ n
           ++ " " ++ t ++ " (for use with LiteX).";
         Host.homepage := match Host.lookup md "gen_src" with
                          | Some g => Some g
                          | None => Host.lookup md "src"
                          end |}.
Proof.
  intros Hc Hn Ht. unfold Host.github_repo_config, Host.getitem.
  rewrite Hc, Hn, Ht. f_equal. f_equal.
  - set (body := "ython module containing " ++ c ++ " files for " ++ n
                 ++ " " ++ t ++ " (for use with LiteX)").
    assert (E : Py.nl ++ "Python module containing " ++ c ++ " files for "
                ++ n ++ " " ++ t ++ " (for use with LiteX)." ++ Py.nl
                = String Py.LF (String "P" body ++ String "." Py.nl)).
    { subst body.
      repeat (cbn [append Py.nl]; rewrite ?string_app_assoc).
      reflexivity. }
    rewrite E. unfold Py.strip.
    change (Py.lstrip (String Py.LF (String "P" body ++ String "." Py.nl)))
      with (String "P" body ++ String "." Py.nl).
    rewrite rstrip_blank by reflexivity.
    subst body.
    repeat (cbn [append]; rewrite ?string_app_assoc).
    reflexivity.
  - now destruct (Host.lookup md "gen_src"), (Host.lookup md "src").
Qed.

(** [github_repo_config] gives the description without the line feeds
    around it, whatever the texts of the section are, and the homepage from
    [gen_src] when the section has it, from [src] otherwise; it raises
    [KeyError] only for one of the three keys of the description that the
    section lacks. *)
Theorem github_repo_config_text (md : Host.module_data) :
  (forall c n t,
     Host.lookup md "contents" = Some c ->
     Host.lookup md "name" = Some n ->
     Host.lookup md "type" = Some t ->
     Host.github_repo_config md
     = Host.Returns
         {| Host.has_issues := false; Host.has_wiki := false;
            Host.has_downloads := false; Host.has_projects := false;
            Host.description :=
              "Python module containing " ++ c ++ " files for " ++ n
              ++ " " ++ t ++ " (for use with LiteX).";
            Host.homepage := match Host.lookup md "gen_src" with
                             | Some g => Some g
                             | None => Host.lookup md "src"
                             end |}) /\
  (forall e, Host.github_repo_config md = Host.Raises e ->
             exists k, e = Host.KeyError k /\ Host.lookup md k = None /\
                       In k ["contents"; "name"; "type"]).
Proof.
  split.
  - apply github_repo_config_run.
  - intros e. unfold Host.github_repo_config, Host.getitem.
    destruct (Host.lookup md "contents") eqn:Hc;
      [|intros [= <-]; exists "contents"; repeat split; trivial; simpl; tauto].
    destruct (Host.lookup md "name") eqn:Hn;
      [|intros [= <-]; exists "name"; repeat split; trivial; simpl; tauto].
    destruct (Host.lookup md "type") eqn:Ht;
      [|intros [= <-]; exists "type"; repeat split; trivial; simpl; tauto].
    discriminate.
Qed.

Lemma lookup_setitem_same (d : list (string * string)) (k v : string) :
  Host.lookup (Host.setitem d k v) k = Some v.
Proof.
  induction d as [|[k' v'] d IH]; simpl.
  - now rewrite String.eqb_refl.
  - destruct (String.eqb k' k) eqn:E; simpl; rewrite E; auto.
Qed.

Lemma lookup_setitem_other (d : list (string * string)) (k v k' : string) :
  k' <> k -> Host.lookup (Host.setitem d k v) k' = Host.lookup d k'.
Proof.
  intros Hk. induction d as [|[k0 v0] d IH]; simpl.
  - destruct (String.eqb_spec k k'); [congruence | reflexivity].
  - destruct (String.eqb_spec k0 k) as [->|Hne]; simpl.
    + destruct (String.eqb_spec k k'); [congruence | reflexivity].
    + now rewrite IH.
Qed.

(** Once [get_license] has returned the text of a license, a later call
    for a section with the same [license_spdx] opens no URL, whatever the
    web then is, returns the same text and leaves the cache as it is.  The
    first call opened at most one URL, that of the license, and changed
    the cache at no other key. *)
Theorem get_license_cached (w w' : Host.web) (cache cache' : list (string * string))
  (md : Host.module_data) (urls : list string) (text : string) :
  Host.get_license w cache md = (urls, cache', Host.Returns text) ->
  Host.get_license w' cache' md = ([], cache', Host.Returns text) /\
  (exists spdx, Host.lookup md "license_spdx" = Some spdx /\
     (urls = [] \/ urls = [Host.license_url spdx]) /\
     forall k, k <> spdx -> Host.lookup cache' k = Host.lookup cache k).
Proof.
  unfold Host.get_license, Host.getitem.
  destruct (Host.lookup md "license_spdx") as [spdx|]; [|discriminate].
  destruct (Host.lookup cache spdx) as [t|] eqn:Hc.
  - intros [= <- <- <-]. rewrite Hc. split; [reflexivity|].
    exists spdx. auto.
  - destruct (w (Host.license_url spdx)) as [[reason body]|]; [|discriminate].
    destruct (String.eqb reason "OK"); [|discriminate].
    rewrite lookup_setitem_same. intros [= <- <- <-].
    rewrite lookup_setitem_same. split; [reflexivity|].
    exists spdx. split; [reflexivity|]. split; [now right|].
    intros k Hk. now apply lookup_setitem_other.
Qed.

Lemma get_license_cached_witness :
  Host.get_license (fun _ => None) [("MIT", "Permission is hereby granted")]
    [("license_spdx", "MIT")]
  = ([], [("MIT", "Permission is hereby granted")],
     Host.Returns "Permission is hereby granted").
Proof.
  exact (proj1 (get_license_cached
                  (fun _ => Some ("OK", "Permission is hereby granted"))
                  (fun _ => None) [] [("MIT", "Permission is hereby granted")]
                  [("license_spdx", "MIT")]
                  [Host.license_url "MIT"] "Permission is hereby granted"
                  eq_refl)).
Defined.

(** When [get_license] raises, the cache is as it was: a response whose
    reason is not [OK] is not stored, and the next call asks again. *)
Theorem get_license_failure_keeps_cache (w : Host.web)
  (cache cache' : list (string * string)) (md : Host.module_data)
  (urls : list string) (e : Host.error) :
  Host.get_license w cache md = (urls, cache', Host.Raises e) ->
  cache' = cache /\
  (e = Host.KeyError "license_spdx" /\ urls = [] \/
   exists spdx, Host.lookup md "license_spdx" = Some spdx /\
                Host.lookup cache spdx = None /\
                urls = [Host.license_url spdx] /\
                (e = Host.URLError \/ e = Host.AssertionFailed)).
Proof.
  unfold Host.get_license, Host.getitem.
  destruct (Host.lookup md "license_spdx") as [spdx|].
  2: { intros [= <- <- <-]. auto. }
  destruct (Host.lookup cache spdx) as [t|] eqn:Hc; [discriminate|].
  destruct (w (Host.license_url spdx)) as [[reason body]|].
  - destruct (String.eqb reason "OK").
    + rewrite lookup_setitem_same. discriminate.
    + intros [= <- <- <-]. split; [reflexivity|]. right. exists spdx. auto.
  - intros [= <- <- <-]. split; [reflexivity|]. right. exists spdx. auto.
Qed.

Lemma get_license_failure_keeps_cache_witness :
  [("MIT", "text")] = [("MIT", "text")] /\
  (Host.AssertionFailed = Host.KeyError "license_spdx" /\
   [Host.license_url "BSD"] = [] \/
   exists spdx, Host.lookup [("license_spdx", "BSD")] "license_spdx" = Some spdx /\
                Host.lookup [("MIT", "text")] spdx = None /\
                [Host.license_url "BSD"] = [Host.license_url spdx] /\
                (Host.AssertionFailed = Host.URLError \/
                 Host.AssertionFailed = Host.AssertionFailed)).
Proof.
  exact (get_license_failure_keeps_cache
           (fun _ => Some ("Not Found", "")) [("MIT", "text")] [("MIT", "text")]
           [("license_spdx", "BSD")] [Host.license_url "BSD"]
           Host.AssertionFailed eq_refl).
Defined.

(** ** Paths *)

Section Paths.

Import Posixpath.

Lemma split_pieces_lack (s : string) :
  Forall (fun c => lacks sep c = true) (Py.split sep s).
Proof.
  induction s as [|c s IH]; simpl.
  - repeat constructor.
  - destruct (Ascii.eqb c sep) eqn:E.
    + constructor; [reflexivity | exact IH].
    + destruct (Py.split sep s) as [|x l].
      * constructor; [simpl; now rewrite E | constructor].
      * inversion IH; subst. constructor; [simpl; now rewrite E | assumption].
Qed.

Lemma Forall_removelast {A : Type} (P : A -> Prop) (l : list A) :
  Forall P l -> Forall P (removelast l).
Proof.
  induction 1 as [|x l Hx Hl IH]; simpl; [constructor|].
  destruct l; [constructor | constructor; assumption].
Qed.

Lemma norm_step_good (initial : nat) (acc : list string) (c : string) :
  Forall good_component acc -> lacks sep c = true ->
  Forall good_component (norm_step initial acc c).
Proof.
  intros Hacc Hc. unfold norm_step.
  destruct (String.eqb c "") eqn:E; [assumption|].
  cbn [orb]. destruct (String.eqb c "."); [assumption|].
  destruct (_ || _ || _).
  - apply Forall_app. split; [assumption|]. constructor; [|constructor].
    unfold good_component, component. now rewrite E, Hc.
  - now apply Forall_removelast.
Qed.

Lemma norm_comps_good (x : string) : Forall good_component (norm_comps x).
Proof.
  unfold norm_comps.
  assert (H : forall l acc, Forall (fun c => lacks sep c = true) l ->
                            Forall good_component acc ->
                            Forall good_component
                              (fold_left (norm_step (initial_slashes x)) l acc)).
  { induction l as [|c l IH]; intros acc Hl Hacc; simpl; [assumption|].
    inversion Hl; subst. apply IH; [assumption|].
    now apply norm_step_good. }
  apply H; [apply split_pieces_lack | constructor].
Qed.

Lemma join_snoc (s : string) (cs : list string) (c c0 : string) :
  Py.join s ((c0 :: cs) ++ [c]) = Py.join s (c0 :: cs) ++ s ++ c.
Proof.
  revert c0. induction cs as [|c1 cs IH]; intros c0.
  - reflexivity.
  - change (Py.join s ((c0 :: c1 :: cs) ++ [c]))
      with (c0 ++ s ++ Py.join s ((c1 :: cs) ++ [c])).
    rewrite IH.
    change (Py.join s (c0 :: c1 :: cs)) with (c0 ++ s ++ Py.join s (c1 :: cs)).
    now rewrite !string_app_assoc.
Qed.

Lemma rfind_lacks (b : string) : lacks sep b = true -> rfind b = None.
Proof.
  induction b as [|c b IH]; simpl; trivial.
  intros H. apply andb_prop in H as [Hc Hb]. rewrite (IH Hb).
  apply negb_true_iff in Hc. now rewrite Hc.
Qed.

Lemma rfind_last (a b : string) :
  lacks sep b = true -> rfind (a ++ String sep b) = Some (String.length a).
Proof.
  intros Hb. induction a as [|c a IH]; simpl.
  - now rewrite (rfind_lacks b Hb).
  - now rewrite IH.
Qed.

Lemma take_S_app (a b : string) (c : ascii) :
  Py.take (S (String.length a)) (a ++ String c b) = a ++ String c "".
Proof.
  induction a as [|x a IH]; [reflexivity|].
  cbn [String.length append]. change (Py.take (S ?n) (String ?y ?r))
    with (String y (Py.take n r)).
  now rewrite IH.
Qed.

Lemma skip_S_app (a b : string) (c : ascii) :
  skip (S (String.length a)) (a ++ String c b) = b.
Proof.
  induction a as [|x a IH]; [now destruct b|].
  cbn [String.length append]. exact IH.
Qed.

Lemma all_sep_app (a b : string) : all_sep (a ++ b) = all_sep a && all_sep b.
Proof.
  induction a as [|c a IH]; simpl; [reflexivity|].
  now rewrite IH, andb_assoc.
Qed.

Lemma rstrip_sep_solid (a : string) (c : ascii) :
  Ascii.eqb c sep = false -> rstrip_sep (a ++ String c "") = a ++ String c "".
Proof.
  intros Hc. induction a as [|x a IH]; simpl.
  - now rewrite Hc.
  - rewrite IH. now destruct a.
Qed.

Lemma rstrip_sep_slash (a : string) (c : ascii) :
  Ascii.eqb c sep = false ->
  rstrip_sep ((a ++ String c "") ++ String sep "") = a ++ String c "".
Proof.
  intros Hc. rewrite string_app_assoc. induction a as [|x a IH]; simpl.
  - now rewrite Hc.
  - simpl in IH. rewrite IH. now destruct a.
Qed.

Lemma ends_solid_not_root (s : string) :
  ends_solid s -> String.eqb s "" || String.eqb s "/" = false.
Proof.
  intros (s' & c & -> & Hc). destruct s' as [|x [|y s']]; simpl.
  - unfold sep in Hc. rewrite Hc. reflexivity.
  - now destruct (Ascii.eqb x "/").
  - now destruct (Ascii.eqb x "/").
Qed.

Lemma ends_solid_app (a b : string) : ends_solid b -> ends_solid (a ++ b).
Proof.
  intros (s' & c & -> & Hc). exists (a ++ s'), c.
  now rewrite string_app_assoc.
Qed.

Lemma good_ends_solid (c : string) : good_component c -> ends_solid c.
Proof.
  unfold good_component, component. intros H. apply andb_prop in H as [Hne Hl].
  induction c as [|x c IH]; [discriminate Hne|].
  simpl in Hl. apply andb_prop in Hl as [Hx Hl].
  destruct c as [|y c].
  - exists "", x. split; [reflexivity | now apply negb_true_iff].
  - destruct (IH eq_refl Hl) as (s' & z & E & Hz).
    exists (String x s'), z. simpl. now rewrite E.
Qed.

Lemma good_lacks (c : string) : good_component c -> lacks sep c = true.
Proof. unfold good_component, component. intros H. now apply andb_prop in H. Qed.

Lemma join_ends_solid (c0 : string) (cs : list string) :
  Forall good_component (c0 :: cs) -> ends_solid (Py.join "/" (c0 :: cs)).
Proof.
  revert c0. induction cs as [|c1 cs IH]; intros c0 H.
  - inversion H; subst. now apply good_ends_solid.
  - inversion H; subst.
    change (Py.join "/" (c0 :: c1 :: cs))
      with (c0 ++ "/" ++ Py.join "/" (c1 :: cs)).
    apply ends_solid_app, ends_solid_app. now apply IH.
Qed.

(** [split] at the last slash of a path. *)
Lemma split_last (h b : string) :
  ends_solid h -> lacks sep b = true ->
  split (h ++ String sep b) = (h, b).
Proof.
  intros (s' & c & -> & Hc) Hb. unfold split.
  rewrite (rfind_last _ b Hb), take_S_app, skip_S_app.
  rewrite all_sep_app, all_sep_app. cbn [all_sep]. rewrite Hc.
  rewrite !andb_false_r, andb_false_l. cbn [negb].
  replace (String.eqb ((s' ++ String c "") ++ String sep "") "") with false
    by (now destruct s').
  cbn [negb andb]. now rewrite rstrip_sep_slash.
Qed.

Lemma split_root (b : string) :
  lacks sep b = true -> split (String sep b) = ("/", b).
Proof.
  intros Hb. unfold split.
  pose proof (rfind_last "" b Hb) as E. cbn [append String.length] in E.
  rewrite E. reflexivity.
Qed.

Lemma split_name (b : string) : lacks sep b = true -> split b = ("", b).
Proof.
  intros Hb. unfold split. rewrite (rfind_lacks b Hb).
  destruct b; reflexivity.
Qed.

Lemma loop_done (fuel : nat) (a : string) (bits : list string) :
  String.eqb a "" || String.eqb a "/" = true ->
  split_all_loop fuel a bits = Some bits.
Proof. intros H. destruct fuel; simpl; now rewrite H. Qed.

Lemma loop_round (k : nat) (a : string) (bits : list string) :
  String.eqb a "" || String.eqb a "/" = false ->
  split_all_loop (S k) a bits
  = split_all_loop k (fst (split a)) (snd (split a) :: bits).
Proof. intros H. cbn [split_all_loop]. rewrite H. now destruct (split a). Qed.

(** The loop takes the components off a relative or absolute path, the
    last one first. *)
Lemma loop_components (root : string) (cs bits : list string) (fuel : nat) :
  root = "" \/ root = "/" ->
  Forall good_component cs -> (List.length cs <= fuel)%nat ->
  split_all_loop fuel (root ++ Py.join "/" cs) bits = Some (cs ++ bits)%list.
Proof.
  intros Hroot. revert bits fuel.
  induction cs as [|c cs IH] using rev_ind; intros bits fuel Hcs Hfuel.
  - cbn [Py.join]. rewrite string_app_nil. apply loop_done.
    now destruct Hroot as [-> | ->].
  - apply Forall_app in Hcs as [Hcs Hc]. inversion Hc as [|? ? Hc' _]; subst.
    rewrite length_app in Hfuel. cbn [List.length] in Hfuel.
    destruct fuel as [|k]; [lia|].
    destruct cs as [|c0 cs].
    + cbn [app Py.join]. destruct Hroot as [-> | ->].
      * cbn [append]. rewrite loop_round
          by now apply ends_solid_not_root, good_ends_solid.
        rewrite (split_name c (good_lacks c Hc')). cbn [fst snd].
        now rewrite loop_done.
      * change ("/" ++ c) with (String sep c).
        rewrite loop_round.
        2: { apply ends_solid_not_root. apply (ends_solid_app "/" c).
             now apply good_ends_solid. }
        rewrite (split_root c (good_lacks c Hc')). cbn [fst snd].
        now rewrite loop_done.
    + rewrite join_snoc.
      assert (Hs : ends_solid (root ++ Py.join "/" (c0 :: cs))).
      { apply ends_solid_app. now apply join_ends_solid. }
      change ("/" ++ c) with (String sep c).
      rewrite <- string_app_assoc.
      rewrite loop_round.
      2: { apply ends_solid_not_root.
           apply (ends_solid_app (root ++ Py.join "/" (c0 :: cs)) (String sep c)).
           apply (ends_solid_app "/" c). now apply good_ends_solid. }
      rewrite (split_last _ c Hs (good_lacks c Hc')). cbn [fst snd].
      rewrite IH; [|assumption|cbn [List.length] in *; lia].
      now rewrite <- List.app_assoc.
Qed.

Lemma join_good_nonempty (c0 : string) (cs : list string) :
  Forall good_component (c0 :: cs) -> String.eqb (Py.join "/" (c0 :: cs)) "" = false.
Proof.
  intros H. destruct (join_ends_solid c0 cs H) as (s' & c & -> & _).
  now destruct s'.
Qed.

(** [normpath] as a root and the components it keeps. *)
Lemma normpath_components (x : string) :
  initial_slashes x <> 2%nat ->
  normpath x
  = (match initial_slashes x with O => "" | _ => "/" end)
    ++ Py.join "/" (components x).
Proof.
  intros H2. unfold normpath, components.
  pose proof (norm_comps_good x) as Hg.
  destruct (String.eqb_spec x "") as [->|Hx]; [reflexivity|].
  destruct (initial_slashes x) as [|[|n]] eqn:Hi.
  - destruct (norm_comps x) as [|c0 cs]; [reflexivity|].
    cbn [append]. now rewrite join_good_nonempty.
  - cbn [slashes append].
    destruct (norm_comps x) as [|c0 cs]; reflexivity.
  - revert Hi. unfold initial_slashes.
    destruct (Py.startswith x "/"); [|discriminate].
    destruct (_ && _); [intros [= <-]; now elim H2 | discriminate].
Qed.

Lemma components_good (x : string) : Forall good_component (components x).
Proof.
  unfold components. pose proof (norm_comps_good x) as Hg.
  destruct (norm_comps x), (initial_slashes x); trivial.
  repeat constructor.
Qed.

Lemma all_sep_rstrip (t : string) :
  all_sep t = false -> rstrip_sep t <> "".
Proof.
  induction t as [|c t IH]; [discriminate|]. simpl.
  destruct (Ascii.eqb c sep); cbn [andb]; intros H.
  - specialize (IH H). destruct (rstrip_sep t); [now elim IH | discriminate].
  - destruct (rstrip_sep t); discriminate.
Qed.

Lemma rstrip_sep_cons (c : ascii) (t : string) :
  rstrip_sep t <> "" -> rstrip_sep (String c t) = String c (rstrip_sep t).
Proof. simpl. destruct (rstrip_sep t); [now intros [] | reflexivity]. Qed.

Lemma rfind_slash (r : string) : exists k, rfind (String sep r) = Some k.
Proof. simpl. destruct (rfind r); eauto. Qed.

(** The head of a path that starts with two slashes starts with them. *)
Lemma split_two_slashes (r : string) :
  exists r', fst (split (String sep (String sep r)))
             = String sep (String sep r').
Proof.
  unfold split. destruct (rfind_slash r) as (k & Hk).
  change (rfind (String sep (String sep r)))
    with (match rfind (String sep r) with
          | Some k => Some (S k)
          | None => if Ascii.eqb sep sep then Some O else None
          end).
  rewrite Hk. cbn [Py.take fst].
  set (t := Py.take k r).
  change (String.eqb (String sep (String sep t)) "") with false.
  cbn [negb andb all_sep]. change (Ascii.eqb sep sep) with true. cbn [andb].
  destruct (all_sep t) eqn:Ht; cbn [negb]; [eauto|].
  pose proof (all_sep_rstrip t Ht) as Hne.
  rewrite rstrip_sep_cons.
  - rewrite rstrip_sep_cons by assumption. eauto.
  - rewrite rstrip_sep_cons by assumption. discriminate.
Qed.

Lemma loop_two_slashes (fuel : nat) (r : string) (bits : list string) :
  split_all_loop fuel (String sep (String sep r)) bits = None.
Proof.
  revert r bits. induction fuel as [|k IH]; intros r bits.
  - reflexivity.
  - rewrite loop_round by reflexivity.
    destruct (split_two_slashes r) as (r' & ->). apply IH.
Qed.

End Paths.

(** [os_path_split_all] on a path that does not start with exactly two
    slashes ends within as many rounds as the path has components after
    [normpath], and returns them in their order: each is without a slash
    and not empty, and joined by slashes behind the root they give the
    normal path again.  The path of nothing, as of [a/..], has the
    one component [.]. *)
Theorem os_path_split_all_components (x : string) (fuel : nat) :
  Posixpath.initial_slashes x <> 2%nat ->
  (List.length (components x) <= fuel)%nat ->
  os_path_split_all fuel x = Some (components x) /\
  Forall (fun c => component c = true) (components x) /\
  Posixpath.normpath x
  = (match Posixpath.initial_slashes x with O => "" | _ => "/" end)
    ++ Py.join "/" (components x).
Proof.
  intros H2 Hfuel. split; [|split].
  - unfold os_path_split_all. rewrite (normpath_components x H2).
    rewrite loop_components.
    + now rewrite List.app_nil_r.
    + destruct (Posixpath.initial_slashes x); auto.
    + apply components_good.
    + assumption.
  - apply components_good.
  - now apply normpath_components.
Qed.

Lemma os_path_split_all_components_witness :
  os_path_split_all 2 "/a/b/../c/./" = Some ["a"; "c"].
Proof.
  exact (proj1 (os_path_split_all_components "/a/b/../c/./" 2
                  ltac:(discriminate) ltac:(vm_compute; lia))).
Defined.

(** [os_path_split_all] does not end on a path that starts with exactly
    two slashes: [normpath] keeps them, [split] gives them back as the
    head of themselves, and the test of the loop never fails. *)
Theorem os_path_split_all_two_slashes (x : string) (fuel : nat) :
  Posixpath.initial_slashes x = 2%nat ->
  os_path_split_all fuel x = None.
Proof.
  intros H2. unfold os_path_split_all, Posixpath.normpath.
  assert (Hx : String.eqb x "" = false).
  { destruct x; [discriminate H2 | reflexivity]. }
  rewrite Hx, H2. cbn [Posixpath.slashes append].
  apply loop_two_slashes.
Qed.

Lemma os_path_split_all_two_slashes_witness :
  os_path_split_all 1000 "//a/b" = None.
Proof.
  exact (os_path_split_all_two_slashes "//a/b" 1000 eq_refl).
Defined.

(** ** The data of a module *)

Section Data.

Import Host Update.

Context {W : Type} (sys : system W).

Lemma existsb_app_false {A : Type} (f : A -> bool) (l : list A) (x : A) :
  existsb f l = false -> f x = false -> existsb f (l ++ [x]) = false.
Proof.
  intros Hl Hx. rewrite existsb_app, Hl. simpl. now rewrite Hx.
Qed.

(** No round of the branch for a submodule adds the data. *)
Lemma bump_submodule_adds_nothing (repo_dir data_dir : string)
  (md : module_data) (w : W) (tr : list proc) :
  existsb adds_data tr = false ->
  existsb adds_data (snd (fst (bump_submodule sys repo_dir data_dir md (w, tr))))
  = false.
Proof.
  intros Htr. unfold bump_submodule, bind, path_exists, lift, raise, ret,
    check_call, check_output, commit, getitem.
  cbn [fst snd].
  destruct (sys_exists sys w data_dir).
  2: { destruct (lookup md "src"); [|exact Htr].
       destruct (lookup md "dir"); exact Htr. }
  destruct (sys_check_call sys w _ repo_dir) as [w1 [|]];
    [|now apply existsb_app_false].
  destruct (sys_check_output sys w1 _ repo_dir) as [w2 [out|]];
    [|now repeat apply existsb_app_false].
  destruct (String.eqb out ""); [now repeat apply existsb_app_false|].
  destruct (sys_check_call sys w2 _ repo_dir) as [w3 [|]];
    [|now repeat apply existsb_app_false].
  destruct (lookup md "dir"); [|now repeat apply existsb_app_false].
  destruct (lookup md "data_git_hash"); [|now repeat apply existsb_app_false].
  destruct (lookup md "tool_version"); [|now repeat apply existsb_app_false].
  destruct (sys_commit sys w3 _ repo_dir) as [w4 [|]];
    now repeat apply existsb_app_false.
Qed.

Lemma update_data_submodule (repo_dir : string) (md : module_data)
  (st : W * list proc) (src dir : string) :
  lookup md "src" = Some src ->
  lookup md "dir" = Some dir ->
  getboolean md "submodule" = Returns (Some true) ->
  update_data sys repo_dir md st
  = bump_submodule sys repo_dir (path_join repo_dir dir) md st.
Proof.
  intros Hsrc Hdir Hsub. unfold update_data, bind, lift, getitem.
  now rewrite Hsrc, Hdir, Hsub.
Qed.

End Data.



(** ** The keys that [main] sets *)

Ltac look :=
  repeat first [ rewrite lookup_setitem_same
               | rewrite lookup_setitem_other by discriminate ].

Lemma module_keys_lookups (GIT_MODE tool_version : string)
  (tool_version_tuple : list (option N)) (module : string)
  (m m' : Host.module_data) :
  module_keys GIT_MODE tool_version tool_version_tuple module m
  = Host.Returns m' ->
  exists t c,
    Host.lookup m "type" = Some t /\ Host.lookup m "contents" = Some c /\
    Host.lookup m' "type" = Some t /\ Host.lookup m' "contents" = Some c /\
    Host.lookup m' "name" = Some module /\
    Host.lookup m' "repo" = Some ("pythondata-" ++ t ++ "-" ++ module) /\
    Host.lookup m' "dir"
    = Some (Update.path_join ("pythondata_" ++ t ++ "_" ++ module) c) /\
    Host.lookup m' "src" = Host.lookup m "src" /\
    Host.lookup m' "gen_src" = Host.lookup m "gen_src" /\
    Host.lookup m' "repo_url"
    = Some (GIT_MODE ++ "://github.com/litex-hub/"
            ++ ("pythondata-" ++ t ++ "-" ++ module) ++ ".git") /\
    Host.lookup m' "submodule" = Host.lookup m "submodule".
Proof.
  unfold module_keys, Host.getitem. cbv zeta.
  destruct (Host.lookup m "type") as [t|] eqn:Ht; [|discriminate].
  look. rewrite Ht. look.
  destruct (Host.lookup m "contents") as [c|] eqn:Hc; [|discriminate].
  intros E. exists t, c.
  assert (E' := f_equal (fun x => match x with
                                  | Host.Returns y => y
                                  | Host.Raises _ => m'
                                  end) E).
  cbv beta iota in E'. clear E. subst m'.
  repeat split; look; trivial.
Qed.

(** The section of a module as [main] hands it to [github_repo] describes
    the module by the name of its section, whatever [name] the file
    [modules.ini] gives it: the repository asked for is
    [litex-hub/pythondata-TYPE-MODULE], its description names the module,
    and [github_repo] raises no [KeyError]. *)
Theorem module_keys_github (GIT_MODE tool_version : string)
  (tool_version_tuple : list (option N)) (module : string)
  (m m' : Host.module_data) :
  module_keys GIT_MODE tool_version tool_version_tuple module m
  = Host.Returns m' ->
  exists t c,
    Host.lookup m "type" = Some t /\ Host.lookup m "contents" = Some c /\
    Host.lookup m' "dir"
    = Some (Update.path_join ("pythondata_" ++ t ++ "_" ++ module) c) /\
    Host.github_repo_config m'
    = Host.Returns
        {| Host.has_issues := false; Host.has_wiki := false;
           Host.has_downloads := false; Host.has_projects := false;
           Host.description :=
             "Python module containing " ++ c ++ " files for " ++ module
             ++ " " ++ t ++ " (for use with LiteX).";
           Host.homepage := match Host.lookup m "gen_src" with
                            | Some g => Some g
                            | None => Host.lookup m "src"
                            end |} /\
    forall g,
      (exists rest,
         fst (Host.github_repo g m')
         = Host.GetRepo ("litex-hub/pythondata-" ++ t ++ "-" ++ module)
           :: rest) /\
      (forall k, snd (Host.github_repo g m') <> Host.Raises (Host.KeyError k)).
Proof.
  intros E.
  destruct (module_keys_lookups _ _ _ _ _ _ E)
    as (t & c & Ht & Hc & Ht' & Hc' & Hn & Hr & Hd & Hs & Hg & _).
  exists t, c. split; [assumption|]. split; [assumption|].
  split; [assumption|].
  assert (Hcfg := github_repo_config_run m' c module t Hc' Hn Ht').
  rewrite Hs, Hg in Hcfg. split; [exact Hcfg|].
  intros g. unfold Host.github_repo, Host.MAX_ATTEMPTS, Host.github_repo_upto,
    Host.github_repo_attempt, Host.getitem.
  rewrite Hr, Hcfg.
  destruct (Host.g_get_repo g _); cbn [fst snd].
  - destruct (Host.g_token g).
    + destruct (Host.g_edit g _ _); cbn [fst snd];
        (split; [eexists; reflexivity | discriminate]).
    + split; [eexists; reflexivity | discriminate].
  - split; [eexists; reflexivity | discriminate].
  - split; [eexists; reflexivity | discriminate].
Qed.

Lemma module_keys_github_witness :
  exists t c,
    Host.lookup [("type", "cpu"); ("contents", "verilog"); ("name", "other")]
      "type" = Some t /\
    Host.lookup [("type", "cpu"); ("contents", "verilog"); ("name", "other")]
      "contents" = Some c.
Proof.
  destruct (module_keys_github "git+ssh" "0.0.post1" [Some 0; Some 0; Some 1]
              "myooo"
              [("type", "cpu"); ("contents", "verilog"); ("name", "other")]
              _ eq_refl) as (t & c & Ht & Hc & _).
  exists t, c. split; assumption.
Defined.

(** ** The message of a commit *)

Lemma split_lack (c : ascii) (s : string) :
  Forall (fun l => lacks c l = true) (Py.split c s).
Proof.
  induction s as [|x s IH]; simpl.
  - repeat constructor.
  - destruct (Ascii.eqb x c) eqn:E.
    + constructor; [reflexivity | exact IH].
    + destruct (Py.split c s) as [|h l].
      * constructor; [simpl; now rewrite E | constructor].
      * inversion IH; subst. constructor; [simpl; now rewrite E | assumption].
Qed.

Lemma join_cons (sep x : string) (y : string) (l : list string) :
  Py.join sep (x :: y :: l) = x ++ sep ++ Py.join sep (y :: l).
Proof. reflexivity. Qed.

(** [sep.join(s.split(sep))] is [s]. *)
Lemma join_split (c : ascii) (s : string) :
  Py.join (String c "") (Py.split c s) = s.
Proof.
  induction s as [|x s IH]; [reflexivity|].
  cbn [Py.split]. pose proof (split_nonempty c s) as Hne.
  destruct (Ascii.eqb_spec x c) as [->|Hx].
  - destruct (Py.split c s) as [|h l]; [now elim Hne|].
    rewrite join_cons, IH. reflexivity.
  - destruct (Py.split c s) as [|h l]; [now elim Hne|].
    destruct l as [|h' l].
    + cbn [Py.join] in *. now rewrite IH.
    + rewrite join_cons in *. cbn [append] in *. now rewrite IH.
Qed.

Lemma split_lacking (c : ascii) (h : string) :
  lacks c h = true -> Py.split c h = [h].
Proof.
  induction h as [|x h IH]; [reflexivity|]. simpl.
  intros H. apply andb_prop in H as [Hx Hh]. apply negb_true_iff in Hx.
  now rewrite Hx, (IH Hh).
Qed.

Lemma split_at (c : ascii) (h rest : string) :
  lacks c h = true ->
  Py.split c (h ++ String c rest) = h :: Py.split c rest.
Proof.
  induction h as [|x h IH]; simpl.
  - now rewrite Ascii.eqb_refl.
  - intros H. apply andb_prop in H as [Hx Hh]. apply negb_true_iff in Hx.
    now rewrite Hx, (IH Hh).
Qed.

(** [sep.join(l).split(sep)] is [l] for texts without [sep]. *)
Lemma split_join (c : ascii) (l : list string) :
  l <> [] -> Forall (fun x => lacks c x = true) l ->
  Py.split c (Py.join (String c "") l) = l.
Proof.
  induction l as [|x l IH]; [now intros []|]. intros _ H.
  inversion H as [|? ? Hx Hl]; subst.
  destruct l as [|y l].
  - now apply split_lacking.
  - rewrite join_cons. cbn [append]. rewrite split_at by assumption.
    now rewrite IH.
Qed.

Lemma quote_line_lacks (c : ascii) (l : string) :
  lacks c ("> ") = true -> lacks c l = true ->
  lacks c (Update.quote_line l) = true.
Proof.
  intros Hq Hl. unfold Update.quote_line. destruct (String.eqb l "").
  - simpl in *. now apply andb_prop in Hq as [-> _].
  - now rewrite lacks_app, Hq, Hl.
Qed.

Lemma unquote_quote_line (l : string) :
  unquote_line (Update.quote_line l) = l.
Proof.
  unfold Update.quote_line, unquote_line.
  destruct l as [|x l]; [reflexivity|]. reflexivity.
Qed.

Lemma quote_line_mark (l : string) :
  Py.startswith (Update.quote_line l) ">" = true.
Proof. unfold Update.quote_line. now destruct (String.eqb l ""). Qed.

(** The lines of the quoted message are the quoted lines. *)
Lemma quoted_lines (msg : string) :
  Py.split Py.LF
    (Py.join Py.nl (map Update.quote_line (Py.split Py.LF msg)))
  = map Update.quote_line (Py.split Py.LF msg).
Proof.
  apply split_join.
  - pose proof (split_nonempty Py.LF msg).
    destruct (Py.split Py.LF msg); [contradiction | discriminate].
  - apply Forall_map. eapply Forall_impl; [|apply split_lack].
    intros l Hl. now apply quote_line_lacks.
Qed.

(** The message that [update] quotes into a commit can be read back from
    the commit: [git_rmsg] has the lines of [git_msg], each behind the mark
    of a quotation, an empty line as the mark alone; without the marks they
    are the message.  The text of the commit is the heading with the texts
    of the keys [repo], [version], [data_git_describe], [data_git_hash] and
    [src] of the section in their places, then [git_rmsg], an empty line and
    the line of the tool with the text of [tool_version]. *)
Theorem commit_message_quotes (md : Host.module_data) (msg : string) :
  Host.lookup md "git_msg" = Some msg ->
  exists q,
    Host.lookup (fst (Update.commit_message md)) "git_rmsg" = Some q /\
    Py.split Py.LF q = map Update.quote_line (Py.split Py.LF msg) /\
    Forall (fun l => Py.startswith l ">" = true) (Py.split Py.LF q) /\
    Py.join Py.nl (map unquote_line (Py.split Py.LF q)) = msg /\
    forall text,
      snd (Update.commit_message md) = Host.Returns text ->
      exists repo version describe hash src tool,
        Host.lookup md "repo" = Some repo /\
        Host.lookup md "version" = Some version /\
        Host.lookup md "data_git_describe" = Some describe /\
        Host.lookup md "data_git_hash" = Some hash /\
        Host.lookup md "src" = Some src /\
        Host.lookup md "tool_version" = Some tool /\
        text = "Updating " ++ repo ++ " to " ++ version ++ Py.nl ++ Py.nl
               ++ "Updated data to " ++ describe ++ " based on " ++ hash
               ++ " from " ++ src ++ "." ++ Py.nl ++ q ++ Py.nl
               ++ Py.nl ++ "Updated using " ++ tool
               ++ " from https://github.com/litex-hub/litex-data-auto"
               ++ Py.nl.
Proof.
  intros Hmsg.
  exists (Py.join Py.nl (map Update.quote_line (Py.split Py.LF msg))).
  assert (Hmd : fst (Update.commit_message md)
                = Host.setitem md "git_rmsg"
                    (Py.join Py.nl
                       (map Update.quote_line (Py.split Py.LF msg)))).
  { unfold Update.commit_message. rewrite Hmsg.
    destruct (Host.getitem _ "repo"); [|reflexivity].
    destruct (Host.getitem _ "version"); [|reflexivity].
    destruct (Host.getitem _ "data_git_describe"); [|reflexivity].
    destruct (Host.getitem _ "data_git_hash"); [|reflexivity].
    destruct (Host.getitem _ "src"); [|reflexivity].
    destruct (Host.getitem _ "git_rmsg"); [|reflexivity].
    destruct (Host.getitem _ "tool_version"); reflexivity. }
  split; [rewrite Hmd; apply lookup_setitem_same|].
  split; [apply quoted_lines|].
  split.
  { rewrite quoted_lines. apply Forall_map, Forall_forall.
    intros l _. apply quote_line_mark. }
  split.
  { rewrite quoted_lines, map_map.
    rewrite (map_ext _ (fun l => l) unquote_quote_line), map_id.
    apply join_split. }
  intros text. unfold Update.commit_message. rewrite Hmsg.
  unfold Host.getitem. look.
  destruct (Host.lookup md "repo") as [repo|]; [|discriminate].
  destruct (Host.lookup md "version") as [version|]; [|discriminate].
  destruct (Host.lookup md "data_git_describe") as [describe|];
    [|discriminate].
  destruct (Host.lookup md "data_git_hash") as [hash|]; [|discriminate].
  destruct (Host.lookup md "src") as [src|]; [|discriminate].
  destruct (Host.lookup md "tool_version") as [tool|]; [|discriminate].
  cbn [snd]. intros [= <-]. exists repo, version, describe, hash, src, tool.
  repeat (split; [reflexivity|]).
  unfold Update.tool_line.
  repeat (cbn [append Py.nl]; rewrite ?string_app_assoc).
  reflexivity.
Qed.

Lemma commit_message_quotes_witness :
  exists q,
    Host.lookup
      (fst (Update.commit_message
              [("git_msg", "Add the core" ++ Py.nl ++ Py.nl ++ "Tested.")]))
      "git_rmsg" = Some q /\
    Py.split Py.LF q = ["> Add the core"; ">"; "> Tested."].
Proof.
  destruct (commit_message_quotes
              [("git_msg", "Add the core" ++ Py.nl ++ Py.nl ++ "Tested.")]
              ("Add the core" ++ Py.nl ++ Py.nl ++ "Tested.") eq_refl)
    as (q & H1 & H2 & _).
  exists q. split; [exact H1 | exact H2].
Defined.

(** ** The clone of a module *)

Lemma words_from_solid (w acc rest : string) :
  solid w = true ->
  Update.words_from acc (w ++ rest) = Update.words_from (acc ++ w) rest.
Proof.
  revert acc. induction w as [|c w IH]; intros acc H.
  - now rewrite string_app_nil.
  - simpl in H. apply andb_prop in H as [Hc Hw].
    apply negb_true_iff in Hc. cbn [append Update.words_from]. rewrite Hc.
    rewrite (IH _ Hw), string_app_assoc. reflexivity.
Qed.

(** A word before a space is the first word. *)
Lemma words_from_word (c : ascii) (w rest : string) :
  solid (String c w) = true ->
  Update.words_from "" (String c w ++ String " " rest)
  = String c w :: Update.words_from "" rest.
Proof.
  intros H. rewrite (words_from_solid _ "" _ H). reflexivity.
Qed.

Lemma words_from_last (c : ascii) (w : string) :
  solid (String c w) = true ->
  Update.words_from "" (String c w) = [String c w].
Proof.
  intros H. rewrite <- (string_app_nil (String c w)) at 1.
  rewrite (words_from_solid _ "" _ H). reflexivity.
Qed.

(** In its first run on a module whose type and name are without white
    space, [download] runs [git clone] on exactly the address and the
    directory that [main] has set for the module, for a submodule with
    [--recursive], and nothing more. *)
Theorem download_clones {W : Type} (sys : Update.system W) (w : W)
  (GIT_MODE tool_version : string) (tool_version_tuple : list (option N))
  (module t : string) (m m' : Host.module_data) (b : option bool) :
  module_keys GIT_MODE tool_version tool_version_tuple module m
  = Host.Returns m' ->
  Host.lookup m "type" = Some t ->
  solid GIT_MODE = true -> solid t = true -> solid module = true ->
  Update.getboolean m "submodule" = Host.Returns b ->
  Update.sys_exists sys w ("repos/pythondata-" ++ t ++ "-" ++ module) = false ->
  snd (fst (Update.download sys m' (w, [])))
  = [Update.CheckCall
       ("git" :: "clone"
        :: List.app (if Update.truthy b then ["--recursive"] else [])
             [GIT_MODE ++ "://github.com/litex-hub/pythondata-" ++ t ++ "-"
              ++ module ++ ".git";
              "repos/pythondata-" ++ t ++ "-" ++ module]) "."].
Proof.
  intros E Ht HG Hst Hsm Hb He.
  destruct (module_keys_lookups _ _ _ _ _ _ E)
    as (t' & c & Ht' & _ & _ & _ & _ & Hr & _ & _ & _ & Hu & Hs).
  rewrite Ht in Ht'. injection Ht' as <-.
  assert (Hb' : Update.getboolean m' "submodule" = Host.Returns b).
  { unfold Update.getboolean in *. now rewrite Hs. }
  unfold Update.download, Update.bind, Update.lift, Update.path_exists,
    Host.getitem.
  rewrite Hr. cbn [fst].
  change (Update.path_join "repos" ("pythondata-" ++ t ++ "-" ++ module))
    with ("repos/pythondata-" ++ t ++ "-" ++ module).
  rewrite He. cbn [negb]. rewrite Hb', Hu.
  unfold Update.check_call.
  set (url := GIT_MODE ++ "://github.com/litex-hub/"
              ++ ("pythondata-" ++ t ++ "-" ++ module) ++ ".git").
  set (dir := "repos/pythondata-" ++ t ++ "-" ++ module).
  assert (Hurl : exists c0 r0, url = String c0 r0 /\ solid url = true).
  { assert (Hsolid : solid url = true).
    { subst url. rewrite !solid_app, HG, Hst, Hsm. reflexivity. }
    subst url. destruct GIT_MODE as [|c0 r0].
    - eexists _, _. split; [reflexivity | exact Hsolid].
    - eexists _, _. split; [reflexivity | exact Hsolid]. }
  assert (Hdir : solid dir = true).
  { subst dir.
    change ("repos/pythondata-" ++ t ++ "-" ++ module)
      with ("repos/pythondata-" ++ (t ++ "-" ++ module)).
    rewrite !solid_app, Hst, Hsm. reflexivity. }
  assert (Hwords : Update.words_from "" (url ++ " " ++ dir) = [url; dir]).
  { destruct Hurl as (c0 & r0 & Eu & Hsu). rewrite Eu in *.
    change (String c0 r0 ++ " " ++ dir) with (String c0 r0 ++ String " " dir).
    rewrite (words_from_word c0 r0 dir Hsu).
    subst dir. cbn [append]. now rewrite words_from_last. }
  assert (Hurl' : GIT_MODE ++ "://github.com/litex-hub/pythondata-" ++ t
                  ++ "-" ++ module ++ ".git" = url).
  { subst url. repeat (cbn [append]; rewrite ?string_app_assoc).
    reflexivity. }
  rewrite Hurl'.
  destruct (Update.truthy b).
  - destruct (Update.sys_check_call sys w _ ".") as [w' ok] eqn:Ec.
    cbn [fst snd app]. f_equal. f_equal.
    unfold Update.words.
    change ("git clone --recursive " ++ url ++ " " ++ dir)
      with ("git" ++ String " " ("clone" ++ String " " ("--recursive"
            ++ String " " (url ++ " " ++ dir)))).
    rewrite !words_from_word by reflexivity. now rewrite Hwords.
  - destruct (Update.sys_check_call sys w _ ".") as [w' ok] eqn:Ec.
    cbn [fst snd app]. f_equal. f_equal.
    unfold Update.words.
    change ("git clone " ++ url ++ " " ++ dir)
      with ("git" ++ String " " ("clone" ++ String " " (url ++ " " ++ dir))).
    rewrite !words_from_word by reflexivity. now rewrite Hwords.
Qed.

Lemma download_clones_witness :
  let sys := {| Update.sys_exists := fun (_ : unit) _ => false;
                Update.sys_read := fun _ _ => None;
                Update.sys_write := fun w _ _ => (w, true);
                Update.sys_check_call := fun w _ _ => (w, true);
                Update.sys_check_output := fun w _ _ => (w, Some "");
                Update.sys_commit := fun w _ _ => (w, true) |} in
  let m := [("type", "cpu"); ("contents", "verilog")] in
  let m' := match module_keys "git+ssh" "0.0.post1" [Some 0; Some 0; Some 1]
                    "myooo" m with
            | Host.Returns x => x
            | Host.Raises _ => []
            end in
  snd (fst (Update.download sys m' (tt, [])))
  = [Update.CheckCall
       ["git"; "clone";
        "git+ssh://github.com/litex-hub/pythondata-cpu-myooo.git";
        "repos/pythondata-cpu-myooo"] "."].
Proof.
  intros sys m m'.
  exact (download_clones sys tt "git+ssh" "0.0.post1" [Some 0; Some 0; Some 1]
           "myooo" "cpu" m m' None eq_refl eq_refl eq_refl eq_refl eq_refl
           eq_refl eq_refl).
Defined.
